(** * Theban Mapping Project scrapers: a shallow embedding

    Embedding of [theban_scraper.py] (class [ThebanScraper]) and of the
    classifier of [amduat_scraper.py] (class [AmduatScraper]).

    Conventions of the model.
    - A Python [str] is a [string].  Text is modelled over the ASCII
      repertoire: characters above 127 are carried unchanged, have no case and
      belong to no character class.
    - A Python [int] is a [Z]; a [dict] is an association list in insertion
      order (the download loop enumerates dictionaries in that order).
    - [print] appends a line to the output of a computation; a raised
      exception ends it.  Both are carried by the monad [M].
    - The collaborators the scripts call but do not define (the HTTP session,
      the HTML parser, [urllib.parse.urljoin], the file system) are the fields
      of a record [Host]; every definition that reaches them takes it as an
      argument. *)

From Stdlib Require Import Strings.String Strings.Ascii Lists.List ZArith Bool Lia
  Numbers.DecimalString Arith.PeanoNat.
Import ListNotations.

Open Scope bool_scope.
Open Scope list_scope.
Open Scope string_scope.

(** ** Python string primitives *)

Module Str.

Definition code (c : ascii) : nat := nat_of_ascii c.

Definition in_range (lo hi : nat) (c : ascii) : bool :=
  (lo <=? code c)%nat && (code c <=? hi)%nat.

Definition is_upper (c : ascii) : bool := in_range 65 90 c.
Definition is_lower (c : ascii) : bool := in_range 97 122 c.
Definition is_digit (c : ascii) : bool := in_range 48 57 c.
Definition is_alpha (c : ascii) : bool := is_upper c || is_lower c.

(** [str.isspace] and the regex class [\s]: TAB, LF, VT, FF, CR, the four
    separators FS, GS, RS, US, and the space. *)
Definition is_space (c : ascii) : bool :=
  in_range 9 13 c || in_range 28 32 c.

(** The regex class [\w]. *)
Definition is_word (c : ascii) : bool :=
  is_alpha c || is_digit c || Ascii.eqb c "_".

Definition lower_char (c : ascii) : ascii :=
  if is_upper c then ascii_of_nat (code c + 32) else c.

Definition upper_char (c : ascii) : ascii :=
  if is_lower c then ascii_of_nat (code c - 32) else c.

Fixpoint map (f : ascii -> ascii) (s : string) : string :=
  match s with
  | EmptyString => EmptyString
  | String c s' => String (f c) (map f s')
  end.

(** [s.lower()] *)
Definition lower (s : string) : string := map lower_char s.

Fixpoint forallb (f : ascii -> bool) (s : string) : bool :=
  match s with
  | EmptyString => true
  | String c s' => f c && forallb f s'
  end.

Fixpoint existsb (f : ascii -> bool) (s : string) : bool :=
  match s with
  | EmptyString => false
  | String c s' => f c || existsb f s'
  end.

(** [needle in s] *)
Fixpoint contains (needle s : string) : bool :=
  String.prefix needle s ||
  match s with
  | EmptyString => false
  | String _ s' => contains needle s'
  end.

(** Truth value of a string: non-empty. *)
Definition truthy (s : string) : bool :=
  match s with EmptyString => false | _ => true end.

(** [s[:n]] for [n >= 0]. *)
Fixpoint take (n : nat) (s : string) : string :=
  match n, s with
  | S n', String c s' => String c (take n' s')
  | _, _ => EmptyString
  end.

Fixpoint drop (n : nat) (s : string) : string :=
  match n, s with
  | S n', String _ s' => drop n' s'
  | _, _ => s
  end.

(** [s[:n]] for any integer [n]: a negative bound counts from the end. *)
Definition slice_to (n : Z) (s : string) : string :=
  if (0 <=? n)%Z then take (Z.to_nat n) s
  else take (String.length s - Z.to_nat (- n)) s.

Fixpoint rev_onto (s acc : string) : string :=
  match s with
  | EmptyString => acc
  | String c s' => rev_onto s' (String c acc)
  end.

Definition rev (s : string) : string := rev_onto s EmptyString.

(** [s.lstrip(chars)] with the stripped set given as a predicate. *)
Fixpoint lstrip_by (f : ascii -> bool) (s : string) : string :=
  match s with
  | EmptyString => EmptyString
  | String c s' => if f c then lstrip_by f s' else s
  end.

Fixpoint rstrip_by (f : ascii -> bool) (s : string) : string :=
  match s with
  | EmptyString => EmptyString
  | String c s' =>
      match rstrip_by f s' with
      | EmptyString => if f c then EmptyString else String c EmptyString
      | t => String c t
      end
  end.

Definition strip_by (f : ascii -> bool) (s : string) : string :=
  rstrip_by f (lstrip_by f s).

(** [s.strip()] *)
Definition strip (s : string) : string := strip_by is_space s.

(** [s.strip('_')] *)
Definition strip_chars (chars : string) (s : string) : string :=
  strip_by (fun c => existsb (Ascii.eqb c) chars) s.

(** Splitting at every character of a class: [re.split(r'[...]', s)], and
    [s.split(c)] for a one-character separator.  The result is never empty. *)
Fixpoint split_by (f : ascii -> bool) (s : string) : list string :=
  match s with
  | EmptyString => [EmptyString]
  | String c s' =>
      if f c then EmptyString :: split_by f s'
      else match split_by f s' with
           | [] => [String c EmptyString]
           | w :: ws => String c w :: ws
           end
  end.

(** [s.split()]: maximal runs of non-space characters. *)
Definition split_ws (s : string) : list string :=
  filter truthy (split_by is_space s).

(** [sep.join(l)] *)
Fixpoint join (sep : string) (l : list string) : string :=
  match l with
  | [] => EmptyString
  | [w] => w
  | w :: ws => w ++ sep ++ join sep ws
  end.

(** [s.replace(a, b)] for one-character [a] and [b]. *)
Definition replace_char (a b : ascii) (s : string) : string :=
  map (fun c => if Ascii.eqb c a then b else c) s.

(** [s.title()]: the first letter of every run of letters in upper case, the
    others in lower case. *)
Fixpoint title_from (prev_cased : bool) (s : string) : string :=
  match s with
  | EmptyString => EmptyString
  | String c s' =>
      String (if prev_cased then lower_char c else upper_char c)
             (title_from (is_alpha c) s')
  end.

Definition title (s : string) : string := title_from false s.

(** [str(n)] for an integer. *)
Definition of_Z (n : Z) : string := NilZero.string_of_int (Z.to_int n).

Definition of_nat (n : nat) : string := of_Z (Z.of_nat n).

End Str.

(** ** The regular expressions of the [re] module

    A pattern is a syntax tree; matching is the backtracking search of the
    [re] module: alternatives are tried left to right, repetition is greedy.
    Every pattern of the scripts has at most one capturing group. *)

Module Re.

Inductive regex : Type :=
| Eps                          (* the empty pattern *)
| Lit (c : ascii)              (* a literal character *)
| Cls (f : ascii -> bool)      (* a character class *)
| Cat (r1 r2 : regex)          (* r1 r2 *)
| Alt (r1 r2 : regex)          (* r1|r2 *)
| Star (r : regex)             (* r* *)
| Grp (r : regex).             (* (r), the capturing group *)

Definition Plus (r : regex) : regex := Cat r (Star r).
Definition Opt (r : regex) : regex := Alt r Eps.

(** A literal word. *)
Fixpoint Word (s : string) : regex :=
  match s with
  | EmptyString => Eps
  | String c EmptyString => Lit c
  | String c s' => Cat (Lit c) (Word s')
  end.

Fixpoint Seq (l : list regex) : regex :=
  match l with
  | [] => Eps
  | [r] => r
  | r :: l' => Cat r (Seq l')
  end.

Fixpoint Any (l : list regex) : regex :=
  match l with
  | [] => Cls (fun _ => false)
  | [r] => r
  | r :: l' => Alt r (Any l')
  end.

(** [\s], [\w], [\d], [.] and bracket classes. *)
Definition space : regex := Cls Str.is_space.
Definition word : regex := Cls Str.is_word.
Definition digit : regex := Cls Str.is_digit.
Definition dot : regex := Cls (fun c => negb (Ascii.eqb c "010")).
Definition one_of (chars : string) : regex :=
  Cls (fun c => Str.existsb (Ascii.eqb c) chars).
Definition none_of (chars : string) : regex :=
  Cls (fun c => negb (Str.existsb (Ascii.eqb c) chars)).

Definition lit_eq (ic : bool) (c d : ascii) : bool :=
  if ic then Ascii.eqb (Str.lower_char c) (Str.lower_char d) else Ascii.eqb c d.

Definition cls_in (ic : bool) (f : ascii -> bool) (d : ascii) : bool :=
  if ic then f d || f (Str.lower_char d) || f (Str.upper_char d) else f d.

(** The greedy loop of [r*]: [body] matches [r] once; an iteration that
    consumes nothing is not repeated.  [n] bounds the iterations by the
    length of the input. *)
Fixpoint star_loop {X : Type}
    (body : string -> option string -> (string -> option string -> option X) -> option X)
    (k : string -> option string -> option X)
    (n : nat) (s : string) (cap : option string) {struct n} : option X :=
  match n with
  | O => k s cap
  | S n' =>
      match body s cap
              (fun s1 c1 =>
                 if (String.length s1 <? String.length s)%nat
                 then star_loop body k n' s1 c1 else None) with
      | Some x => Some x
      | None => k s cap
      end
  end.

(** [rmatch ic r s cap k]: match [r] at the start of [s] and hand the rest of
    the input and the capture to the continuation [k]; [None] makes the
    matcher backtrack.  [ic] is the IGNORECASE flag. *)
Fixpoint rmatch {X : Type} (ic : bool) (r : regex) (s : string) (cap : option string)
    (k : string -> option string -> option X) {struct r} : option X :=
  match r with
  | Eps => k s cap
  | Lit c =>
      match s with
      | String d s' => if lit_eq ic c d then k s' cap else None
      | EmptyString => None
      end
  | Cls f =>
      match s with
      | String d s' => if cls_in ic f d then k s' cap else None
      | EmptyString => None
      end
  | Cat r1 r2 => rmatch ic r1 s cap (fun s1 c1 => rmatch ic r2 s1 c1 k)
  | Alt r1 r2 =>
      match rmatch ic r1 s cap k with
      | Some x => Some x
      | None => rmatch ic r2 s cap k
      end
  | Star r1 =>
      star_loop (fun s0 c0 k0 => rmatch ic r1 s0 c0 k0) k (String.length s) s cap
  | Grp r1 =>
      rmatch ic r1 s cap
        (fun s1 _ => k s1 (Some (Str.take (String.length s - String.length s1) s)))
  end.

(** A match at the start of [s]: the unmatched rest and group 1. *)
Definition match_at (ic : bool) (r : regex) (s : string) : option (string * option string) :=
  rmatch ic r s None (fun rest cap => Some (rest, cap)).

(** [m.group(1)]; a group that did not take part reads as the empty string in
    [re.findall]. *)
Definition group1 (cap : option string) : string :=
  match cap with Some g => g | None => EmptyString end.

(** [re.search(r, s)]: the leftmost match, as the text before it, the match
    and the text after it, with group 1. *)
Fixpoint search_from (ic : bool) (r : regex) (s : string) : option (string * option string) :=
  match match_at ic r s with
  | Some m => Some m
  | None =>
      match s with
      | EmptyString => None
      | String _ s' => search_from ic r s'
      end
  end.

Definition search (r : regex) (s : string) : option (option string) :=
  option_map snd (search_from false r s).

Definition matches (r : regex) (s : string) : bool :=
  match search r s with Some _ => true | None => false end.

(** The scan shared by [re.findall] and [re.sub]: non-overlapping matches,
    left to right.  [skip] counts the characters of the current match that
    are still to be passed over. *)
Fixpoint findall_go (ic : bool) (r : regex) (s : string) (skip : nat) : list string :=
  match skip with
  | S n =>
      match s with
      | EmptyString => []
      | String _ s' => findall_go ic r s' n
      end
  | O =>
      match match_at ic r s with
      | Some (rest, cap) =>
          group1 cap ::
          match s with
          | EmptyString => []
          | String _ s' => findall_go ic r s' (String.length s - String.length rest - 1)
          end
      | None =>
          match s with
          | EmptyString => []
          | String _ s' => findall_go ic r s' 0
          end
      end
  end.

(** [re.findall(r, s)] for a pattern with one group: the list of the values
    of the group. *)
Definition findall (r : regex) (s : string) : list string := findall_go false r s 0.

Fixpoint sub_go (ic : bool) (r : regex) (repl : string) (s : string) (skip : nat) : string :=
  match skip with
  | S n =>
      match s with
      | EmptyString => EmptyString
      | String _ s' => sub_go ic r repl s' n
      end
  | O =>
      match match_at ic r s with
      | Some (rest, _) =>
          repl ++
          match s with
          | EmptyString => EmptyString
          | String c s' =>
              match (String.length s - String.length rest)%nat with
              | O => String c (sub_go ic r repl s' 0)
              | S m => sub_go ic r repl s' m
              end
          end
      | None =>
          match s with
          | EmptyString => EmptyString
          | String c s' => String c (sub_go ic r repl s' 0)
          end
      end
  end.

(** [re.sub(r, repl, s)] and [re.sub(r, repl, s, flags=re.IGNORECASE)] *)
Definition sub (r : regex) (repl s : string) : string := sub_go false r repl s 0.
Definition sub_ignorecase (r : regex) (repl s : string) : string := sub_go true r repl s 0.

End Re.

(** ** Exceptions, printed output *)

Inductive exn : Type :=
| AttributeError (msg : string)
| ValueError (msg : string)
| KeyError (msg : string)
| RequestException (msg : string)   (* raised by [requests] on a transport failure *)
| OSError (msg : string).

(** [str(e)] *)
Definition exn_str (e : exn) : string :=
  match e with
  | AttributeError m | ValueError m | KeyError m | RequestException m | OSError m => m
  end.

Inductive outcome (A : Type) : Type :=
| Ok (a : A)
| Raise (e : exn).
Arguments Ok {A} a.
Arguments Raise {A} e.

(** A computation: how it ends, and the lines it printed on the way. *)
Definition M (A : Type) : Type := (outcome A * list string)%type.

Definition ret {A} (a : A) : M A := (Ok a, []).

Definition bind {A B} (m : M A) (f : A -> M B) : M B :=
  match m with
  | (Ok a, out) => let (r, out') := f a in (r, (out ++ out')%list)
  | (Raise e, out) => (Raise e, out)
  end.

Definition print (line : string) : M unit := (Ok tt, [line]).

Definition lift {A} (o : outcome A) : M A := (o, []).

Definition raise {A} (e : exn) : M A := (Raise e, []).

Declare Scope monad_scope.
Delimit Scope monad_scope with monad.
Notation "x <- m ;; k" := (bind m (fun x => k))
  (at level 61, m at next level, right associativity) : monad_scope.
Notation "m ;;; k" := (bind m (fun _ => k))
  (at level 61, right associativity) : monad_scope.
Open Scope monad_scope.

(** [for x in l: body] over a loop state. *)
Fixpoint for_each {A S : Type} (l : list A) (body : A -> S -> M S) (st : S) : M S :=
  match l with
  | [] => ret st
  | x :: l' => st' <- body x st ;; for_each l' body st'
  end.

Definition NL : string := String "010" EmptyString.

(** ** Dictionaries in insertion order *)

Section Dict.
Context {K V : Type} (eqb : K -> K -> bool).

Fixpoint dict_get (d : list (K * V)) (k : K) : option V :=
  match d with
  | [] => None
  | (k', v) :: d' => if eqb k k' then Some v else dict_get d' k
  end.

Definition dict_mem (d : list (K * V)) (k : K) : bool :=
  match dict_get d k with Some _ => true | None => false end.

(** [d[k] = v]: an existing key keeps its place, a new one goes last. *)
Fixpoint dict_set (d : list (K * V)) (k : K) (v : V) : list (K * V) :=
  match d with
  | [] => [(k, v)]
  | (k', v') :: d' => if eqb k k' then (k', v) :: d' else (k', v') :: dict_set d' k v
  end.

Definition dict_keys (d : list (K * V)) : list K := map fst d.
End Dict.

(** ** The parsed page *)

Set Warnings "-register-all".

Inductive node : Type :=
| NavigableString (text : string)
| Tag (name : string) (attrs : list (string * string)) (contents : list node).

(** An element of the tree as the program holds it: the tag together with the
    chain of its ancestors, nearest first ([element.parent] and so on up to
    the document object, whose parent is [None]). *)
Record element : Type := mkElement { el_node : node; el_parents : list node }.

Definition el_parent (e : element) : option element :=
  match el_parents e with
  | [] => None
  | p :: ps => Some (mkElement p ps)
  end.

Definition tag_name (n : node) : option string :=
  match n with Tag nm _ _ => Some nm | NavigableString _ => None end.

(** [tag.get(key)] *)
Definition tag_get (n : node) (key : string) : option string :=
  match n with
  | Tag _ attrs _ => dict_get String.eqb attrs key
  | NavigableString _ => None
  end.

(** The strings below a node, in document order. *)
Fixpoint strings (n : node) : list string :=
  match n with
  | NavigableString t => [t]
  | Tag _ _ cs => flat_map strings cs
  end.

(** [tag.get_text()] and [tag.get_text(strip=True)] *)
Definition get_text (n : node) : string := Str.join "" (strings n).
Definition get_text_strip (n : node) : string :=
  Str.join "" (filter Str.truthy (map Str.strip (strings n))).

(** The tags below a node, in document order, each with its ancestors. *)
Fixpoint descendants (above : list node) (n : node) : list element :=
  match n with
  | NavigableString _ => []
  | Tag _ _ cs =>
      flat_map (fun c =>
                  match c with
                  | NavigableString _ => []
                  | Tag _ _ _ => mkElement c (n :: above) :: descendants (n :: above) c
                  end) cs
  end.

(** [soup.find_all(...)] with the filter as a predicate on the tag. *)
Definition find_all (soup : node) (p : node -> bool) : list element :=
  filter (fun e => p (el_node e)) (descendants [] soup).

Definition has_name (nm : string) (n : node) : bool :=
  match tag_name n with Some x => String.eqb x nm | None => false end.

(** [soup.find(name)] *)
Definition find (soup : node) (nm : string) : option element :=
  hd_error (find_all soup (has_name nm)).

Definition has_attr (key : string) (n : node) : bool :=
  match tag_get n key with Some _ => true | None => false end.

(** ** The collaborators *)

Record Response : Type := mkResponse {
  status_code : Z;
  soup_of : node              (* BeautifulSoup(response.text, 'html.parser') *)
}.

Record Host : Type := mkHost {
  urljoin : string -> string -> outcome string;   (* urllib.parse.urljoin *)
  session_get : string -> outcome Response;       (* session.get(url) *)
  session_get_stream : string -> outcome Z;       (* session.get(url, stream=True): the status *)
  write_file : string -> outcome unit;            (* open(path, 'wb') and the writes *)
  makedirs : string -> outcome unit               (* os.makedirs(path, exist_ok=True) *)
}.

(** ** [FUNERARY_TEXT_CONFIGS] *)

Record Config : Type := mkConfig {
  name : string;
  keywords : list string;
  patterns : list Re.regex;
  sections : list (Z * string);
  section_mapping : list (string * Z)
}.

Module Patterns.
Import Re.

(** [[,\s]] *)
Definition comma_space : regex :=
  Cls (fun c => Ascii.eqb c "," || Str.is_space c).

(** [(?:imydwat|amduat)] *)
Definition amduat_name : regex := Alt (Word "imydwat") (Word "amduat").

(** [(?:section|part|division)] *)
Definition division : regex := Any [Word "section"; Word "part"; Word "division"].

(** [(?:book\s+of\s+)?] *)
Definition book_of : regex :=
  Opt (Seq [Word "book"; Plus space; Word "of"; Plus space]).

(** [(?:the\s+)?] *)
Definition the : regex := Opt (Seq [Word "the"; Plus space]).

(** [imydwat[,\s]*(\w+)\s+hour] *)
Definition amduat_1 : regex :=
  Seq [Word "imydwat"; Star comma_space; Grp (Plus word); Plus space; Word "hour"].

(** [amduat[,\s]*(\w+)\s+hour] *)
Definition amduat_2 : regex :=
  Seq [Word "amduat"; Star comma_space; Grp (Plus word); Plus space; Word "hour"].

(** [(\w+)\s+hour\s+of\s+(?:the\s+)?(?:imydwat|amduat)] *)
Definition amduat_3 : regex :=
  Seq [Grp (Plus word); Plus space; Word "hour"; Plus space; Word "of"; Plus space;
       the; amduat_name].

(** [hour\s+(\d+)[,\s]*(?:imydwat|amduat)] *)
Definition amduat_4 : regex :=
  Seq [Word "hour"; Plus space; Grp (Plus digit); Star comma_space; amduat_name].

(** [(?:book\s+of\s+)?caverns[,\s]*(\w+)\s+(?:section|part|division)] *)
Definition caverns_1 : regex :=
  Seq [book_of; Word "caverns"; Star comma_space; Grp (Plus word); Plus space; division].

(** [(\w+)\s+(?:section|part|division)\s+of\s+(?:the\s+)?(?:book\s+of\s+)?caverns] *)
Definition caverns_2 : regex :=
  Seq [Grp (Plus word); Plus space; division; Plus space; Word "of"; Plus space;
       the; book_of; Word "caverns"].

(** [(?:section|part|division)\s+(\d+)[,\s]*(?:book\s+of\s+)?caverns] *)
Definition caverns_3 : regex :=
  Seq [division; Plus space; Grp (Plus digit); Star comma_space; book_of; Word "caverns"].

(** [/tombs/kv-\d+] *)
Definition tomb_href : regex := Seq [Word "/tombs/kv-"; Plus digit].

(** [/tombs/([^/]+)] *)
Definition tomb_slug : regex := Seq [Word "/tombs/"; Grp (Plus (none_of "/"))].

(** [/kv-(\d+)] *)
Definition kv_number : regex := Seq [Word "/kv-"; Grp (Plus digit)].

(** [/styles/[^/]+/public/(.+)] *)
Definition styles_variant : regex :=
  Seq [Word "/styles/"; Plus (none_of "/"); Word "/public/"; Grp (Plus dot)].

(** [\s*-\s*Theban Mapping Project.*] *)
Definition site_suffix : regex :=
  Seq [Star space; Lit "-"; Star space; Word "Theban Mapping Project"; Star dot].

(** The bracket class of [sanitize_filename]: the characters < > : / \ | ? *
    and the double quote (character 34). *)
Definition unsafe_char (c : ascii) : bool :=
  Str.existsb (Ascii.eqb c) "<>:/\|?*" || Ascii.eqb c (ascii_of_nat 34).
Definition unsafe : regex := Cls unsafe_char.

(** [\s+] and [_+] *)
Definition spaces : regex := Plus space.
Definition underscores : regex := Plus (Lit "_").

(** [[.;!?\n]] *)
Definition sentence_end (c : ascii) : bool :=
  Str.existsb (Ascii.eqb c) ".;!?" || Ascii.eqb c "010".
End Patterns.

Definition amduat_config : Config := {|
  name := "Amduat";
  keywords := ["amduat"; "imydwat"];
  patterns := [Patterns.amduat_1; Patterns.amduat_2; Patterns.amduat_3; Patterns.amduat_4];
  sections :=
    [(1, "prima_ora"); (2, "seconda_ora"); (3, "terza_ora"); (4, "quarta_ora");
     (5, "quinta_ora"); (6, "sesta_ora"); (7, "settima_ora"); (8, "ottava_ora");
     (9, "nona_ora"); (10, "decima_ora"); (11, "undicesima_ora"); (12, "dodicesima_ora")]%Z;
  section_mapping :=
    [("first", 1); ("second", 2); ("third", 3); ("fourth", 4); ("fifth", 5); ("sixth", 6);
     ("seventh", 7); ("eighth", 8); ("ninth", 9); ("tenth", 10); ("eleventh", 11);
     ("twelfth", 12);
     ("1", 1); ("2", 2); ("3", 3); ("4", 4); ("5", 5); ("6", 6);
     ("7", 7); ("8", 8); ("9", 9); ("10", 10); ("11", 11); ("12", 12)]%Z
|}.

Definition caverns_config : Config := {|
  name := "Book of Caverns";
  keywords := ["caverns"; "book of caverns"];
  patterns := [Patterns.caverns_1; Patterns.caverns_2; Patterns.caverns_3];
  sections :=
    [(1, "prima_sezione"); (2, "seconda_sezione"); (3, "terza_sezione");
     (4, "quarta_sezione"); (5, "quinta_sezione"); (6, "sesta_sezione")]%Z;
  section_mapping :=
    [("first", 1); ("second", 2); ("third", 3); ("fourth", 4); ("fifth", 5); ("sixth", 6);
     ("1", 1); ("2", 2); ("3", 3); ("4", 4); ("5", 5); ("6", 6)]%Z
|}.

Definition FUNERARY_TEXT_CONFIGS : list (string * Config) :=
  [("amduat", amduat_config); ("caverns", caverns_config)].

(** ** Fragments the two classifiers share verbatim *)

(** An entry of the list [images]: a tag found by [find_all('img')], or the
    plain dictionary [{'src': src}] appended for an element with a
    [data-src] attribute. *)
Inductive image : Type :=
| ImgTag (e : element)
| ImgDict (d : list (string * string)).

(** [img.get(key)] *)
Definition img_get (img : image) (key : string) : option string :=
  match img with
  | ImgTag e => tag_get (el_node e) key
  | ImgDict d => dict_get String.eqb d key
  end.

Definition no_parent : exn := AttributeError "'dict' object has no attribute 'parent'".

(** [img.parent]: a dictionary has no such attribute. *)
Definition img_parent (img : image) : outcome (option element) :=
  match img with
  | ImgTag e => Ok (el_parent e)
  | ImgDict _ => Raise no_parent
  end.

(** [a or b] on attribute values. *)
Definition py_or (a b : option string) : option string :=
  match a with
  | Some s => if Str.truthy s then a else b
  | None => b
  end.

(** The list [images]: the [img] tags, then one dictionary per element with
    a non-empty [data-src]. *)
Definition lazy_entries (soup : node) : list image :=
  flat_map (fun e =>
              match tag_get (el_node e) "data-src" with
              | Some src => if Str.truthy src then [ImgDict [("src", src)]] else []
              | None => []
              end)
           (find_all soup (has_attr "data-src")).

Definition collect_images (soup : node) : list image :=
  (map ImgTag (find_all soup (has_name "img")) ++ lazy_entries soup)%list.

(** [img.get('src') or img.get('data-src')] *)
Definition effective_src (img : image) : option string :=
  py_or (img_get img "src") (img_get img "data-src").

Definition denylist : list string := ["logo"; "icon"; "compass"; "hieroglyph"].

(** [any(skip in img_src.lower() for skip in [...])] *)
Definition denylisted (img_src : string) : bool :=
  existsb (fun skip => Str.contains skip (Str.lower img_src)) denylist.

(** The rewriting of a [/styles/<variant>/public/<rest>] source. *)
Definition normalize_src (img_src : string) : string :=
  if Str.contains "/styles/" img_src then
    match Re.search Patterns.styles_variant img_src with
    | Some g => "/sites/default/files/" ++ Re.group1 g
    | None => img_src
    end
  else img_src.

Definition base_url : string := "https://thebanmappingproject.com".

(** The absolute URL of an accepted image: the source is normalized, then
    resolved against the site. *)
Definition image_url (H : Host) (img_src : string) : outcome string :=
  let img_src := normalize_src img_src in
  urljoin H base_url img_src.

(** The alt text in lower case, or the empty string. *)
Definition alt_context (img : image) : string :=
  match img_get img "alt" with
  | Some alt => if Str.truthy alt then Str.lower alt else ""
  | None => ""
  end.

(** [os.path.basename] *)
Definition basename (path : string) : string :=
  last (Str.split_by (Ascii.eqb "/") path) "".

(** [os.path.join(a, b)] *)
Definition path_join (a b : string) : string :=
  if String.prefix "/" b then b
  else if negb (Str.truthy a) || String.prefix "/" (Str.rev a) then a ++ b
  else a ++ "/" ++ b.

(** [os.path.splitext(name)[1]] for a name without directory part. *)
Definition splitext_ext (nm : string) : string :=
  let body := Str.lstrip_by (Ascii.eqb ".") nm in
  match List.rev (Str.split_by (Ascii.eqb ".") body) with
  | ext :: _ :: _ => "." ++ ext
  | _ => ""
  end.

(** The truth value of an integer that may be [None]. *)
Definition int_truthy (n : option Z) : bool :=
  match n with Some v => negb (v =? 0)%Z | None => false end.

(** ** [theban_scraper.py]: class [ThebanScraper] *)

Module Theban.

Record ThebanScraper : Type := mkScraper {
  text_type : string;
  config : Config
}.

(** [repr] of a list of plain strings, as in [['amduat', 'caverns']]. *)
Definition repr_list (l : list string) : string :=
  "[" ++ Str.join ", " (map (fun k => "'" ++ k ++ "'") l) ++ "]".

(** [__init__] *)
Definition init (text_type : string) : outcome ThebanScraper :=
  match dict_get String.eqb FUNERARY_TEXT_CONFIGS text_type with
  | Some cfg => Ok (mkScraper text_type cfg)
  | None =>
      Raise (ValueError ("Unknown funerary text type: " ++ text_type ++ ". Available: "
                         ++ repr_list (dict_keys FUNERARY_TEXT_CONFIGS)))
  end.

(** One classified image: URL, caption, tomb name. *)
Definition entry : Type := (string * string * string)%type.
Definition images_by_section : Type := list (Z * list entry).

(** [sanitize_filename] *)
Definition sanitize_filename (text : string) (max_length : Z) : string :=
  let text := Re.sub Patterns.unsafe "_" text in
  let text := Re.sub Patterns.spaces "_" text in
  let text := Re.sub Patterns.underscores "_" text in
  let text := Str.strip_chars "_" text in
  let text :=
    if (Z.of_nat (String.length text) >? max_length)%Z
    then Str.slice_to max_length text else text in
  if Str.truthy text then text else "unnamed".

Definition default_max_length : Z := 100.

(** [extract_tomb_name] *)
Definition extract_tomb_name (soup : node) (tomb_url : string) : string :=
  let from_url :=
    match Re.search Patterns.tomb_slug tomb_url with
    | Some g => Str.title (Str.replace_char "-" " " (Re.group1 g))
    | None => "Unknown_Tomb"
    end in
  let from_h1 :=
    match find soup "h1" with
    | Some h1_elem =>
        let h1_text := get_text_strip (el_node h1_elem) in
        if Str.truthy h1_text then h1_text else from_url
    | None => from_url
    end in
  match find soup "title" with
  | Some title_elem =>
      let title := get_text_strip (el_node title_elem) in
      let title := Re.sub_ignorecase Patterns.site_suffix "" title in
      if Str.truthy title
         && negb (existsb (String.eqb (Str.lower title)) ["home"; "theban mapping project"])
      then title else from_h1
  | None => from_h1
  end.

(** The three steps up the tree: the context string grows by the text of
    every ancestor met, and [context_text] keeps the first non-empty
    stripped text. *)
Fixpoint walk_up (n : nat) (parent : option element) (img_context context_text : string)
  : string * string :=
  match n with
  | O => (img_context, context_text)
  | S n' =>
      match parent with
      | Some p =>
          let parent_text := Str.lower (get_text (el_node p)) in
          let img_context := img_context ++ " " ++ parent_text in
          let context_text :=
            if Str.truthy context_text then context_text else get_text_strip (el_node p) in
          walk_up n' (el_parent p) img_context context_text
      | None => walk_up n' None img_context context_text
      end
  end.

Definition mentions (keywords : list string) (text : string) : bool :=
  existsb (fun keyword => Str.contains keyword (Str.lower text)) keywords.

(** The first sentence that holds a keyword, stripped. *)
Fixpoint first_sentence (keywords : list string) (sentences : list string)
    (matching_text : string) : string :=
  match sentences with
  | [] => matching_text
  | sentence :: rest =>
      if mentions keywords sentence then Str.strip sentence
      else first_sentence keywords rest matching_text
  end.

(** [words[start:end]] *)
Definition window (words : list string) (start stop : nat) : list string :=
  firstn (stop - start) (skipn start words).

(** The words around the first word that holds a keyword. *)
Fixpoint first_window (keywords : list string) (words all_words : list string) (i : nat)
    (matching_text : string) : string :=
  match words with
  | [] => matching_text
  | w :: rest =>
      if mentions keywords w then
        let start := Nat.max 0 (i - 5) in
        let stop := Nat.min (List.length all_words) (i + 10) in
        Str.join " " (window all_words start stop)
      else first_window keywords rest all_words (S i) matching_text
  end.

(** The caption taken from [context_text] when a match resolves. *)
Definition matching_caption (keywords : list string) (context_text matching_text : string)
  : string :=
  let sentences := Str.split_by Patterns.sentence_end context_text in
  let matching_text := first_sentence keywords sentences matching_text in
  if Str.truthy matching_text then matching_text
  else
    let words := Str.split_ws context_text in
    first_window keywords words words 0 matching_text.

(** [for match in matches: ...] with its [break]. *)
Fixpoint scan_matches (cfg : Config) (context_text : string) (matches : list string)
    (st : option Z * string) : option Z * string :=
  match matches with
  | [] => st
  | m :: rest =>
      match dict_get String.eqb (section_mapping cfg) (Str.lower m) with
      | Some v => (Some v, matching_caption (keywords cfg) context_text (snd st))
      | None => scan_matches cfg context_text rest st
      end
  end.

(** [for pattern in patterns: ...] with its [if section_found: break]. *)
Fixpoint scan_patterns (cfg : Config) (pats : list Re.regex) (img_context context_text : string)
    (st : option Z * string) : option Z * string :=
  match pats with
  | [] => st
  | pattern :: rest =>
      let st' := scan_matches cfg context_text (Re.findall pattern img_context) st in
      if int_truthy (fst st') then st'
      else scan_patterns cfg rest img_context context_text st'
  end.

Definition find_section (cfg : Config) (img_context context_text : string) : option Z * string :=
  scan_patterns cfg (patterns cfg) img_context context_text (None, "").

(** [matching_text or img.get('alt') or img.get('title') or ""] *)
Definition choose_caption (matching_text : string) (img : image) : string :=
  if Str.truthy matching_text then matching_text
  else match py_or (img_get img "alt") (img_get img "title") with
       | Some c => c
       | None => ""
       end.

Definition entry_url (e : entry) : string := fst (fst e).

Section WithHost.
Variable H : Host.

(** [get_tombs_list] *)
Definition get_tombs_list : M (list string) :=
  let url := base_url ++ "/valley-kings" in
  response <- lift (session_get H url) ;;
  if (status_code response =? 200)%Z then
    for_each
      (find_all (soup_of response)
         (fun n => has_name "a" n &&
                   match tag_get n "href" with
                   | Some href => Re.matches Patterns.tomb_href href
                   | None => false
                   end))
      (fun link tomb_urls =>
         match tag_get (el_node link) "href" with
         | Some href =>
             tomb_url <- lift (urljoin H base_url href) ;;
             if existsb (String.eqb tomb_url) tomb_urls then ret tomb_urls
             else ret (tomb_urls ++ [tomb_url])%list
         | None => raise (KeyError "href")
         end)
      []
  else ret [].

(** The body of [for img in images:]. *)
Definition classify_image (cfg : Config) (tomb_name : string) (img : image)
    (found : images_by_section) : M images_by_section :=
  match effective_src img with
  | None => ret found
  | Some img_src =>
      if negb (Str.truthy img_src) then ret found
      else if denylisted img_src then ret found
      else
        img_url <- lift (image_url H img_src) ;;
        let img_context := alt_context img in
        parent <- lift (img_parent img) ;;
        let (img_context, context_text) := walk_up 3 parent img_context "" in
        let (section_found, matching_text) := find_section cfg img_context context_text in
        match section_found with
        | Some sec =>
            if int_truthy section_found && dict_mem Z.eqb (sections cfg) sec then
              match dict_get Z.eqb found sec with
              | Some entries =>
                  if existsb (fun e => String.eqb (entry_url e) img_url) entries
                  then ret found
                  else
                    let caption := choose_caption matching_text img in
                    let found :=
                      dict_set Z.eqb found sec (entries ++ [(img_url, caption, tomb_name)])%list in
                    print ("  Found image for section " ++ Str.of_Z sec ++ ": "
                           ++ basename img_url) ;;;
                    (if Str.truthy caption
                     then print ("    Caption: " ++ Str.take 100 caption ++ "...")
                     else ret tt) ;;;
                    ret found
              | None => raise (KeyError (Str.of_Z sec))
              end
            else ret found
        | None => ret found
        end
  end.

(** [{i: [] for i in sections.keys()}] *)
Definition empty_sections (cfg : Config) : images_by_section :=
  map (fun kv => (fst kv, [])) (sections cfg).

(** [extract_funerary_text_images] *)
Definition extract_funerary_text_images (self : ThebanScraper) (tomb_url : string)
  : M images_by_section :=
  let cfg := config self in
  let found := empty_sections cfg in
  print ("Analyzing tomb: " ++ tomb_url) ;;;
  response <- lift (session_get H tomb_url) ;;
  if negb (status_code response =? 200)%Z then
    print ("Failed to access " ++ tomb_url) ;;;
    ret found
  else
    let soup := soup_of response in
    let tomb_name := extract_tomb_name soup tomb_url in
    for_each (collect_images soup) (classify_image cfg tomb_name) found.

(** [download_image]: every exception is caught and reported. *)
Definition download_image (url filepath : string) : M bool :=
  let failed (e : exn) : M bool :=
    print ("Error downloading " ++ url ++ ": " ++ exn_str e) ;;; ret false in
  match session_get_stream H url with
  | Ok status =>
      if (status =? 200)%Z then
        match write_file H filepath with
        | Ok _ => ret true
        | Raise e => failed e
        end
      else ret false
  | Raise e => failed e
  end.

(** [create_folder_structure] *)
Definition create_folder_structure (self : ThebanScraper) : M string :=
  let base_dir := text_type self in
  lift (makedirs H base_dir) ;;;
  for_each (sections (config self))
    (fun kv (_ : unit) => lift (makedirs H (path_join base_dir (snd kv)))) tt ;;;
  print ("Created folder structure in '" ++ base_dir ++ "' directory") ;;;
  ret base_dir.

(** The run-wide bucket: per section, URL to (caption, tomb name). *)
Definition bucket : Type := list (Z * list (string * (string * string))).

(** [{i: {} for i in sections.keys()}] *)
Definition empty_bucket (cfg : Config) : bucket :=
  map (fun kv => (fst kv, [])) (sections cfg).

(** [for img_url, caption, tomb_name in img_data: ...] *)
Fixpoint merge_entries (img_data : list entry) (seen : list (string * (string * string)))
  : list (string * (string * string)) :=
  match img_data with
  | [] => seen
  | (img_url, caption, tomb_name) :: rest =>
      merge_entries rest
        (if dict_mem String.eqb seen img_url then seen
         else dict_set String.eqb seen img_url (caption, tomb_name))
  end.

(** [for section, img_data in images_by_section.items(): ...] *)
Definition merge_sections (found : images_by_section) (all_images : bucket) : M bucket :=
  for_each found
    (fun kv all_images =>
       match dict_get Z.eqb all_images (fst kv) with
       | Some seen => ret (dict_set Z.eqb all_images (fst kv) (merge_entries (snd kv) seen))
       | None => raise (KeyError (Str.of_Z (fst kv)))
       end)
    all_images.

(** [for tomb_url in tomb_urls: ...] *)
Definition collect_all (self : ThebanScraper) (tomb_urls : list string) (all_images : bucket)
  : M bucket :=
  for_each tomb_urls
    (fun tomb_url all_images =>
       found <- extract_funerary_text_images self tomb_url ;;
       merge_sections found all_images)
    all_images.

(** The file name of the [idx]-th image of a section. *)
Definition image_filename (idx : nat) (img_url caption tomb_name : string) : string :=
  let tomb_id_prefix :=
    match Re.search Patterns.kv_number img_url with
    | Some g => "kv" ++ Re.group1 g ++ "_"
    | None => ""
    end in
  let base_filename := hd "" (Str.split_by (Ascii.eqb "?") (basename img_url)) in
  let extension :=
    let ext := splitext_ext base_filename in
    if Str.truthy ext then ext else ".jpg" in
  let sanitized_tomb_name := sanitize_filename tomb_name default_max_length in
  if Str.truthy caption then
    let sanitized_caption := sanitize_filename caption default_max_length in
    tomb_id_prefix ++ sanitized_tomb_name ++ "_" ++ sanitized_caption ++ extension
  else if Str.truthy base_filename then
    tomb_id_prefix ++ sanitized_tomb_name ++ "_" ++ base_filename
  else
    tomb_id_prefix ++ sanitized_tomb_name ++ "_image_" ++ Str.of_nat idx ++ extension.

(** [for idx, (img_url, (caption, tomb_name)) in enumerate(img_dict.items(), 1): ...] *)
Fixpoint download_section (section_dir : string) (idx : nat)
    (img_dict : list (string * (string * string))) (total_downloaded : Z) : M Z :=
  match img_dict with
  | [] => ret total_downloaded
  | (img_url, (caption, tomb_name)) :: rest =>
      let filepath := path_join section_dir (image_filename idx img_url caption tomb_name) in
      ok <- download_image img_url filepath ;;
      total_downloaded <-
        (if ok : bool then
           print ("  Downloaded: " ++ basename filepath) ;;; ret (total_downloaded + 1)%Z
         else ret total_downloaded) ;;
      download_section section_dir (S idx) rest total_downloaded
  end.

(** [for section_num, img_dict in all_images.items(): ...] *)
Definition download_all (cfg : Config) (base_dir : string) (all_images : bucket) : M Z :=
  for_each all_images
    (fun kv total_downloaded =>
       let '(section_num, img_dict) := kv in
       match img_dict with
       | [] => ret total_downloaded
       | _ =>
           match dict_get Z.eqb (sections cfg) section_num with
           | Some section_name =>
               let section_dir := path_join base_dir section_name in
               print (NL ++ "Section " ++ Str.of_Z section_num ++ " (" ++ section_name
                      ++ "): " ++ Str.of_nat (List.length img_dict) ++ " images") ;;;
               download_section section_dir 1 img_dict total_downloaded
           | None => raise (KeyError (Str.of_Z section_num))
           end
       end)
    0%Z.

(** [scrape_all_tombs]; the result is [total_downloaded]. *)
Definition scrape_all_tombs (self : ThebanScraper) : M Z :=
  let cfg := config self in
  print ("Starting " ++ name cfg ++ " scraper...") ;;;
  base_dir <- create_folder_structure self ;;
  print (NL ++ "Fetching tomb list...") ;;;
  tomb_urls <- get_tombs_list ;;
  print ("Found " ++ Str.of_nat (List.length tomb_urls) ++ " tombs") ;;;
  all_images <- collect_all self tomb_urls (empty_bucket cfg) ;;
  print (NL ++ "Downloading images...") ;;;
  total_downloaded <- download_all cfg base_dir all_images ;;
  print (NL ++ "Scraping complete! Downloaded " ++ Str.of_Z total_downloaded ++ " images") ;;;
  print ("Images organized in '" ++ base_dir ++ "' directory") ;;;
  ret total_downloaded.

End WithHost.

End Theban.

(** ** [amduat_scraper.py]: the classifier of class [AmduatScraper] *)

Module Amduat.

Definition images_by_hour : Type := list (Z * list string).

Definition patterns : list Re.regex :=
  [Patterns.amduat_1; Patterns.amduat_2; Patterns.amduat_3; Patterns.amduat_4].

Definition hour_mapping : list (string * Z) :=
  [("first", 1); ("second", 2); ("third", 3); ("fourth", 4);
   ("fifth", 5); ("sixth", 6); ("seventh", 7); ("eighth", 8);
   ("ninth", 9); ("tenth", 10); ("eleventh", 11); ("twelfth", 12);
   ("1", 1); ("2", 2); ("3", 3); ("4", 4); ("5", 5); ("6", 6);
   ("7", 7); ("8", 8); ("9", 9); ("10", 10); ("11", 11); ("12", 12)]%Z.

(** [{i: [] for i in range(1, 13)}] *)
Definition empty_hours : images_by_hour :=
  map (fun i => (Z.of_nat i, [])) (seq 1 12).

Fixpoint walk_up (n : nat) (parent : option element) (img_context : string) : string :=
  match n with
  | O => img_context
  | S n' =>
      match parent with
      | Some p =>
          walk_up n' (el_parent p) (img_context ++ " " ++ Str.lower (get_text (el_node p)))
      | None => walk_up n' None img_context
      end
  end.

(** [for match in matches: ...] with its [break]. *)
Fixpoint scan_matches (mapping : list (string * Z)) (matches : list string) (hour_found : option Z)
  : option Z :=
  match matches with
  | [] => hour_found
  | m :: rest =>
      match dict_get String.eqb mapping (Str.lower m) with
      | Some v => Some v
      | None => scan_matches mapping rest hour_found
      end
  end.

(** [for pattern in patterns: ...] with its [if hour_found: break]. *)
Fixpoint scan_patterns (mapping : list (string * Z)) (pats : list Re.regex)
    (img_context : string) (hour_found : option Z) : option Z :=
  match pats with
  | [] => hour_found
  | pattern :: rest =>
      let hour_found := scan_matches mapping (Re.findall pattern img_context) hour_found in
      if int_truthy hour_found then hour_found
      else scan_patterns mapping rest img_context hour_found
  end.

Definition find_hour (img_context : string) : option Z :=
  scan_patterns hour_mapping patterns img_context None.

Section WithHost.
Variable H : Host.

(** The body of [for img in images:]. *)
Definition classify_image (img : image) (found : images_by_hour) : M images_by_hour :=
  match effective_src img with
  | None => ret found
  | Some img_src =>
      if negb (Str.truthy img_src) then ret found
      else if denylisted img_src then ret found
      else
        img_url <- lift (image_url H img_src) ;;
        let img_context := alt_context img in
        parent <- lift (img_parent img) ;;
        let img_context := walk_up 3 parent img_context in
        let hour_found := find_hour img_context in
        match hour_found with
        | Some hour =>
            if int_truthy hour_found && (1 <=? hour)%Z && (hour <=? 12)%Z then
              match dict_get Z.eqb found hour with
              | Some urls =>
                  if existsb (String.eqb img_url) urls then ret found
                  else
                    print ("  Found image for hour " ++ Str.of_Z hour ++ ": "
                           ++ basename img_url) ;;;
                    ret (dict_set Z.eqb found hour (urls ++ [img_url])%list)
              | None => raise (KeyError (Str.of_Z hour))
              end
            else ret found
        | None => ret found
        end
  end.

(** [extract_amduat_images] *)
Definition extract_amduat_images (tomb_url : string) : M images_by_hour :=
  let found := empty_hours in
  print ("Analyzing tomb: " ++ tomb_url) ;;;
  response <- lift (session_get H tomb_url) ;;
  if negb (status_code response =? 200)%Z then
    print ("Failed to access " ++ tomb_url) ;;;
    ret found
  else
    for_each (collect_images (soup_of response)) classify_image found.

End WithHost.

End Amduat.

(** ** Sample pages and a sample host *)

Module Samples.

(** A stand-in for the URL resolution against the site: a reference that
    starts with one slash is appended to the origin, an absolute URL is kept.
    The samples use no other kind of reference. *)
Definition resolve (base url : string) : outcome string :=
  if String.prefix "/" url then Ok (base ++ url)
  else if Str.contains "://" url then Ok url
  else Ok (base ++ "/" ++ url).

Definition page_titled (title : string) (body : list node) : node :=
  Tag "[document]" []
    [Tag "html" []
       [Tag "head" [] [Tag "title" [] [NavigableString title]];
        Tag "body" [] body]].

Definition page : list node -> node := page_titled "KV 9 - Theban Mapping Project".

(** Scenario A of the specification. *)
Definition page_a : node :=
  page [Tag "div" []
          [Tag "img" [("src", "/sites/default/files/kv9/fig1.jpg");
                      ("alt", "Imydwat, fourth hour guardians")] []]].

(** Scenario B: a denylisted source with a matching alt text. *)
Definition page_b : node :=
  page [Tag "div" []
          [Tag "img" [("src", "/sites/default/files/compass-icon.png");
                      ("alt", "Amduat, third hour")] []]].

(** The image of scenario B on its own, and an image served through a
    variant path whose variant is named "icon". *)
Definition img_b : image :=
  ImgTag (mkElement (Tag "img" [("src", "/sites/default/files/compass-icon.png");
                                ("alt", "Amduat, third hour")] []) []).

Definition img_icon_variant : image :=
  ImgTag (mkElement (Tag "img" [("src", "/styles/icon/public/foo.jpg");
                                ("alt", "Amduat, third hour")] []) []).

(** A lazily loaded picture. *)
Definition page_lazy : node :=
  page [Tag "div" [("data-src", "/sites/default/files/kv9/fig2.jpg")]
          [NavigableString "Amduat, second hour"]].

Definition serve (pages : list (string * outcome Response)) (url : string) : outcome Response :=
  match dict_get String.eqb pages url with
  | Some r => r
  | None => Ok (mkResponse 404 (page []))
  end.

Definition host (pages : list (string * outcome Response)) : Host := {|
  urljoin := resolve;
  session_get := serve pages;
  session_get_stream := fun _ => Ok 200%Z;
  write_file := fun _ => Ok tt;
  makedirs := fun _ => Ok tt
|}.

Definition kv9 : string := "https://thebanmappingproject.com/tombs/kv-09-rameses-v-and-rameses-vi".

Definition kv17 : string := "https://thebanmappingproject.com/tombs/kv-17-sety-i".
Definition kv34 : string := "https://thebanmappingproject.com/tombs/kv-34-thutmes-iii".

Definition amduat_scraper : Theban.ThebanScraper := Theban.mkScraper "amduat" amduat_config.

(** Scenario C: two tombs show the same picture of the second hour under
    different captions. *)
Definition page_c1 : node :=
  page [Tag "div" []
          [Tag "img" [("src", "/sites/default/files/shared/hour2.jpg");
                      ("alt", "Amduat, second hour: the solar barque")] []]].

Definition page_c2 : node :=
  page_titled "KV 17 - Theban Mapping Project"
    [Tag "div" []
       [Tag "img" [("src", "/styles/large/public/shared/hour2.jpg");
                   ("alt", "Imydwat second hour, burial chamber")] []]].

Definition host_c : Host :=
  host [(kv9, Ok (mkResponse 200 page_c1)); (kv17, Ok (mkResponse 200 page_c2))].

Definition run_c : M Theban.bucket :=
  Theban.collect_all host_c amduat_scraper [kv9; kv17] (Theban.empty_bucket amduat_config).

Definition hour2_url : string :=
  "https://thebanmappingproject.com/sites/default/files/shared/hour2.jpg".

(** The bucket scenario C ends with. *)
Definition bucket_c : Theban.bucket :=
  [(1, []);
   (2, [(hour2_url, ("Amduat, second hour: the solar barque", "KV 9"))]);
   (3, []); (4, []); (5, []); (6, []); (7, []); (8, []); (9, []); (10, []);
   (11, []); (12, [])]%Z.

(** The listing of three tombs, the second of which cannot be reached. *)
Definition listing : node :=
  page_titled "Valley of the Kings"
    [Tag "ul" []
       [Tag "li" [] [Tag "a" [("href", "/tombs/kv-09-rameses-v-and-rameses-vi")]
                       [NavigableString "KV 9"]];
        Tag "li" [] [Tag "a" [("href", "/tombs/kv-17-sety-i")] [NavigableString "KV 17"]];
        Tag "li" [] [Tag "a" [("href", "/tombs/kv-34-thutmes-iii")]
                       [NavigableString "KV 34"]];
        Tag "li" [] [Tag "a" [("href", "/about")] [NavigableString "About"]]]].

Definition host_unreachable : Host :=
  host [(base_url ++ "/valley-kings", Ok (mkResponse 200 listing));
        (kv9, Ok (mkResponse 200 page_a));
        (kv17, Raise (RequestException "Connection refused"));
        (kv34, Ok (mkResponse 200 page_c1))].

(** The same listing with the second tomb answering 404. *)
Definition host_missing : Host :=
  host [(base_url ++ "/valley-kings", Ok (mkResponse 200 listing));
        (kv9, Ok (mkResponse 200 page_a));
        (kv17, Ok (mkResponse 404 (page [])));
        (kv34, Ok (mkResponse 200 page_c1))].

End Samples.

(** ** Further sample hosts *)

Module MoreSamples.
Import Samples.

(** A host on which the folder of the third hour cannot be created. *)
Definition host_readonly : Host := {|
  urljoin := resolve;
  session_get := serve [];
  session_get_stream := fun _ => Ok 200%Z;
  write_file := fun _ => Ok tt;
  makedirs := fun path =>
    if String.eqb path "amduat/terza_ora"
    then Raise (OSError "[Errno 13] Permission denied: 'amduat/terza_ora'")
    else Ok tt
|}.

(** A page that shows the same picture three times, once through a variant
    path, and a listing that links the same tomb twice. *)
Definition page_thrice : node :=
  page [Tag "div" []
          [Tag "img" [("src", "/sites/default/files/kv9/fig1.jpg");
                      ("alt", "Imydwat, fourth hour guardians")] [];
           Tag "img" [("src", "/styles/large/public/kv9/fig1.jpg");
                      ("alt", "Amduat, 4 hour")] [];
           Tag "img" [("src", "/sites/default/files/kv9/fig1.jpg");
                      ("alt", "Amduat, fourth hour")] []]].

Definition listing_twice : node :=
  page_titled "Valley of the Kings"
    [Tag "a" [("href", "/tombs/kv-17-sety-i")] [NavigableString "KV 17"];
     Tag "a" [("href", "https://thebanmappingproject.com/tombs/kv-17-sety-i")]
       [NavigableString "Sety I"];
     Tag "a" [("href", "/tombs/kv-09-rameses-v-and-rameses-vi")] [NavigableString "KV 9"];
     Tag "a" [("href", "/tombs/qv-66")] [NavigableString "QV 66"]].

Definition host_twice : Host :=
  host [(base_url ++ "/valley-kings", Ok (mkResponse 200 listing_twice));
        (kv9, Ok (mkResponse 200 page_thrice))].

(** A host that cannot reach the site at all. *)
Definition host_offline : Host := {|
  urljoin := resolve;
  session_get := fun _ => Raise (RequestException "Name or service not known");
  session_get_stream := fun _ => Raise (RequestException "Name or service not known");
  write_file := fun _ => Ok tt;
  makedirs := fun _ => Ok tt
|}.

End MoreSamples.

(** ** Notions used to state the properties *)

(** Two equal neighbours [c c] somewhere in [s]. *)
Fixpoint doubled (c : ascii) (s : string) : bool :=
  match s with
  | String a ((String b _) as s') => (Ascii.eqb a c && Ascii.eqb b c) || doubled c s'
  | _ => false
  end.

(** Every maximal run of characters of the class [f] replaced by one
    underscore; [in_run] tells that the previous character was in the class. *)
Fixpoint squeeze_from (f : ascii -> bool) (in_run : bool) (s : string) : string :=
  match s with
  | EmptyString => EmptyString
  | String c s' =>
      if f c then (if in_run then squeeze_from f true s' else String "_" (squeeze_from f true s'))
      else String c (squeeze_from f false s')
  end.

Definition squeeze (f : ascii -> bool) (s : string) : string := squeeze_from f false s.

(** The section number a list of captured groups resolves to: the mapping's
    value at the first group whose lower-cased text is one of its keys. *)
Definition resolve_groups (mapping : list (string * Z)) (groups : list string) : option Z :=
  match List.find (fun m => dict_mem String.eqb mapping (Str.lower m)) groups with
  | Some m => dict_get String.eqb mapping (Str.lower m)
  | None => None
  end.

(** What a pattern resolves to on a context string; [None] when none of its
    captured groups is a key of the mapping. *)
Definition resolves (mapping : list (string * Z)) (pattern : Re.regex) (img_context : string)
  : option Z :=
  resolve_groups mapping (Re.findall pattern img_context).

(** No word of the mapping stands for the number zero. *)
Definition nonzero_values (mapping : list (string * Z)) : bool :=
  forallb (fun kv => negb (snd kv =? 0)%Z) mapping.

(** Every value of the ordinal mapping is a key of the sections mapping. *)
Definition mapping_consistent (cfg : Config) : bool :=
  forallb (fun kv => dict_mem Z.eqb (sections cfg) (snd kv)) (section_mapping cfg).

(** The images a list of tomb pages yields for one section, page after page
    in the order of the list, each page's images in the order found. *)
Definition section_of (found : Theban.images_by_section) (sec : Z) : list Theban.entry :=
  match dict_get Z.eqb found sec with
  | Some entries => entries
  | None => []
  end.

Definition detections (H : Host) (self : Theban.ThebanScraper) (tomb_urls : list string)
    (sec : Z) : list Theban.entry :=
  flat_map (fun tomb_url =>
              match fst (Theban.extract_funerary_text_images H self tomb_url) with
              | Ok found => section_of found sec
              | Raise _ => []
              end)
           tomb_urls.

(** The number of entries a bucket section holds for a URL. *)
Definition entries_for (url : string) (seen : list (string * (string * string))) : nat :=
  List.length (filter (fun kv => String.eqb (fst kv) url) seen).

(** A pattern that matches exactly one character, those of the class [f]. *)
Definition one_char (r : Re.regex) (f : ascii -> bool) : Prop :=
  forall (X : Type) (s : string) (cap : option string)
         (k : string -> option string -> option X),
    Re.rmatch false r s cap k =
    match s with
    | String c s' => if f c then k s' cap else None
    | EmptyString => None
    end.

(** The next character, if any, is outside the class. *)
Definition stops (f : ascii -> bool) (tail : string) : Prop :=
  match tail with
  | EmptyString => True
  | String d _ => f d = false
  end.

(** A character a sanitized name may hold. *)
Definition safe (c : ascii) : bool :=
  negb (Patterns.unsafe_char c) && negb (Str.is_space c).

(** The text before the final test for emptiness. *)
Definition sanitized_body (text : string) (max_length : Z) : string :=
  let text := Re.sub Patterns.unsafe "_" text in
  let text := Re.sub Patterns.spaces "_" text in
  let text := Re.sub Patterns.underscores "_" text in
  let text := Str.strip_chars "_" text in
  if (Z.of_nat (String.length text) >? max_length)%Z
  then Str.slice_to max_length text else text.

(** The number of images a bucket holds, all sections together. *)
Definition bucket_size (all_images : Theban.bucket) : nat :=
  List.length (concat (map snd all_images)).

(** What holds of every section of a page's result: distinct URLs, one tomb
    name. *)
Definition well_formed (tomb_name : string) (kv : Z * list Theban.entry) : Prop :=
  NoDup (map Theban.entry_url (snd kv)) /\
  forall e, In e (snd kv) -> snd e = tomb_name.

(** The links [get_tombs_list] follows: the [a] tags whose [href] matches the
    pattern of the tomb pages. *)
Definition tomb_link (n : node) : bool :=
  has_name "a" n &&
  match tag_get n "href" with
  | Some href => Re.matches Patterns.tomb_href href
  | None => false
  end.

(** What a match of a pattern is, apart from the search order: [mrun r m c c']
    says that [r] matches exactly the text [m], turning the capture [c] into
    [c'].  A group records the text it matched. *)
Inductive mrun : Re.regex -> string -> option string -> option string -> Prop :=
| mrun_eps c : mrun Re.Eps EmptyString c c
| mrun_lit a c : mrun (Re.Lit a) (String a EmptyString) c c
| mrun_cls f a c : f a = true -> mrun (Re.Cls f) (String a EmptyString) c c
| mrun_cat r1 r2 m1 m2 c0 c1 c2 :
    mrun r1 m1 c0 c1 -> mrun r2 m2 c1 c2 -> mrun (Re.Cat r1 r2) (m1 ++ m2) c0 c2
| mrun_alt_l r1 r2 m c0 c1 : mrun r1 m c0 c1 -> mrun (Re.Alt r1 r2) m c0 c1
| mrun_alt_r r1 r2 m c0 c1 : mrun r2 m c0 c1 -> mrun (Re.Alt r1 r2) m c0 c1
| mrun_star_nil r c : mrun (Re.Star r) EmptyString c c
| mrun_star_cons r m1 m2 c0 c1 c2 :
    mrun r m1 c0 c1 -> mrun (Re.Star r) m2 c1 c2 -> mrun (Re.Star r) (m1 ++ m2) c0 c2
| mrun_grp r m c0 c1 : mrun r m c0 c1 -> mrun (Re.Grp r) m c0 (Some m).



(** The result of [ThebanScraper] seen as a result of [AmduatScraper]:
    captions and tomb names dropped. *)
Definition urls_only (found : Theban.images_by_section) : Amduat.images_by_hour :=
  map (fun kv => (fst kv, map Theban.entry_url (snd kv))) found.

Definition outcome_map {A B} (f : A -> B) (o : outcome A) : outcome B :=
  match o with
  | Ok a => Ok (f a)
  | Raise e => Raise e
  end.

(** What a successful call of the matcher went through. *)
Definition sound {X : Type} (r : Re.regex) : Prop :=
  forall (s : string) (cap : option string) (k : string -> option string -> option X)
         (x : X),
    Re.rmatch false r s cap k = Some x ->
    exists m s' cap', s = m ++ s' /\ mrun r m cap cap' /\ k s' cap' = Some x.

(** A character other than the slash. *)
Definition no_slash (c : ascii) : bool := negb (Ascii.eqb "/" c).






(** * Properties *)

(** ** The monad *)

Module MonadFacts.

Lemma bind_ret_l {A B} (a : A) (f : A -> M B) : bind (ret a) f = f a.
Proof. unfold bind, ret. now destruct (f a). Qed.

Lemma bind_ext {A B} (m : M A) (f g : A -> M B) :
  (forall a, f a = g a) -> bind m f = bind m g.
Proof. intros Hfg. destruct m as [[a|e] out]; simpl; [now rewrite Hfg | reflexivity]. Qed.

Lemma bind_raise {A B} (e : exn) (out : list string) (f : A -> M B) :
  bind (Raise e, out) f = (Raise e, out).
Proof. reflexivity. Qed.

(** A loop that ended well went through every step well. *)
Lemma bind_ok {A B} (m : M A) (f : A -> M B) (b : B) (out : list string) :
  bind m f = (Ok b, out) ->
  exists a out1 out2, m = (Ok a, out1) /\ f a = (Ok b, out2) /\ out = (out1 ++ out2)%list.
Proof.
  destruct m as [[a|e] out1]; simpl; [|discriminate].
  destruct (f a) as [r out2] eqn:Hf. intros E. injection E as Er Eo. subst r out.
  exists a, out1, out2. auto.
Qed.

Lemma for_each_skip {A S} (body : A -> S -> M S) (before after : list A) (x : A) :
  (forall st, body x st = ret st) ->
  forall st, for_each (before ++ x :: after)%list body st
             = for_each (before ++ after)%list body st.
Proof.
  intros Hx. induction before as [|y before IH]; intros st; simpl.
  - now rewrite Hx, bind_ret_l.
  - apply bind_ext. intros st'. apply IH.
Qed.

End MonadFacts.

(** ** Strings *)

Module StrFacts.
Import Str.

Lemma existsb_false_forallb (f : ascii -> bool) (s : string) :
  existsb f s = false <-> forallb (fun c => negb (f c)) s = true.
Proof.
  induction s as [|c s IH]; simpl.
  - tauto.
  - rewrite orb_false_iff, andb_true_iff, negb_true_iff, IH. tauto.
Qed.

Lemma forallb_impl (f g : ascii -> bool) (s : string) :
  (forall c, f c = true -> g c = true) -> forallb f s = true -> forallb g s = true.
Proof.
  intros Hfg. induction s as [|c s IH]; simpl; auto.
  rewrite !andb_true_iff. intros [Hc Hs]. auto.
Qed.

Lemma forallb_lstrip (p f : ascii -> bool) (s : string) :
  forallb p s = true -> forallb p (lstrip_by f s) = true.
Proof.
  induction s as [|c s IH]; simpl; auto.
  intros Hs. destruct (f c); auto.
  apply andb_true_iff in Hs. tauto.
Qed.

Lemma forallb_rstrip (p f : ascii -> bool) (s : string) :
  forallb p s = true -> forallb p (rstrip_by f s) = true.
Proof.
  induction s as [|c s IH]; simpl; auto.
  rewrite andb_true_iff. intros [Hc Hs]. specialize (IH Hs).
  destruct (rstrip_by f s) as [|d t].
  - destruct (f c); simpl; auto. now rewrite Hc.
  - simpl in *. now rewrite Hc, IH.
Qed.

Lemma forallb_take (p : ascii -> bool) (n : nat) (s : string) :
  forallb p s = true -> forallb p (take n s) = true.
Proof.
  revert s. induction n as [|n IH]; intros [|c s]; simpl; auto.
  rewrite !andb_true_iff. intros [Hc Hs]. auto.
Qed.

Lemma length_take (n : nat) (s : string) : (String.length (take n s) <= n)%nat.
Proof.
  revert s. induction n as [|n IH]; intros [|c s]; simpl; auto with arith.
Qed.


Lemma length_lstrip (f : ascii -> bool) (s : string) :
  (String.length (lstrip_by f s) <= String.length s)%nat.
Proof.
  induction s as [|c s IH]; simpl; auto.
  destruct (f c); simpl; lia.
Qed.

Lemma drop_lstrip (f : ascii -> bool) (s : string) :
  drop (String.length s - String.length (lstrip_by f s)) s = lstrip_by f s.
Proof.
  induction s as [|c s IH]; [reflexivity|].
  cbn [lstrip_by]. destruct (f c) eqn:Hc.
  - pose proof (length_lstrip f s). cbn [String.length].
    replace (S (String.length s) - String.length (lstrip_by f s))%nat
      with (S (String.length s - String.length (lstrip_by f s))) by lia.
    cbn [drop]. exact IH.
  - now rewrite Nat.sub_diag.
Qed.


Lemma doubled_lstrip (c : ascii) (f : ascii -> bool) (s : string) :
  doubled c s = false -> doubled c (lstrip_by f s) = false.
Proof.
  induction s as [|a s IH]; auto.
  intros Hs. simpl lstrip_by. destruct (f a); auto.
  apply IH. destruct s as [|b s]; auto.
  simpl in Hs. apply orb_false_iff in Hs. tauto.
Qed.

Lemma doubled_cons (c a : ascii) (s t : string) :
  doubled c (String a s) = false ->
  (forall b u, t = String b u -> exists v, s = String b v) ->
  doubled c t = false ->
  doubled c (String a t) = false.
Proof.
  intros Hs Hhead Ht. destruct t as [|b u]; auto.
  destruct (Hhead b u eq_refl) as [v ->].
  simpl in Hs. apply orb_false_iff in Hs. destruct Hs as [Hab _].
  change (Ascii.eqb a c && Ascii.eqb b c || doubled c (String b u) = false).
  now rewrite Hab, Ht.
Qed.

Lemma doubled_tail (c a : ascii) (s : string) :
  doubled c (String a s) = false -> doubled c s = false.
Proof.
  destruct s as [|b s]; auto. simpl. intros H. apply orb_false_iff in H. tauto.
Qed.

Lemma rstrip_head (f : ascii -> bool) (s : string) (b : ascii) (u : string) :
  rstrip_by f s = String b u -> exists v, s = String b v.
Proof.
  destruct s as [|a s]; simpl; [discriminate|].
  destruct (rstrip_by f s).
  - destruct (f a); [discriminate|]. intros E. injection E as -> _. eauto.
  - intros E. injection E as -> _. eauto.
Qed.

Lemma doubled_rstrip (c : ascii) (f : ascii -> bool) (s : string) :
  doubled c s = false -> doubled c (rstrip_by f s) = false.
Proof.
  induction s as [|a s IH]; auto.
  intros Hs. pose proof (doubled_tail _ _ _ Hs) as Ht. specialize (IH Ht).
  simpl rstrip_by. destruct (rstrip_by f s) as [|b u] eqn:E.
  - destruct (f a); reflexivity.
  - apply (doubled_cons c a s); auto.
    intros b' u' Eq. injection Eq as <- <-. eapply rstrip_head; eauto.
Qed.

Lemma take_head (n : nat) (s : string) (b : ascii) (u : string) :
  take n s = String b u -> exists v, s = String b v.
Proof.
  destruct n, s; simpl; try discriminate. intros E. injection E as -> _. eauto.
Qed.

Lemma doubled_take (c : ascii) (n : nat) (s : string) :
  doubled c s = false -> doubled c (take n s) = false.
Proof.
  revert s. induction n as [|n IH]; intros [|a s] Hs; auto.
  simpl take. apply (doubled_cons c a s); auto.
  - intros b u. apply take_head.
  - apply IH. eapply doubled_tail; eauto.
Qed.

End StrFacts.

(** ** Regular expressions: the patterns of [sanitize_filename] *)

Module ReFacts.
Import Str StrFacts Re.

Lemma sub_go_skip (ic : bool) (r : regex) (repl : string) (n : nat) (s : string) :
  (n <= String.length s)%nat ->
  sub_go ic r repl s n = sub_go ic r repl (drop n s) 0.
Proof.
  revert s. induction n as [|n IH]; intros s Hn.
  - destruct s; reflexivity.
  - destruct s as [|c s]; [simpl in Hn; lia|]. cbn [sub_go drop]. apply IH.
    simpl in Hn. lia.
Qed.

Lemma squeeze_from_true (f : ascii -> bool) (s : string) :
  squeeze_from f true s = squeeze_from f false (lstrip_by f s).
Proof.
  induction s as [|c s IH]; [reflexivity|].
  cbn [squeeze_from lstrip_by]. destruct (f c) eqn:Hc; [exact IH|].
  cbn [squeeze_from]. now rewrite Hc.
Qed.

Lemma one_char_cls (f : ascii -> bool) : one_char (Cls f) f.
Proof. intros X [|c s] cap k; reflexivity. Qed.

Lemma one_char_lit (c : ascii) : one_char (Lit c) (Ascii.eqb c).
Proof. intros X [|d s] cap k; reflexivity. Qed.

Section OneChar.
Variables (r : regex) (f : ascii -> bool).
Hypothesis Hr : one_char r f.

Lemma match_at_one : forall s,
  match_at false r s =
  match s with
  | String c s' => if f c then Some (s', None) else None
  | EmptyString => None
  end.
Proof. intros s. unfold match_at. now rewrite Hr. Qed.

(** With a continuation that accepts everything, the loop of [r*] takes the
    longest run. *)
Lemma star_one : forall n s cap,
  (String.length s <= n)%nat ->
  star_loop (fun s0 c0 k0 => rmatch false r s0 c0 k0)
            (fun rest c => Some (rest, c)) n s cap
  = Some (lstrip_by f s, cap).
Proof.
  induction n as [|n IH]; intros s cap Hlen.
  - destruct s; [reflexivity | simpl in Hlen; lia].
  - cbn [star_loop]. rewrite Hr. destruct s as [|c s]; [reflexivity|].
    cbn [lstrip_by]. destruct (f c); [|reflexivity].
    assert (Hlt : (String.length s <? String.length (String c s))%nat = true)
      by (apply Nat.ltb_lt; simpl; lia).
    rewrite Hlt, IH by (simpl in Hlen; lia). reflexivity.
Qed.

Lemma match_at_plus : forall s,
  match_at false (Plus r) s =
  match s with
  | String c s' => if f c then Some (lstrip_by f s', None) else None
  | EmptyString => None
  end.
Proof.
  intros s. unfold match_at, Plus. cbn [rmatch]. rewrite Hr.
  destruct s as [|c s]; [reflexivity|]. destruct (f c); [|reflexivity].
  apply star_one. lia.
Qed.

Lemma sub_one : forall s,
  sub r "_" s = Str.map (fun c => if f c then "_"%char else c) s.
Proof.
  unfold sub. induction s as [|c s IH].
  - cbn [sub_go]. now rewrite match_at_one.
  - cbn [sub_go Str.map]. rewrite match_at_one, <- IH. destruct (f c); [|reflexivity].
    cbn [String.length].
    replace (S (String.length s) - String.length s)%nat with 1%nat by lia.
    reflexivity.
Qed.

Lemma sub_plus : forall s, sub (Plus r) "_" s = squeeze f s.
Proof.
  intros s. unfold sub, squeeze.
  remember (String.length s) as n eqn:Hn.
  assert (Hle : (String.length s <= n)%nat) by lia. clear Hn.
  revert s Hle. induction n as [|n IH]; intros s Hle.
  - destruct s; [|simpl in Hle; lia]. cbn [sub_go]. now rewrite match_at_plus.
  - destruct s as [|c s]; [cbn [sub_go]; now rewrite match_at_plus|]. simpl in Hle.
    cbn [sub_go]. rewrite match_at_plus. cbn [squeeze_from]. destruct (f c).
    + pose proof (length_lstrip f s). cbn [String.length].
      replace (S (String.length s) - String.length (lstrip_by f s))%nat
        with (S (String.length s - String.length (lstrip_by f s))) by lia.
      rewrite sub_go_skip by lia. rewrite drop_lstrip, IH by lia.
      now rewrite squeeze_from_true.
    + now rewrite IH by lia.
Qed.
End OneChar.

Lemma forallb_map (p : ascii -> bool) (g : ascii -> ascii) (s : string) :
  (forall c, p (g c) = true) -> forallb p (Str.map g s) = true.
Proof.
  intros Hg. induction s as [|c s IH]; simpl; auto. now rewrite Hg, IH.
Qed.


(** What squeezing keeps: a property of every character of the input that
    also holds of the underscore. *)
Lemma forallb_squeeze (p f : ascii -> bool) (b : bool) (s : string) :
  p "_"%char = true -> forallb p s = true -> forallb p (squeeze_from f b s) = true.
Proof.
  intros Hu. revert b. induction s as [|c s IH]; intros b; simpl; auto.
  rewrite andb_true_iff. intros [Hc Hs].
  destruct (f c); [destruct b|]; simpl; rewrite ?Hu, ?Hc; simpl; auto.
Qed.

(** What squeezing removes: the class itself, when the underscore is not in it. *)
Lemma squeeze_removes (f : ascii -> bool) (b : bool) (s : string) :
  f "_"%char = false -> forallb (fun c => negb (f c)) (squeeze_from f b s) = true.
Proof.
  intros Hu. revert b. induction s as [|c s IH]; intros b; simpl; auto.
  destruct (f c) eqn:Hc; [destruct b|]; simpl; rewrite ?Hu, ?Hc; simpl; auto.
Qed.


Lemma prefix_char (c d : ascii) (t : string) :
  String.prefix (String c EmptyString) (String d t) = Ascii.eqb c d.
Proof.
  cbn [String.prefix]. destruct (ascii_dec c d) as [->|Hne].
  - rewrite Ascii.eqb_refl. now destruct t.
  - symmetry. now apply Ascii.eqb_neq.
Qed.

Lemma squeeze_underscores (b : bool) (s : string) :
  doubled "_" (squeeze_from (Ascii.eqb "_") b s) = false /\
  (b = true -> String.prefix "_" (squeeze_from (Ascii.eqb "_") b s) = false).
Proof.
  revert b. induction s as [|c s IH]; intros b; [now split|].
  cbn [squeeze_from]. destruct (Ascii.eqb "_" c) eqn:Hc.
  - destruct (IH true) as [Hd Hp]. destruct b; [now split|].
    split; [|discriminate].
    destruct (squeeze_from (Ascii.eqb "_") true s) as [|d t] eqn:E; [reflexivity|].
    specialize (Hp eq_refl). rewrite prefix_char in Hp.
    change (Ascii.eqb "_" "_" && Ascii.eqb d "_" || doubled "_" (String d t) = false).
    now rewrite Hd, (Ascii.eqb_sym d), Hp.
  - destruct (IH false) as [Hd _]. split.
    + destruct (squeeze_from (Ascii.eqb "_") false s) as [|d t] eqn:E; [reflexivity|].
      change (Ascii.eqb c "_" && Ascii.eqb d "_" || doubled "_" (String d t) = false).
      now rewrite Hd, (Ascii.eqb_sym c), Hc.
    + intros _. now rewrite prefix_char.
Qed.

(** *** Matching a literal word and a run of a class *)

Lemma rmatch_word (X : Type) (w s : string) (cap : option string)
    (k : string -> option string -> option X) :
  rmatch false (Word w) (w ++ s) cap k = k s cap.
Proof.
  revert s cap k. induction w as [|c w IH]; intros s cap k; [reflexivity|].
  destruct w as [|d w].
  - cbn. now rewrite Ascii.eqb_refl.
  - change (Word (String c (String d w))) with (Cat (Lit c) (Word (String d w))).
    cbn [rmatch append lit_eq]. rewrite Ascii.eqb_refl. apply IH.
Qed.

Section Runs.
Variables (r : regex) (f : ascii -> bool).
Hypothesis Hr : one_char r f.
Variable X : Type.
Variable k : string -> option string -> option X.

(** The loop of [r*] on a run of the class followed by [tail], when the
    rest of the pattern accepts [tail]: the whole run is taken. *)
Lemma star_run : forall run tail cap n x,
  forallb f run = true -> stops f tail -> k tail cap = Some x ->
  (String.length (run ++ tail) <= n)%nat ->
  star_loop (fun s0 c0 k0 => rmatch false r s0 c0 k0) k n (run ++ tail) cap = Some x.
Proof.
  induction run as [|c run IH]; intros tail cap n x Hrun Hstop Hk Hn.
  - cbn [append]. destruct n as [|n]; [exact Hk|].
    cbn [star_loop]. rewrite Hr. destruct tail as [|d t]; [exact Hk|].
    simpl in Hstop. now rewrite Hstop.
  - simpl in Hrun. apply andb_true_iff in Hrun. destruct Hrun as [Hc Hrun].
    destruct n as [|n]; [simpl in Hn; lia|].
    cbn [star_loop append]. rewrite Hr, Hc.
    assert (Hlt : (String.length (run ++ tail) <? String.length (String c (run ++ tail)))%nat
                  = true) by (apply Nat.ltb_lt; simpl; lia).
    rewrite Hlt. rewrite (IH tail cap n x); auto. simpl in Hn. lia.
Qed.

Lemma plus_run : forall run tail cap x,
  run <> EmptyString ->
  forallb f run = true -> stops f tail -> k tail cap = Some x ->
  rmatch false (Plus r) (run ++ tail) cap k = Some x.
Proof.
  intros [|c run] tail cap x Hne Hrun Hstop Hk; [congruence|].
  simpl in Hrun. apply andb_true_iff in Hrun. destruct Hrun as [Hc Hrun].
  unfold Plus. cbn [rmatch append]. rewrite Hr, Hc.
  apply star_run; auto.
Qed.
End Runs.

Lemma append_empty (s : string) : s ++ EmptyString = s.
Proof. induction s as [|c s IH]; simpl; congruence. Qed.

Lemma take_all (s : string) : take (String.length s) s = s.
Proof. induction s as [|c s IH]; simpl; congruence. Qed.

Lemma prefix_app (w s : string) : String.prefix w (w ++ s) = true.
Proof.
  induction w as [|c w IH]; [now destruct s|].
  cbn [append String.prefix]. destruct (ascii_dec c c); [exact IH | congruence].
Qed.

Lemma contains_prefix (w s : string) : contains w (w ++ s) = true.
Proof.
  destruct (w ++ s) eqn:E; unfold contains; fold contains; rewrite <- E, prefix_app;
    reflexivity.
Qed.

Lemma contains_char (c : ascii) (s : string) :
  contains (String c EmptyString) s = existsb (Ascii.eqb c) s.
Proof.
  induction s as [|d s IH]; [reflexivity|].
  change (contains (String c EmptyString) (String d s))
    with (String.prefix (String c EmptyString) (String d s)
          || contains (String c EmptyString) s).
  now rewrite prefix_char, IH.
Qed.

Lemma run_without (c : ascii) (s : string) :
  contains (String c EmptyString) s = false ->
  forallb (fun d => negb (Ascii.eqb d c)) s = true.
Proof.
  rewrite contains_char. induction s as [|d s IH]; simpl; [reflexivity|].
  rewrite orb_false_iff. intros [Hd Hs]. now rewrite (Ascii.eqb_sym d), Hd, IH.
Qed.

(** The pattern of the variant paths on a source that starts with a variant
    segment: the group takes everything after [/public/]. *)
Lemma styles_variant_match (variant rest : string) :
  variant <> EmptyString -> contains "/" variant = false ->
  rest <> EmptyString -> contains NL rest = false ->
  match_at false Patterns.styles_variant ("/styles/" ++ variant ++ "/public/" ++ rest)
  = Some (EmptyString, Some rest).
Proof.
  intros Hv Hslash Hr Hnl.
  unfold match_at, Patterns.styles_variant. cbn [Seq].
  cbn [rmatch]. rewrite rmatch_word.
  apply (plus_run _ _ (one_char_cls _)); auto.
  - apply run_without in Hslash. revert Hslash. apply forallb_impl.
    intros c Hc. simpl. now rewrite orb_false_r.
  - reflexivity.
  - rewrite rmatch_word.
    rewrite <- (append_empty rest) at 1.
    apply (plus_run _ _ (one_char_cls _)); auto.
    + now apply run_without.
    + exact I.
    + cbn [String.length]. now rewrite Nat.sub_0_r, take_all.
Qed.

End ReFacts.

(** ** [sanitize_filename] *)

Module SanitizeFacts.
Import Str StrFacts Re ReFacts Theban.

Lemma sanitize_unfold (text : string) (max_length : Z) :
  sanitize_filename text max_length =
  (if truthy (sanitized_body text max_length)
   then sanitized_body text max_length else "unnamed").
Proof. reflexivity. Qed.

Lemma sub_unsafe (s : string) :
  Re.sub Patterns.unsafe "_" s =
  Str.map (fun c => if Patterns.unsafe_char c then "_"%char else c) s.
Proof. apply (sub_one _ _ (one_char_cls Patterns.unsafe_char)). Qed.

Lemma sub_spaces (s : string) : Re.sub Patterns.spaces "_" s = squeeze is_space s.
Proof. apply (sub_plus _ _ (one_char_cls is_space)). Qed.

Lemma sub_underscores (s : string) :
  Re.sub Patterns.underscores "_" s = squeeze (Ascii.eqb "_") s.
Proof. apply (sub_plus _ _ (one_char_lit "_")). Qed.

Lemma body_bounded (p : ascii -> bool) (t : string) :
  forallb p t = true -> doubled "_" t = false ->
  let body :=
    if (Z.of_nat (String.length (strip_chars "_" t)) >? default_max_length)%Z
    then slice_to default_max_length (strip_chars "_" t) else strip_chars "_" t in
  forallb p body = true /\ doubled "_" body = false /\ (String.length body <= 100)%nat.
Proof.
  intros Hp Hd body.
  assert (Hp' : forallb p (strip_chars "_" t) = true)
    by (apply forallb_rstrip, forallb_lstrip, Hp).
  assert (Hd' : doubled "_" (strip_chars "_" t) = false)
    by (apply doubled_rstrip, doubled_lstrip, Hd).
  subst body. unfold default_max_length.
  destruct (Z.of_nat (String.length (strip_chars "_" t)) >? 100)%Z eqn:Hlen.
  - change (slice_to 100 (strip_chars "_" t)) with (take 100 (strip_chars "_" t)).
    repeat split.
    + now apply forallb_take.
    + now apply doubled_take.
    + apply length_take.
  - repeat split; auto. rewrite Z.gtb_ltb in Hlen. apply Z.ltb_ge in Hlen. lia.
Qed.

Lemma body_safe (text : string) :
  forallb safe (sanitized_body text default_max_length) = true /\
  doubled "_" (sanitized_body text default_max_length) = false /\
  (String.length (sanitized_body text default_max_length) <= 100)%nat.
Proof.
  unfold sanitized_body. rewrite sub_unsafe, sub_spaces, sub_underscores.
  apply (body_bounded safe).
  - apply forallb_squeeze; [reflexivity|]. unfold safe.
    set (t1 := Str.map _ text).
    assert (H1 : forallb (fun c => negb (Patterns.unsafe_char c)) (squeeze is_space t1) = true).
    { apply forallb_squeeze; [reflexivity|]. apply forallb_map.
      intros c. destruct (Patterns.unsafe_char c) eqn:Hc; [reflexivity | now rewrite Hc]. }
    assert (H2 : forallb (fun c => negb (is_space c)) (squeeze is_space t1) = true)
      by (apply squeeze_removes; reflexivity).
    clear -H1 H2. induction (squeeze is_space t1) as [|c s IH]; simpl in *; auto.
    apply andb_true_iff in H1, H2. destruct H1 as [-> H1], H2 as [-> H2]. auto.
  - apply squeeze_underscores.
Qed.


End SanitizeFacts.



(** ** Source strings: the denylist and the variant paths *)

Module SourceFacts.
Import Str StrFacts Re ReFacts.

Lemma search_from_hit (ic : bool) (r : regex) (s : string) (m : string * option string) :
  match_at ic r s = Some m -> search_from ic r s = Some m.
Proof. intros Hm. destruct s; simpl; now rewrite Hm. Qed.

Lemma normalize_variant (variant rest : string) :
  variant <> EmptyString -> contains "/" variant = false ->
  rest <> EmptyString -> contains NL rest = false ->
  normalize_src ("/styles/" ++ variant ++ "/public/" ++ rest)
  = "/sites/default/files/" ++ rest.
Proof.
  intros Hv Hslash Hr Hnl. unfold normalize_src.
  rewrite contains_prefix. unfold search.
  now rewrite (search_from_hit _ _ _ _ (styles_variant_match variant rest Hv Hslash Hr Hnl)).
Qed.

Lemma normalize_plain (img_src : string) :
  contains "/styles/" img_src = false -> normalize_src img_src = img_src.
Proof. intros Hc. unfold normalize_src. now rewrite Hc. Qed.

Lemma denylisted_iff (img_src : string) :
  denylisted img_src = true <->
  exists skip, In skip denylist /\ contains skip (lower img_src) = true.
Proof. unfold denylisted. apply existsb_exists. Qed.

Lemma prefix_weaken (w s t : string) :
  String.prefix w s = true -> String.prefix w (s ++ t) = true.
Proof.
  revert w. induction s as [|c s IH]; intros [|a w]; simpl; try discriminate.
  - now destruct t.
  - reflexivity.
  - destruct (ascii_dec a c); [apply IH | discriminate].
Qed.

Lemma contains_app_r (w s t : string) :
  contains w s = true -> contains w (s ++ t) = true.
Proof.
  induction s as [|c s IH].
  - destruct w; [|discriminate]. intros _. now destruct t.
  - cbn [contains append]. rewrite !orb_true_iff. intros [Hp|Hc].
    + left. now apply (prefix_weaken w (String c s) t).
    + right. now apply IH.
Qed.

Lemma contains_app_l (w s t : string) :
  contains w t = true -> contains w (s ++ t) = true.
Proof.
  intros Ht. induction s as [|c s IH]; [exact Ht|].
  cbn [append contains]. now rewrite IH, orb_true_r.
Qed.

Lemma lower_app (s t : string) : lower (s ++ t) = lower s ++ lower t.
Proof. unfold lower. induction s as [|c s IH]; simpl; congruence. Qed.

Lemma denylisted_inside (before s after : string) :
  denylisted s = true -> denylisted (before ++ s ++ after) = true.
Proof.
  rewrite !denylisted_iff. intros (skip & Hin & Hc). exists skip. split; [exact Hin|].
  rewrite !lower_app. now apply contains_app_l, contains_app_r.
Qed.

Lemma theban_rejects (H : Host) (cfg : Config) (tomb_name : string) (img : image)
    (img_src : string) (found : Theban.images_by_section) :
  effective_src img = Some img_src -> denylisted img_src = true ->
  Theban.classify_image H cfg tomb_name img found = ret found.
Proof.
  intros Hsrc Hdeny. unfold Theban.classify_image. rewrite Hsrc, Hdeny.
  now destruct (truthy img_src).
Qed.

Lemma amduat_rejects (H : Host) (img : image) (img_src : string)
    (found : Amduat.images_by_hour) :
  effective_src img = Some img_src -> denylisted img_src = true ->
  Amduat.classify_image H img found = ret found.
Proof.
  intros Hsrc Hdeny. unfold Amduat.classify_image. rewrite Hsrc, Hdeny.
  now destruct (truthy img_src).
Qed.

End SourceFacts.

(** C7.  A source [/styles/<variant>/public/<rest>], with [<variant>] a
    non-empty segment without slash and [<rest>] a non-empty path without line
    break, is rewritten to [/sites/default/files/<rest>] before it is resolved
    against the base URL; it therefore resolves exactly as the canonical path
    does, whenever the canonical path is itself left alone by the rewriting,
    as [/sites/default/files/foo/bar.jpg] is. *)
Theorem variant_path_normalized (H : Host) (variant rest : string) :
  variant <> "" -> Str.contains "/" variant = false ->
  rest <> "" -> Str.contains NL rest = false ->
  normalize_src ("/styles/" ++ variant ++ "/public/" ++ rest)
    = "/sites/default/files/" ++ rest /\
  image_url H ("/styles/" ++ variant ++ "/public/" ++ rest)
    = urljoin H base_url ("/sites/default/files/" ++ rest) /\
  (Str.contains "/styles/" ("/sites/default/files/" ++ rest) = false ->
   image_url H ("/styles/" ++ variant ++ "/public/" ++ rest)
     = image_url H ("/sites/default/files/" ++ rest)).
Proof.
  intros Hv Hslash Hr Hnl.
  pose proof (SourceFacts.normalize_variant variant rest Hv Hslash Hr Hnl) as Hn.
  split; [exact Hn|]. unfold image_url. rewrite Hn. split; [reflexivity|].
  intros Hplain. now rewrite (SourceFacts.normalize_plain _ Hplain).
Qed.

Lemma variant_path_normalized_witness :
  image_url (Samples.host []) "/styles/thumb/public/foo/bar.jpg"
    = image_url (Samples.host []) "/sites/default/files/foo/bar.jpg" /\
  image_url (Samples.host []) "/styles/thumb/public/foo/bar.jpg"
    = Ok "https://thebanmappingproject.com/sites/default/files/foo/bar.jpg".
Proof.
  split; [|reflexivity].
  apply (variant_path_normalized (Samples.host []) "thumb" "foo/bar.jpg");
    (discriminate || reflexivity).
Defined.

(** C3.  An image whose source string contains, in any case, one of "logo",
    "icon", "compass", "hieroglyph" is never assigned to a section: both
    classifiers pass over it without touching the sections found so far and
    without output, whatever its alt text and surroundings say, and a page
    classifies exactly as it does with that image left out. *)
Theorem denylisted_never_classified (H : Host) (cfg : Config) (tomb_name : string)
    (img : image) (img_src : string) :
  effective_src img = Some img_src ->
  (exists skip, In skip ["logo"; "icon"; "compass"; "hieroglyph"]
                /\ Str.contains skip (Str.lower img_src) = true) ->
  (forall found, Theban.classify_image H cfg tomb_name img found = ret found) /\
  (forall found, Amduat.classify_image H img found = ret found) /\
  (forall before after found,
     for_each (before ++ img :: after)%list (Theban.classify_image H cfg tomb_name) found
     = for_each (before ++ after)%list (Theban.classify_image H cfg tomb_name) found) /\
  (forall before after found,
     for_each (before ++ img :: after)%list (Amduat.classify_image H) found
     = for_each (before ++ after)%list (Amduat.classify_image H) found).
Proof.
  intros Hsrc Hdeny. apply SourceFacts.denylisted_iff in Hdeny.
  assert (Ht : forall found, Theban.classify_image H cfg tomb_name img found = ret found)
    by (intros found; eapply SourceFacts.theban_rejects; eauto).
  assert (Ha : forall found, Amduat.classify_image H img found = ret found)
    by (intros found; eapply SourceFacts.amduat_rejects; eauto).
  repeat split; auto; intros before after found; now apply MonadFacts.for_each_skip.
Qed.

(** Scenario B of the specification, run through both classifiers. *)
Lemma denylisted_never_classified_witness :
  Theban.extract_funerary_text_images
    (Samples.host [(Samples.kv9, Ok (mkResponse 200 Samples.page_b))])
    Samples.amduat_scraper Samples.kv9
  = (Ok (Theban.empty_sections amduat_config), ["Analyzing tomb: " ++ Samples.kv9]) /\
  forall found, Amduat.classify_image (Samples.host []) Samples.img_b found = ret found.
Proof.
  split; [reflexivity|].
  apply (denylisted_never_classified (Samples.host []) amduat_config "KV 9"
           Samples.img_b "/sites/default/files/compass-icon.png" eq_refl).
  exists "icon". split; [simpl; tauto | reflexivity].
Defined.

(** C10.  The denylist reads the raw source.  An image whose source is
    [/styles/<variant>/public/<rest>] with a denylisted word in [<variant>] is
    passed over, although the URL it would resolve to after normalization,
    that of [/sites/default/files/<rest>], holds no denylisted word; and it is
    passed over under every host, so neither the normalized source nor its
    resolution plays a part. *)
Theorem denylist_reads_raw_source (H : Host) (cfg : Config) (tomb_name : string)
    (img : image) (variant rest url : string) :
  variant <> "" -> Str.contains "/" variant = false ->
  rest <> "" -> Str.contains NL rest = false ->
  effective_src img = Some ("/styles/" ++ variant ++ "/public/" ++ rest) ->
  denylisted variant = true ->
  urljoin H base_url ("/sites/default/files/" ++ rest) = Ok url ->
  denylisted url = false ->
  image_url H ("/styles/" ++ variant ++ "/public/" ++ rest) = Ok url /\
  denylisted ("/styles/" ++ variant ++ "/public/" ++ rest) = true /\
  (forall H' found, Theban.classify_image H' cfg tomb_name img found = ret found) /\
  (forall H' found, Amduat.classify_image H' img found = ret found).
Proof.
  intros Hv Hslash Hr Hnl Hsrc Hdeny Hurl Hclean.
  assert (Hraw : denylisted ("/styles/" ++ variant ++ "/public/" ++ rest) = true)
    by now apply SourceFacts.denylisted_inside.
  split.
  - unfold image_url. now rewrite SourceFacts.normalize_variant.
  - split; [exact Hraw|]. split; intros H' found.
    + eapply SourceFacts.theban_rejects; eauto.
    + eapply SourceFacts.amduat_rejects; eauto.
Qed.

Lemma denylist_reads_raw_source_witness :
  image_url (Samples.host []) "/styles/icon/public/foo.jpg"
    = Ok "https://thebanmappingproject.com/sites/default/files/foo.jpg" /\
  denylisted "https://thebanmappingproject.com/sites/default/files/foo.jpg" = false /\
  forall found,
    Theban.classify_image (Samples.host []) amduat_config "KV 9" Samples.img_icon_variant found
    = ret found.
Proof.
  pose proof (denylist_reads_raw_source (Samples.host []) amduat_config "KV 9"
                Samples.img_icon_variant "icon" "foo.jpg"
                "https://thebanmappingproject.com/sites/default/files/foo.jpg") as Hw.
  destruct Hw as (Hurl & _ & Ht & _); try reflexivity; try discriminate.
  split; [exact Hurl|]. split; [reflexivity|]. intros found. apply Ht.
Defined.

(** ** The pattern loop *)

Module PatternFacts.

Lemma dict_get_in {V : Type} (d : list (string * V)) (k : string) (v : V) :
  dict_get String.eqb d k = Some v -> exists k', In (k', v) d.
Proof.
  induction d as [|[k' v'] d IH]; simpl; [discriminate|].
  destruct (String.eqb k k').
  - intros E. injection E as ->. eauto.
  - intros E. destruct (IH E) as [k'' Hin]. eauto.
Qed.

Lemma nonzero_get (mapping : list (string * Z)) (k : string) (v : Z) :
  nonzero_values mapping = true ->
  dict_get String.eqb mapping k = Some v -> int_truthy (Some v) = true.
Proof.
  intros Hnz Hget. destruct (dict_get_in _ _ _ Hget) as [k' Hin].
  unfold nonzero_values in Hnz. rewrite forallb_forall in Hnz.
  exact (Hnz _ Hin).
Qed.

Lemma resolve_groups_cons (mapping : list (string * Z)) (m : string) (rest : list string) :
  resolve_groups mapping (m :: rest) =
  match dict_get String.eqb mapping (Str.lower m) with
  | Some v => Some v
  | None => resolve_groups mapping rest
  end.
Proof.
  unfold resolve_groups, dict_mem. cbn [List.find].
  destruct (dict_get String.eqb mapping (Str.lower m)) eqn:Hget; [exact Hget | reflexivity].
Qed.

Lemma resolve_groups_some (mapping : list (string * Z)) (groups : list string) (v : Z) :
  nonzero_values mapping = true ->
  resolve_groups mapping groups = Some v -> int_truthy (Some v) = true.
Proof.
  intros Hnz. induction groups as [|m rest IH]; [discriminate|].
  rewrite resolve_groups_cons.
  destruct (dict_get String.eqb mapping (Str.lower m)) as [w|] eqn:Hget; [|exact IH].
  intros E. injection E as <-. eapply nonzero_get; eauto.
Qed.

(** The inner loop of [extract_funerary_text_images]. *)
Lemma theban_scan_matches (cfg : Config) (context_text : string) (groups : list string)
    (st : option Z * string) :
  fst (Theban.scan_matches cfg context_text groups st) =
  match resolve_groups (section_mapping cfg) groups with
  | Some v => Some v
  | None => fst st
  end.
Proof.
  induction groups as [|m rest IH]; [reflexivity|].
  rewrite resolve_groups_cons. cbn [Theban.scan_matches].
  now destruct (dict_get String.eqb (section_mapping cfg) (Str.lower m)).
Qed.

(** The inner loop of [extract_amduat_images]. *)
Lemma amduat_scan_matches (mapping : list (string * Z)) (groups : list string)
    (hour_found : option Z) :
  Amduat.scan_matches mapping groups hour_found =
  match resolve_groups mapping groups with
  | Some v => Some v
  | None => hour_found
  end.
Proof.
  induction groups as [|m rest IH]; [reflexivity|].
  rewrite resolve_groups_cons. cbn [Amduat.scan_matches].
  now destruct (dict_get String.eqb mapping (Str.lower m)).
Qed.

Section Loops.
Variable cfg : Config.
Hypothesis Hnz : nonzero_values (section_mapping cfg) = true.
Variables img_context context_text : string.

Lemma theban_first_wins (before later : list Re.regex) (pattern : Re.regex) (v : Z) :
  (forall q, In q before -> resolves (section_mapping cfg) q img_context = None) ->
  resolves (section_mapping cfg) pattern img_context = Some v ->
  forall st, fst st = None ->
  fst (Theban.scan_patterns cfg (before ++ pattern :: later)%list img_context context_text st)
  = Some v.
Proof.
  intros Hbefore Hp. induction before as [|q before IH]; intros st Hst.
  - cbn [app Theban.scan_patterns].
    pose proof (theban_scan_matches cfg context_text (Re.findall pattern img_context) st) as Hm.
    fold (resolves (section_mapping cfg) pattern img_context) in Hm. rewrite Hp in Hm.
    rewrite Hm, (resolve_groups_some _ _ _ Hnz Hp). exact Hm.
  - cbn [app Theban.scan_patterns].
    pose proof (theban_scan_matches cfg context_text (Re.findall q img_context) st) as Hm.
    fold (resolves (section_mapping cfg) q img_context) in Hm.
    rewrite (Hbefore q (or_introl eq_refl)), Hst in Hm.
    rewrite Hm. cbn [int_truthy]. apply IH; [|exact Hm].
    intros q' Hq'. apply Hbefore. now right.
Qed.

Lemma theban_none_resolves (pats : list Re.regex) :
  (forall q, In q pats -> resolves (section_mapping cfg) q img_context = None) ->
  forall st, fst st = None ->
  fst (Theban.scan_patterns cfg pats img_context context_text st) = None.
Proof.
  induction pats as [|q pats IH]; intros Hall st Hst; [exact Hst|].
  cbn [Theban.scan_patterns].
  pose proof (theban_scan_matches cfg context_text (Re.findall q img_context) st) as Hm.
  fold (resolves (section_mapping cfg) q img_context) in Hm.
  rewrite (Hall q (or_introl eq_refl)), Hst in Hm.
  rewrite Hm. cbn [int_truthy]. apply IH; [|exact Hm].
  intros q' Hq'. apply Hall. now right.
Qed.

Lemma amduat_first_wins (before later : list Re.regex) (pattern : Re.regex) (v : Z) :
  (forall q, In q before -> resolves (section_mapping cfg) q img_context = None) ->
  resolves (section_mapping cfg) pattern img_context = Some v ->
  Amduat.scan_patterns (section_mapping cfg) (before ++ pattern :: later)%list img_context None
  = Some v.
Proof.
  intros Hbefore Hp. induction before as [|q before IH].
  - cbn [app Amduat.scan_patterns]. rewrite amduat_scan_matches.
    fold (resolves (section_mapping cfg) pattern img_context). rewrite Hp.
    now rewrite (resolve_groups_some _ _ _ Hnz Hp).
  - cbn [app Amduat.scan_patterns]. rewrite amduat_scan_matches.
    fold (resolves (section_mapping cfg) q img_context).
    rewrite (Hbefore q (or_introl eq_refl)). cbn [int_truthy]. apply IH.
    intros q' Hq'. apply Hbefore. now right.
Qed.

Lemma amduat_none_resolves (pats : list Re.regex) :
  (forall q, In q pats -> resolves (section_mapping cfg) q img_context = None) ->
  Amduat.scan_patterns (section_mapping cfg) pats img_context None = None.
Proof.
  induction pats as [|q pats IH]; intros Hall; [reflexivity|].
  cbn [Amduat.scan_patterns]. rewrite amduat_scan_matches.
  fold (resolves (section_mapping cfg) q img_context).
  rewrite (Hall q (or_introl eq_refl)). cbn [int_truthy]. apply IH.
  intros q' Hq'. apply Hall. now right.
Qed.
End Loops.

Lemma configured (key : string) (cfg : Config) :
  dict_get String.eqb FUNERARY_TEXT_CONFIGS key = Some cfg ->
  cfg = amduat_config \/ cfg = caverns_config.
Proof.
  unfold FUNERARY_TEXT_CONFIGS. cbn [dict_get].
  destruct (String.eqb key "amduat"); [intros E; injection E; auto|].
  destruct (String.eqb key "caverns"); [intros E; injection E; auto|].
  discriminate.
Qed.

Lemma configured_nonzero (key : string) (cfg : Config) :
  dict_get String.eqb FUNERARY_TEXT_CONFIGS key = Some cfg ->
  nonzero_values (section_mapping cfg) = true.
Proof. intros Hcfg. destruct (configured key cfg Hcfg) as [->| ->]; reflexivity. Qed.

End PatternFacts.

(** C1.  For a configured text type, the section number of an image is the
    number the first pattern, in the configured order, resolves to on the
    image's context string, a pattern resolving when one of its captured
    groups, lower-cased, is a key of the ordinal mapping.  The patterns after
    it play no part: any other patterns in their place give the same number.
    The classifier of [amduat_scraper.py], which carries the patterns and the
    mapping of the Amduat configuration, behaves the same. *)
Theorem first_resolving_pattern_wins (key : string) (cfg : Config)
    (img_context context_text : string)
    (before after : list Re.regex) (pattern : Re.regex) (v : Z) :
  dict_get String.eqb FUNERARY_TEXT_CONFIGS key = Some cfg ->
  patterns cfg = (before ++ pattern :: after)%list ->
  (forall q, In q before -> resolves (section_mapping cfg) q img_context = None) ->
  resolves (section_mapping cfg) pattern img_context = Some v ->
  fst (Theban.find_section cfg img_context context_text) = Some v /\
  (forall later,
     fst (Theban.scan_patterns cfg (before ++ pattern :: later)%list
            img_context context_text (None, "")) = Some v) /\
  (key = "amduat" ->
   Amduat.find_hour img_context = Some v /\
   forall later,
     Amduat.scan_patterns Amduat.hour_mapping (before ++ pattern :: later)%list
       img_context None = Some v).
Proof.
  intros Hcfg Hpats Hbefore Hp.
  pose proof (PatternFacts.configured_nonzero key cfg Hcfg) as Hnz.
  split; [|split].
  - unfold Theban.find_section. rewrite Hpats.
    now apply PatternFacts.theban_first_wins.
  - intros later. now apply PatternFacts.theban_first_wins.
  - intros ->. cbn in Hcfg. injection Hcfg as <-.
    split.
    + unfold Amduat.find_hour.
      change Amduat.patterns with (patterns amduat_config). rewrite Hpats.
      now apply (PatternFacts.amduat_first_wins amduat_config).
    + intros later. now apply (PatternFacts.amduat_first_wins amduat_config).
Qed.

(** On "amduat, third hour of the night" the first pattern finds nothing and
    the second resolves to 3. *)
Lemma first_resolving_pattern_wins_witness :
  resolves (section_mapping amduat_config) Patterns.amduat_1
    "amduat, third hour of the night" = None /\
  fst (Theban.find_section amduat_config "amduat, third hour of the night" "") = Some 3%Z /\
  Amduat.find_hour "amduat, third hour of the night" = Some 3%Z.
Proof.
  split; [reflexivity|].
  destruct (first_resolving_pattern_wins "amduat" amduat_config
              "amduat, third hour of the night" ""
              [Patterns.amduat_1] [Patterns.amduat_3; Patterns.amduat_4]
              Patterns.amduat_2 3%Z eq_refl eq_refl) as (Ht & _ & Ha).
  - intros q [<-|[]]. reflexivity.
  - reflexivity.
  - split; [exact Ht|]. exact (proj1 (Ha eq_refl)).
Defined.

(** ** What the classifier can do to the sections found *)

Module ClassifierFacts.
Import MonadFacts.

Lemma bind_lift_ok {A B} (a : A) (f : A -> M B) : bind (lift (Ok a)) f = f a.
Proof. apply bind_ret_l. Qed.

Lemma for_each_inv {A S} (P : S -> Prop) (body : A -> S -> M S) (l : list A) :
  (forall x st st' out, body x st = (Ok st', out) -> P st -> P st') ->
  forall st st' out, for_each l body st = (Ok st', out) -> P st -> P st'.
Proof.
  intros Hstep. induction l as [|x l IH]; intros st st' out Hrun Hst.
  - cbn in Hrun. injection Hrun as <- _. exact Hst.
  - cbn [for_each] in Hrun. apply bind_ok in Hrun.
    destruct Hrun as (st1 & out1 & out2 & Hx & Hl & _).
    eapply IH; eauto.
Qed.

Lemma dict_set_keys {V} (d : list (Z * V)) (k : Z) (v w : V) :
  dict_get Z.eqb d k = Some w -> dict_keys (dict_set Z.eqb d k v) = dict_keys d.
Proof.
  unfold dict_keys. induction d as [|[k' v'] d IH]; cbn [dict_get dict_set]; [discriminate|].
  destruct (Z.eqb k k'); [reflexivity|].
  intros Hget. cbn [map fst]. now rewrite IH.
Qed.

Lemma dict_mem_keys {V} (d : list (Z * V)) (k : Z) :
  dict_mem Z.eqb d k = true <-> In k (dict_keys d).
Proof.
  unfold dict_mem, dict_keys. induction d as [|[k' v'] d IH]; cbn [dict_get map fst In].
  - split; [discriminate | tauto].
  - destruct (Z.eqb_spec k k') as [->|Hne].
    + split; auto.
    + rewrite IH. split; [tauto|]. intros [E|Hin]; [congruence | exact Hin].
Qed.

(** One step of the image loop either leaves the sections as they are or
    appends one entry to the list of a configured section. *)
Lemma theban_step (H : Host) (cfg : Config) (tomb_name : string) (img : image)
    (found found' : Theban.images_by_section) (out : list string) :
  Theban.classify_image H cfg tomb_name img found = (Ok found', out) ->
  found' = found \/
  exists sec entries e,
    dict_get Z.eqb found sec = Some entries /\
    dict_mem Z.eqb (sections cfg) sec = true /\
    found' = dict_set Z.eqb found sec (entries ++ [e])%list.
Proof.
  unfold Theban.classify_image.
  assert (Hret : forall o : list string, (Ok found, @nil string) = (Ok found', o) ->
                 found' = found \/
                 exists sec entries e,
                   dict_get Z.eqb found sec = Some entries /\
                   dict_mem Z.eqb (sections cfg) sec = true /\
                   found' = dict_set Z.eqb found sec (entries ++ [e])%list)
    by (intros o E; injection E as <- _; now left).
  destruct (effective_src img) as [img_src|]; [|apply Hret].
  destruct (negb (Str.truthy img_src)); [apply Hret|].
  destruct (denylisted img_src); [apply Hret|].
  destruct (image_url H img_src) as [img_url|e]; [|discriminate].
  rewrite bind_lift_ok.
  destruct (img_parent img) as [parent|e]; [|discriminate].
  rewrite bind_lift_ok.
  destruct (Theban.walk_up 3 parent (alt_context img) "") as [img_context context_text].
  destruct (Theban.find_section cfg img_context context_text) as [[sec|] matching_text];
    [|apply Hret].
  destruct (int_truthy (Some sec) && dict_mem Z.eqb (sections cfg) sec) eqn:Hguard;
    [|apply Hret].
  apply andb_true_iff in Hguard. destruct Hguard as [_ Hmem].
  destruct (dict_get Z.eqb found sec) as [entries|] eqn:Hget; [|discriminate].
  destruct (existsb _ entries); [apply Hret|].
  intros E. right. exists sec, entries.
  eexists. split; [exact Hget|]. split; [exact Hmem|].
  unfold print in E. destruct (Str.truthy _) in E; cbn in E; injection E as <- _; reflexivity.
Qed.

Lemma theban_step_keys (H : Host) (cfg : Config) (tomb_name : string) (img : image)
    (found found' : Theban.images_by_section) (out : list string) :
  Theban.classify_image H cfg tomb_name img found = (Ok found', out) ->
  dict_keys found' = dict_keys found.
Proof.
  intros Hstep. destruct (theban_step _ _ _ _ _ _ _ Hstep)
    as [->|(sec & entries & e & Hget & _ & ->)]; [reflexivity|].
  eapply dict_set_keys; eauto.
Qed.

Lemma empty_sections_keys (cfg : Config) :
  dict_keys (Theban.empty_sections cfg) = dict_keys (sections cfg).
Proof.
  unfold Theban.empty_sections, dict_keys. rewrite map_map. reflexivity.
Qed.

(** The result of a page has exactly the configured sections as keys. *)
Lemma extract_keys (H : Host) (self : Theban.ThebanScraper) (tomb_url : string)
    (found : Theban.images_by_section) (out : list string) :
  Theban.extract_funerary_text_images H self tomb_url = (Ok found, out) ->
  dict_keys found = dict_keys (sections (Theban.config self)).
Proof.
  unfold Theban.extract_funerary_text_images. intros Hrun.
  apply bind_ok in Hrun. destruct Hrun as ([] & out1 & out2 & _ & Hrun & _).
  apply bind_ok in Hrun. destruct Hrun as (response & out3 & out4 & _ & Hrun & _).
  destruct (negb (status_code response =? 200)%Z).
  - cbn in Hrun. injection Hrun as <- _. apply empty_sections_keys.
  - rewrite <- empty_sections_keys.
    eapply (for_each_inv
              (fun st => dict_keys st = dict_keys (Theban.empty_sections (Theban.config self))));
      [|exact Hrun|reflexivity].
    intros img st st' o Hstep Hst. rewrite <- Hst. eapply theban_step_keys; eauto.
Qed.

End ClassifierFacts.

(** ** The configuration table *)

Module ConfigFacts.
Import PatternFacts ClassifierFacts.

Lemma configured_consistent (key : string) (cfg : Config) :
  dict_get String.eqb FUNERARY_TEXT_CONFIGS key = Some cfg ->
  mapping_consistent cfg = true.
Proof. intros Hcfg. destruct (configured key cfg Hcfg) as [->| ->]; reflexivity. Qed.

Lemma configured_range (key : string) (cfg : Config) (sec : Z) :
  dict_get String.eqb FUNERARY_TEXT_CONFIGS key = Some cfg ->
  dict_mem Z.eqb (sections cfg) sec = true ->
  (1 <= sec <= Z.of_nat (List.length (sections cfg)))%Z.
Proof.
  intros Hcfg Hmem. apply dict_mem_keys in Hmem.
  destruct (configured key cfg Hcfg) as [->| ->]; cbn in Hmem;
    repeat (destruct Hmem as [<-|Hmem]; [cbn; lia|]); contradiction.
Qed.

(** A number found by the pattern loop is a value of the mapping. *)
Lemma scan_patterns_value (cfg : Config) (pats : list Re.regex)
    (img_context context_text : string) (st : option Z * string) (v : Z) :
  fst (Theban.scan_patterns cfg pats img_context context_text st) = Some v ->
  fst st = Some v \/ exists word, In (word, v) (section_mapping cfg).
Proof.
  revert st. induction pats as [|q pats IH]; intros st; [now left|].
  cbn [Theban.scan_patterns].
  set (st' := Theban.scan_matches cfg context_text (Re.findall q img_context) st).
  assert (Hst' : forall w, fst st' = Some w ->
                 fst st = Some w \/ exists word, In (word, w) (section_mapping cfg)).
  { intros w. subst st'. clear. revert st.
    induction (Re.findall q img_context) as [|m rest IHm]; intros st; [now left|].
    cbn [Theban.scan_matches].
    destruct (dict_get String.eqb (section_mapping cfg) (Str.lower m)) as [z|] eqn:Hget.
    - cbn [fst]. intros E. injection E as ->. right. eapply dict_get_in; eauto.
    - apply IHm. }
  destruct (int_truthy (fst st')); [apply Hst'|].
  intros Hv. destruct (IH st' Hv) as [Hfst|Hval]; auto.
Qed.

End ConfigFacts.

(** C8.  For every configured text type, every value of the ordinal mapping
    is a key of the sections mapping; hence a number the pattern loop finds is
    a key of the sections mapping, and every image in the result of a page
    sits under a section number that is a key of the sections mapping, between
    1 and the number of sections. *)
Theorem emitted_sections_valid (key : string) (cfg : Config) :
  dict_get String.eqb FUNERARY_TEXT_CONFIGS key = Some cfg ->
  (forall word v, In (word, v) (section_mapping cfg) ->
                  dict_mem Z.eqb (sections cfg) v = true) /\
  (forall img_context context_text v,
     fst (Theban.find_section cfg img_context context_text) = Some v ->
     dict_mem Z.eqb (sections cfg) v = true) /\
  (forall H tomb_url found out sec entries e,
     Theban.extract_funerary_text_images H (Theban.mkScraper key cfg) tomb_url
       = (Ok found, out) ->
     In (sec, entries) found -> In e entries ->
     dict_mem Z.eqb (sections cfg) sec = true /\
     (1 <= sec <= Z.of_nat (List.length (sections cfg)))%Z).
Proof.
  intros Hcfg.
  assert (Hcons : forall word v, In (word, v) (section_mapping cfg) ->
                                 dict_mem Z.eqb (sections cfg) v = true).
  { intros word v Hin. pose proof (ConfigFacts.configured_consistent key cfg Hcfg) as Hc.
    unfold mapping_consistent in Hc. rewrite forallb_forall in Hc. exact (Hc _ Hin). }
  split; [exact Hcons|]. split.
  - intros img_context context_text v Hv.
    destruct (ConfigFacts.scan_patterns_value _ _ _ _ _ _ Hv) as [Hnone|[word Hin]];
      [discriminate | eauto].
  - intros H tomb_url found out sec entries e Hrun Hin _.
    assert (Hmem : dict_mem Z.eqb (sections cfg) sec = true).
    { apply ClassifierFacts.dict_mem_keys.
      pose proof (ClassifierFacts.extract_keys _ _ _ _ _ Hrun) as Hkeys.
      cbn [Theban.config] in Hkeys. rewrite <- Hkeys.
      unfold dict_keys. change sec with (fst (sec, entries)). now apply in_map. }
    split; [exact Hmem|]. eapply ConfigFacts.configured_range; eauto.
Qed.

(** Scenario A of the specification: the image lands in section 4. *)
Lemma emitted_sections_valid_witness :
  exists found out,
    Theban.extract_funerary_text_images
      (Samples.host [(Samples.kv9, Ok (mkResponse 200 Samples.page_a))])
      Samples.amduat_scraper Samples.kv9 = (Ok found, out) /\
    In (4%Z, [("https://thebanmappingproject.com/sites/default/files/kv9/fig1.jpg",
               "Imydwat, fourth hour guardians", "KV 9")]) found /\
    dict_mem Z.eqb (sections amduat_config) 4%Z = true /\
    (1 <= 4 <= 12)%Z.
Proof.
  eexists. eexists. split; [reflexivity|].
  split; [cbn; tauto|].
  eapply (proj2 (proj2 (emitted_sections_valid "amduat" amduat_config eq_refl))
            (Samples.host [(Samples.kv9, Ok (mkResponse 200 Samples.page_a))]) Samples.kv9).
  - reflexivity.
  - cbn. do 3 right. left. reflexivity.
  - left. reflexivity.
Defined.

(** ** The run *)

Module RunFacts.
Import MonadFacts ClassifierFacts.

Lemma listing_failure (H : Host) (response : Response) :
  session_get H (base_url ++ "/valley-kings") = Ok response ->
  status_code response <> 200%Z ->
  Theban.get_tombs_list H = (Ok [], []).
Proof.
  intros Hget Hstatus. unfold Theban.get_tombs_list.
  rewrite Hget, bind_lift_ok.
  apply Z.eqb_neq in Hstatus. now rewrite Hstatus.
Qed.

Lemma folders_created (H : Host) (self : Theban.ThebanScraper) :
  (forall path, makedirs H path = Ok tt) ->
  Theban.create_folder_structure H self
  = (Ok (Theban.text_type self),
     ["Created folder structure in '" ++ Theban.text_type self ++ "' directory"]).
Proof.
  intros Hmk. unfold Theban.create_folder_structure.
  rewrite Hmk, bind_lift_ok.
  assert (Hloop : forall l : list (Z * string),
            for_each l
              (fun kv (_ : unit) =>
                 lift (makedirs H (path_join (Theban.text_type self) (snd kv)))) tt
            = (Ok tt, [])).
  { induction l as [|kv l IH]; [reflexivity|].
    cbn [for_each]. now rewrite Hmk, bind_lift_ok. }
  rewrite Hloop. reflexivity.
Qed.

(** Nothing is downloaded from a bucket whose sections are all empty. *)
Lemma download_nothing (H : Host) (cfg cfg' : Config) (base_dir : string) :
  Theban.download_all H cfg base_dir (Theban.empty_bucket cfg') = (Ok 0%Z, []).
Proof.
  unfold Theban.download_all, Theban.empty_bucket.
  generalize 0%Z as total. induction (sections cfg') as [|kv l IH]; intros total;
    [reflexivity|].
  cbn [map for_each fst]. now rewrite bind_ret_l.
Qed.

End RunFacts.

(** C9.  When the fetch of the tomb listing returns a status other than 200,
    [get_tombs_list] returns the empty list; the run, its folders created,
    then ends normally with nothing downloaded, and its summary line reports
    0 images. *)
Theorem listing_failure_empty_run (H : Host) (self : Theban.ThebanScraper)
    (response : Response) :
  session_get H (base_url ++ "/valley-kings") = Ok response ->
  status_code response <> 200%Z ->
  (forall path, makedirs H path = Ok tt) ->
  Theban.get_tombs_list H = (Ok [], []) /\
  Theban.scrape_all_tombs H self
  = (Ok 0%Z,
     ["Starting " ++ name (Theban.config self) ++ " scraper...";
      "Created folder structure in '" ++ Theban.text_type self ++ "' directory";
      NL ++ "Fetching tomb list...";
      "Found 0 tombs";
      NL ++ "Downloading images...";
      NL ++ "Scraping complete! Downloaded 0 images";
      "Images organized in '" ++ Theban.text_type self ++ "' directory"]).
Proof.
  intros Hget Hstatus Hmk.
  pose proof (RunFacts.listing_failure H response Hget Hstatus) as Hlist.
  split; [exact Hlist|].
  unfold Theban.scrape_all_tombs. cbv zeta.
  rewrite (RunFacts.folders_created H self Hmk), Hlist.
  cbv beta iota zeta delta [bind print ret Theban.collect_all for_each].
  now rewrite RunFacts.download_nothing.
Qed.

Lemma listing_failure_empty_run_witness :
  Theban.scrape_all_tombs
    (Samples.host [(base_url ++ "/valley-kings", Ok (mkResponse 503 (Samples.page [])))])
    Samples.amduat_scraper
  = (Ok 0%Z,
     ["Starting Amduat scraper...";
      "Created folder structure in 'amduat' directory";
      NL ++ "Fetching tomb list...";
      "Found 0 tombs";
      NL ++ "Downloading images...";
      NL ++ "Scraping complete! Downloaded 0 images";
      "Images organized in 'amduat' directory"]).
Proof.
  refine (proj2 (listing_failure_empty_run
    (Samples.host [(base_url ++ "/valley-kings", Ok (mkResponse 503 (Samples.page [])))])
    Samples.amduat_scraper (mkResponse 503 (Samples.page [])) eq_refl _ _)).
  - discriminate.
  - reflexivity.
Defined.

(** ** Merging the pages of a run *)

Module MergeFacts.
Import MonadFacts ClassifierFacts.

Section Dicts.
Context {K V : Type} (eqb : K -> K -> bool).
Hypothesis eqb_spec : forall a b, reflect (a = b) (eqb a b).

Lemma get_set_same (d : list (K * V)) (k : K) (v : V) :
  dict_get eqb (dict_set eqb d k v) k = Some v.
Proof.
  induction d as [|[k' v'] d IH]; cbn [dict_set dict_get].
  - now destruct (eqb_spec k k).
  - destruct (eqb_spec k k') as [->|Hne]; cbn [dict_get].
    + now destruct (eqb_spec k' k').
    + now destruct (eqb_spec k k').
Qed.

Lemma get_set_other (d : list (K * V)) (k k0 : K) (v : V) :
  k0 <> k -> dict_get eqb (dict_set eqb d k v) k0 = dict_get eqb d k0.
Proof.
  intros Hne. induction d as [|[k' v'] d IH]; cbn [dict_set dict_get].
  - now destruct (eqb_spec k0 k).
  - destruct (eqb_spec k k') as [->|Hkk']; cbn [dict_get].
    + destruct (eqb_spec k0 k'); [congruence | reflexivity].
    + now rewrite IH.
Qed.

Lemma get_none (d : list (K * V)) (k : K) :
  ~ In k (dict_keys d) -> dict_get eqb d k = None.
Proof.
  unfold dict_keys. induction d as [|[k' v'] d IH]; cbn [dict_get map fst In]; [reflexivity|].
  intros Hnin. destruct (eqb_spec k k') as [->|Hne]; [tauto|]. apply IH. tauto.
Qed.

Lemma get_some_in (d : list (K * V)) (k : K) (v : V) :
  dict_get eqb d k = Some v -> In k (dict_keys d).
Proof.
  unfold dict_keys. induction d as [|[k' v'] d IH]; cbn [dict_get map fst In]; [discriminate|].
  destruct (eqb_spec k k') as [->|Hne]; [now left|]. intros E. right. now apply IH.
Qed.

Lemma in_get_some (d : list (K * V)) (k : K) :
  In k (dict_keys d) -> exists v, dict_get eqb d k = Some v.
Proof.
  unfold dict_keys. induction d as [|[k' v'] d IH]; cbn [dict_get map fst In]; [tauto|].
  destruct (eqb_spec k k') as [->|Hne]; [eauto|].
  intros [E|Hin]; [congruence | now apply IH].
Qed.

Lemma set_keys_present (d : list (K * V)) (k : K) (v w : V) :
  dict_get eqb d k = Some w -> dict_keys (dict_set eqb d k v) = dict_keys d.
Proof.
  unfold dict_keys. induction d as [|[k' v'] d IH]; cbn [dict_get dict_set]; [discriminate|].
  destruct (eqb_spec k k'); [reflexivity|].
  intros Hget. cbn [map fst]. now rewrite IH.
Qed.

Lemma set_keys_absent (d : list (K * V)) (k : K) (v : V) :
  dict_get eqb d k = None -> dict_set eqb d k v = (d ++ [(k, v)])%list.
Proof.
  induction d as [|[k' v'] d IH]; cbn [dict_get dict_set]; [reflexivity|].
  destruct (eqb_spec k k'); [discriminate|].
  intros Hget. cbn [app]. now rewrite IH.
Qed.
End Dicts.

(** *** The entries of one section *)

Lemma merge_entries_app (l1 l2 : list Theban.entry) seen :
  Theban.merge_entries (l1 ++ l2)%list seen
  = Theban.merge_entries l2 (Theban.merge_entries l1 seen).
Proof.
  revert seen. induction l1 as [|[[u c] t] l1 IH]; intros seen; [reflexivity|].
  cbn [app Theban.merge_entries]. apply IH.
Qed.

Lemma merge_keeps (l : list Theban.entry) seen (url : string) (v : string * string) :
  dict_get String.eqb seen url = Some v ->
  dict_get String.eqb (Theban.merge_entries l seen) url = Some v.
Proof.
  revert seen. induction l as [|[[u c] t] l IH]; intros seen Hget; [exact Hget|].
  cbn [Theban.merge_entries]. apply IH. unfold dict_mem.
  destruct (dict_get String.eqb seen u) eqn:Hu; [exact Hget|].
  rewrite (get_set_other String.eqb String.eqb_spec); [exact Hget|]. congruence.
Qed.

Lemma merge_first (earlier later : list Theban.entry) seen (url caption tomb_name : string) :
  dict_get String.eqb seen url = None ->
  (forall e, In e earlier -> Theban.entry_url e <> url) ->
  dict_get String.eqb
    (Theban.merge_entries (earlier ++ (url, caption, tomb_name) :: later)%list seen) url
  = Some (caption, tomb_name).
Proof.
  revert seen. induction earlier as [|[[u c] t] earlier IH]; intros seen Hnone Hearlier.
  - cbn [app Theban.merge_entries]. apply merge_keeps. unfold dict_mem. rewrite Hnone.
    apply (get_set_same String.eqb String.eqb_spec).
  - cbn [app Theban.merge_entries]. apply IH.
    + assert (Hu : url <> u).
      { intros ->. exact (Hearlier (u, c, t) (or_introl eq_refl) eq_refl). }
      unfold dict_mem. destruct (dict_get String.eqb seen u); [exact Hnone|].
      now rewrite (get_set_other String.eqb String.eqb_spec).
    + intros e He. apply Hearlier. now right.
Qed.

Lemma merge_nodup (l : list Theban.entry) seen :
  NoDup (dict_keys seen) -> NoDup (dict_keys (Theban.merge_entries l seen)).
Proof.
  revert seen. induction l as [|[[u c] t] l IH]; intros seen Hnd; [exact Hnd|].
  cbn [Theban.merge_entries]. apply IH. unfold dict_mem.
  destruct (dict_get String.eqb seen u) eqn:Hu; [exact Hnd|].
  rewrite (set_keys_absent String.eqb String.eqb_spec _ _ _ Hu).
  unfold dict_keys in *. rewrite map_app. cbn [map fst].
  apply NoDup_app; [exact Hnd | repeat constructor; tauto |].
  intros k Hk [E|[]]. subst k.
  destruct (in_get_some String.eqb String.eqb_spec seen u Hk) as [v Hv]. congruence.
Qed.

(** One entry for a URL in a dictionary without repeated keys that holds it. *)
Lemma one_entry seen (url : string) (v : string * string) :
  NoDup (dict_keys seen) -> dict_get String.eqb seen url = Some v ->
  entries_for url seen = 1%nat.
Proof.
  unfold entries_for, dict_keys. induction seen as [|[k w] seen IH];
    cbn [dict_get map fst filter]; [discriminate|].
  intros Hnd Hget. inversion Hnd as [|? ? Hnin Hnd']; subst.
  rewrite (String.eqb_sym k url). destruct (String.eqb_spec url k) as [->|Hne].
  - cbn [List.length]. f_equal.
    assert (Hnone : forall l : list (string * (string * string)),
              ~ In k (map fst l) -> filter (fun kv => String.eqb (fst kv) k) l = []).
    { induction l as [|[k' w'] l IHl]; cbn [map fst filter In]; [reflexivity|].
      intros Hn. destruct (String.eqb_spec k' k); [tauto|]. apply IHl. tauto. }
    now rewrite Hnone.
  - now apply IH.
Qed.

(** *** The sections of one page *)

Lemma merge_sections_spec (found : Theban.images_by_section) :
  NoDup (dict_keys found) ->
  forall (all_images all_images' : Theban.bucket) (out : list string),
  Theban.merge_sections found all_images = (Ok all_images', out) ->
  dict_keys all_images' = dict_keys all_images /\
  forall sec seen,
    dict_get Z.eqb all_images sec = Some seen ->
    dict_get Z.eqb all_images' sec = Some (Theban.merge_entries (section_of found sec) seen).
Proof.
  unfold Theban.merge_sections.
  induction found as [|[k data] found IH]; intros Hnd B B' out Hrun.
  - cbn in Hrun. injection Hrun as <- _. split; [reflexivity|]. intros sec seen Hget. exact Hget.
  - inversion Hnd as [|? ? Hnin Hnd']; subst.
    cbn [for_each fst snd] in Hrun. apply bind_ok in Hrun.
    destruct Hrun as (B1 & o1 & o2 & Hstep & Hrest & _).
    destruct (dict_get Z.eqb B k) as [seen_k|] eqn:Hk; [|discriminate].
    injection Hstep as <- _.
    destruct (IH Hnd' _ _ _ Hrest) as [Hkeys Hget'].
    split.
    + rewrite Hkeys. eapply (set_keys_present Z.eqb Z.eqb_spec); eauto.
    + intros sec seen Hsec. unfold section_of. cbn [dict_get].
      destruct (Z.eqb_spec sec k) as [->|Hne].
      * rewrite Hk in Hsec. injection Hsec as ->.
        rewrite (Hget' k (Theban.merge_entries data seen)
                   (get_set_same Z.eqb Z.eqb_spec B k _)).
        unfold section_of. now rewrite (get_none Z.eqb Z.eqb_spec found k Hnin).
      * apply Hget'. now rewrite (get_set_other Z.eqb Z.eqb_spec).
Qed.

(** *** The pages of a run *)

Lemma detections_cons (H : Host) (self : Theban.ThebanScraper) (tomb_url : string)
    (tomb_urls : list string) (sec : Z) found (out : list string) :
  Theban.extract_funerary_text_images H self tomb_url = (Ok found, out) ->
  detections H self (tomb_url :: tomb_urls) sec
  = (section_of found sec ++ detections H self tomb_urls sec)%list.
Proof. intros Hrun. unfold detections. cbn [flat_map]. now rewrite Hrun. Qed.

Lemma collect_all_spec (H : Host) (self : Theban.ThebanScraper) :
  NoDup (dict_keys (sections (Theban.config self))) ->
  forall (tomb_urls : list string) (all_images all_images' : Theban.bucket)
         (out : list string),
  Theban.collect_all H self tomb_urls all_images = (Ok all_images', out) ->
  forall sec seen,
    dict_get Z.eqb all_images sec = Some seen ->
    dict_get Z.eqb all_images' sec
    = Some (Theban.merge_entries (detections H self tomb_urls sec) seen).
Proof.
  intros Hnd. unfold Theban.collect_all.
  induction tomb_urls as [|tomb_url tomb_urls IH]; intros B B' out Hrun sec seen Hget.
  - cbn in Hrun. injection Hrun as <- _. exact Hget.
  - cbn [for_each] in Hrun. apply bind_ok in Hrun.
    destruct Hrun as (B1 & o1 & o2 & Hstep & Hrest & _).
    apply bind_ok in Hstep. destruct Hstep as (found & o3 & o4 & Hpage & Hmerge & _).
    assert (Hfound : NoDup (dict_keys found))
      by (rewrite (extract_keys _ _ _ _ _ Hpage); exact Hnd).
    destruct (merge_sections_spec found Hfound _ _ _ Hmerge) as [_ Hget1].
    rewrite (detections_cons _ _ _ _ _ _ _ Hpage), merge_entries_app.
    eapply IH; eauto.
Qed.

(** *** The loop over the tombs goes through when every page does *)

Lemma set_same (d : Theban.bucket) (k : Z) seen :
  dict_get Z.eqb d k = Some seen -> dict_set Z.eqb d k seen = d.
Proof.
  induction d as [|[k' v'] d IH]; cbn [dict_get dict_set]; [discriminate|].
  destruct (Z.eqb k k').
  - intros E. now injection E as ->.
  - intros Hget. now rewrite IH.
Qed.

Lemma merge_sections_total (found : Theban.images_by_section) (all_images : Theban.bucket) :
  incl (dict_keys found) (dict_keys all_images) ->
  exists all_images',
    Theban.merge_sections found all_images = (Ok all_images', []) /\
    dict_keys all_images' = dict_keys all_images.
Proof.
  unfold Theban.merge_sections. revert all_images.
  induction found as [|[k data] found IH]; intros B Hincl.
  - exists B. split; reflexivity.
  - cbn [for_each fst snd].
    destruct (in_get_some Z.eqb Z.eqb_spec B k (Hincl k (or_introl eq_refl)))
      as [seen Hget].
    rewrite Hget, bind_ret_l.
    pose proof (set_keys_present Z.eqb Z.eqb_spec B k
                  (Theban.merge_entries data seen) seen Hget) as Hkeys.
    destruct (IH (dict_set Z.eqb B k (Theban.merge_entries data seen))) as (B' & Hrun & HB').
    + rewrite Hkeys. intros x Hx. apply Hincl. now right.
    + exists B'. split; [exact Hrun | congruence].
Qed.

(** A page that yielded nothing leaves the bucket as it is. *)
Lemma merge_sections_empty (l : list (Z * string)) (all_images : Theban.bucket) :
  incl (dict_keys l) (dict_keys all_images) ->
  Theban.merge_sections (map (fun kv => (fst kv, [])) l) all_images = (Ok all_images, []).
Proof.
  unfold Theban.merge_sections.
  induction l as [|[k nm] l IH]; intros Hincl; [reflexivity|].
  cbn [map for_each fst snd].
  destruct (in_get_some Z.eqb Z.eqb_spec all_images k (Hincl k (or_introl eq_refl)))
    as [seen Hget].
  rewrite Hget, bind_ret_l. cbn [Theban.merge_entries]. rewrite (set_same _ _ _ Hget).
  apply IH. intros x Hx. apply Hincl. now right.
Qed.

Lemma collect_all_total (H : Host) (self : Theban.ThebanScraper) (tomb_urls : list string) :
  (forall tomb_url, In tomb_url tomb_urls ->
     exists found out,
       Theban.extract_funerary_text_images H self tomb_url = (Ok found, out)) ->
  forall all_images,
    dict_keys all_images = dict_keys (sections (Theban.config self)) ->
    exists all_images' out,
      Theban.collect_all H self tomb_urls all_images = (Ok all_images', out).
Proof.
  unfold Theban.collect_all.
  induction tomb_urls as [|tomb_url tomb_urls IH]; intros Hpages B HB.
  - exists B, []. reflexivity.
  - cbn [for_each].
    destruct (Hpages tomb_url (or_introl eq_refl)) as (found & o1 & Hpage).
    rewrite Hpage.
    destruct (merge_sections_total found B) as (B1 & Hmerge & HB1).
    { rewrite (extract_keys _ _ _ _ _ Hpage), HB. apply incl_refl. }
    destruct (IH (fun u Hu => Hpages u (or_intror Hu)) B1) as (B' & o2 & Hrest);
      [congruence|].
    exists B'. eexists. cbn [bind]. rewrite Hmerge. cbn [bind app].
    rewrite Hrest. reflexivity.
Qed.

(** A status other than 200: the tomb is reported, and the loop goes on with
    the bucket unchanged. *)
Lemma status_failure_skipped (H : Host) (self : Theban.ThebanScraper) (tomb_url : string)
    (after : list string) (response : Response) (all_images : Theban.bucket) :
  session_get H tomb_url = Ok response ->
  status_code response <> 200%Z ->
  dict_keys all_images = dict_keys (sections (Theban.config self)) ->
  Theban.collect_all H self (tomb_url :: after) all_images
  = (fst (Theban.collect_all H self after all_images),
     List.app ["Analyzing tomb: " ++ tomb_url; "Failed to access " ++ tomb_url]
       (snd (Theban.collect_all H self after all_images))).
Proof.
  intros Hget Hstatus HB. unfold Theban.collect_all at 1. cbn [for_each].
  fold (Theban.collect_all H self after).
  unfold Theban.extract_funerary_text_images. rewrite Hget.
  apply Z.eqb_neq in Hstatus.
  cbv beta iota zeta delta [bind print lift ret]. rewrite Hstatus. cbn [negb].
  unfold Theban.empty_sections. rewrite merge_sections_empty by (rewrite HB; apply incl_refl).
  destruct (Theban.collect_all H self after all_images) as [r o]. reflexivity.
Qed.

Lemma empty_bucket_keys (cfg : Config) :
  dict_keys (Theban.empty_bucket cfg) = dict_keys (sections cfg).
Proof. unfold Theban.empty_bucket, dict_keys. now rewrite map_map. Qed.

Lemma empty_bucket_get (cfg : Config) (sec : Z) :
  dict_mem Z.eqb (sections cfg) sec = true ->
  dict_get Z.eqb (Theban.empty_bucket cfg) sec = Some [].
Proof.
  unfold dict_mem, Theban.empty_bucket.
  induction (sections cfg) as [|[k nm] l IH]; cbn [dict_get map fst]; [discriminate|].
  destruct (Z.eqb sec k); [reflexivity | exact IH].
Qed.

Lemma init_config (text_type : string) (self : Theban.ThebanScraper) :
  Theban.init text_type = Ok self ->
  dict_get String.eqb FUNERARY_TEXT_CONFIGS text_type = Some (Theban.config self).
Proof.
  unfold Theban.init.
  destruct (dict_get String.eqb FUNERARY_TEXT_CONFIGS text_type); [|discriminate].
  intros E. now injection E as <-.
Qed.

Lemma configured_sections_nodup (key : string) (cfg : Config) :
  dict_get String.eqb FUNERARY_TEXT_CONFIGS key = Some cfg ->
  NoDup (dict_keys (sections cfg)).
Proof.
  intros Hcfg. destruct (PatternFacts.configured key cfg Hcfg) as [->| ->]; cbn;
    repeat (constructor; [cbn; intuition discriminate|]); constructor.
Qed.

End MergeFacts.

(** C5.  When every tomb page of the list classifies without exception, the
    loop over the tombs ends with a bucket in which a configured section
    holds, for a URL that the pages yielded for that section, exactly one
    entry, and the entry carries the caption and the tomb name of the first
    detection of that URL, in the order of the tomb list and, within a page,
    of the images; every later detection of the URL in that section has left
    the bucket as it was. *)
Theorem bucket_keeps_first_detection (H : Host) (text_type : string)
    (self : Theban.ThebanScraper) (tomb_urls : list string)
    (sec : Z) (url caption tomb_name : string) (earlier later : list Theban.entry) :
  Theban.init text_type = Ok self ->
  (forall tomb_url, In tomb_url tomb_urls ->
     exists found out,
       Theban.extract_funerary_text_images H self tomb_url = (Ok found, out)) ->
  dict_mem Z.eqb (sections (Theban.config self)) sec = true ->
  detections H self tomb_urls sec = (earlier ++ (url, caption, tomb_name) :: later)%list ->
  (forall e, In e earlier -> Theban.entry_url e <> url) ->
  exists all_images out seen,
    Theban.collect_all H self tomb_urls (Theban.empty_bucket (Theban.config self))
      = (Ok all_images, out) /\
    dict_get Z.eqb all_images sec = Some seen /\
    entries_for url seen = 1%nat /\
    dict_get String.eqb seen url = Some (caption, tomb_name).
Proof.
  intros Hinit Hpages Hsec Hdet Hfirst.
  pose proof (MergeFacts.configured_sections_nodup _ _ (MergeFacts.init_config _ _ Hinit))
    as Hnd.
  destruct (MergeFacts.collect_all_total H self tomb_urls Hpages
              (Theban.empty_bucket (Theban.config self))
              (MergeFacts.empty_bucket_keys _)) as (all_images & out & Hrun).
  pose proof (MergeFacts.collect_all_spec H self Hnd _ _ _ _ Hrun sec []
                (MergeFacts.empty_bucket_get _ _ Hsec)) as Hget.
  rewrite Hdet in Hget.
  exists all_images, out,
    (Theban.merge_entries (earlier ++ (url, caption, tomb_name) :: later)%list []).
  split; [exact Hrun|]. split; [exact Hget|].
  assert (Hfound : dict_get String.eqb
            (Theban.merge_entries (earlier ++ (url, caption, tomb_name) :: later)%list []) url
            = Some (caption, tomb_name))
    by (apply MergeFacts.merge_first; [reflexivity | exact Hfirst]).
  split; [|exact Hfound].
  eapply MergeFacts.one_entry; [|exact Hfound].
  apply MergeFacts.merge_nodup. constructor.
Qed.

(** Scenario C of the specification: the second tomb repeats the URL of the
    first under another caption and another tomb name. *)
Lemma bucket_keeps_first_detection_witness :
  fst Samples.run_c = Ok Samples.bucket_c /\
  detections Samples.host_c Samples.amduat_scraper [Samples.kv9; Samples.kv17] 2%Z
  = [(Samples.hour2_url, "Amduat, second hour: the solar barque", "KV 9");
     (Samples.hour2_url, "Imydwat second hour, burial chamber", "KV 17")] /\
  exists all_images out seen,
    Samples.run_c = (Ok all_images, out) /\
    dict_get Z.eqb all_images 2%Z = Some seen /\
    entries_for Samples.hour2_url seen = 1%nat /\
    dict_get String.eqb seen Samples.hour2_url
    = Some ("Amduat, second hour: the solar barque", "KV 9").
Proof.
  split; [reflexivity|]. split; [reflexivity|].
  apply (bucket_keeps_first_detection Samples.host_c "amduat" Samples.amduat_scraper
           [Samples.kv9; Samples.kv17] 2%Z
           Samples.hour2_url "Amduat, second hour: the solar barque" "KV 9"
           []
           [(Samples.hour2_url, "Imydwat second hour, burial chamber", "KV 17")]).
  - reflexivity.
  - intros tomb_url [<-|[<-|[]]]; eexists; eexists; reflexivity.
  - reflexivity.
  - reflexivity.
  - intros e [].
Defined.

(** ** Where the run stops *)

Module AbortFacts.
Import MonadFacts ClassifierFacts.

Lemma for_each_raises {A S} (body : A -> S -> M S) (l : list A) (x : A) :
  In x l ->
  (forall st, exists e, fst (body x st) = Raise e) ->
  forall st, exists e, fst (for_each l body st) = Raise e.
Proof.
  intros Hin Hx. induction l as [|y l IH]; intros st; [contradiction|].
  cbn [for_each]. destruct (body y st) as [[st'|e] out] eqn:Hy.
  - destruct Hin as [->|Hin].
    + destruct (Hx st) as [e He]. rewrite Hy in He. discriminate.
    + destruct (IH Hin st') as [e He]. exists e.
      unfold bind. destruct (for_each l body st') as [r out']. exact He.
  - exists e. reflexivity.
Qed.

Lemma lazy_entry_listed (soup : node) (lazy : element) (src : string) :
  In lazy (find_all soup (has_attr "data-src")) ->
  tag_get (el_node lazy) "data-src" = Some src ->
  Str.truthy src = true ->
  In (ImgDict [("src", src)]) (collect_images soup).
Proof.
  intros Hin Hsrc Htruthy. unfold collect_images, lazy_entries.
  apply in_or_app. right. apply in_flat_map. exists lazy. split; [exact Hin|].
  rewrite Hsrc, Htruthy. now left.
Qed.

Lemma dict_src (src : string) :
  Str.truthy src = true -> effective_src (ImgDict [("src", src)]) = Some src.
Proof. intros Ht. unfold effective_src, py_or. cbn. now rewrite Ht. Qed.

(** The dictionary of a lazily loaded image stops the Theban classifier. *)
Lemma theban_dict_raises (H : Host) (cfg : Config) (tomb_name src : string) :
  Str.truthy src = true -> denylisted src = false ->
  forall found, exists e,
    fst (Theban.classify_image H cfg tomb_name (ImgDict [("src", src)]) found) = Raise e.
Proof.
  intros Ht Hd found. unfold Theban.classify_image.
  rewrite (dict_src src Ht), Ht, Hd. cbn [negb].
  destruct (image_url H src) as [img_url|e]; [|now exists e].
  rewrite bind_lift_ok. cbn [img_parent]. eexists. reflexivity.
Qed.

Lemma amduat_dict_raises (H : Host) (src : string) :
  Str.truthy src = true -> denylisted src = false ->
  forall found, exists e,
    fst (Amduat.classify_image H (ImgDict [("src", src)]) found) = Raise e.
Proof.
  intros Ht Hd found. unfold Amduat.classify_image.
  rewrite (dict_src src Ht), Ht, Hd. cbn [negb].
  destruct (image_url H src) as [img_url|e]; [|now exists e].
  rewrite bind_lift_ok. cbn [img_parent]. eexists. reflexivity.
Qed.

(** Where an exception of the image loop comes from. *)
Lemma for_each_raise_from {A S} (P : S -> Prop) (body : A -> S -> M S) (l : list A) :
  (forall x st st' out, body x st = (Ok st', out) -> P st -> P st') ->
  forall st e out,
    for_each l body st = (Raise e, out) -> P st ->
    exists x st1 out1, In x l /\ P st1 /\ body x st1 = (Raise e, out1).
Proof.
  intros Hstep. induction l as [|y l IH]; intros st e out Hrun Hst; [discriminate|].
  cbn [for_each] in Hrun. destruct (body y st) as [[st'|e'] o] eqn:Hy.
  - cbn [bind] in Hrun. destruct (for_each l body st') as [r o'] eqn:Hl.
    injection Hrun as -> _.
    destruct (IH st' e o' Hl (Hstep _ _ _ _ Hy Hst)) as (x & st1 & o1 & Hin & Hp & Hx).
    exists x, st1, o1. split; [now right | auto].
  - cbn [bind] in Hrun. injection Hrun as <- _.
    exists y, st, o. split; [now left | auto].
Qed.

(** With a URL resolution that never fails and the configured sections all
    present, a step of the Theban loop can only fail on the parent of a
    dictionary. *)
Lemma theban_step_exn (H : Host) (cfg : Config) (tomb_name : string) (img : image)
    (found : Theban.images_by_section) (e : exn) (out : list string) :
  (forall b u, exists r, urljoin H b u = Ok r) ->
  dict_keys found = dict_keys (sections cfg) ->
  Theban.classify_image H cfg tomb_name img found = (Raise e, out) ->
  e = no_parent.
Proof.
  intros Htotal Hkeys. unfold Theban.classify_image.
  destruct (effective_src img) as [img_src|]; [|discriminate].
  destruct (negb (Str.truthy img_src)); [discriminate|].
  destruct (denylisted img_src); [discriminate|].
  unfold image_url. destruct (Htotal base_url (normalize_src img_src)) as [img_url ->].
  rewrite bind_lift_ok.
  destruct img as [el|d]; cbn [img_parent];
    [|intros E; injection E as <- _; reflexivity].
  rewrite bind_lift_ok.
  destruct (Theban.walk_up 3 _ _ "") as [img_context context_text].
  destruct (Theban.find_section cfg img_context context_text) as [[sec|] matching_text];
    [|discriminate].
  destruct (int_truthy (Some sec) && dict_mem Z.eqb (sections cfg) sec) eqn:Hguard;
    [|discriminate].
  apply andb_true_iff in Hguard. destruct Hguard as [_ Hmem].
  apply dict_mem_keys in Hmem. rewrite <- Hkeys in Hmem.
  apply dict_mem_keys in Hmem. unfold dict_mem in Hmem.
  destruct (dict_get Z.eqb found sec) as [entries|]; [|discriminate].
  destruct (existsb _ entries); [discriminate|].
  unfold print. destruct (Str.truthy _); discriminate.
Qed.

Lemma amduat_step_keys (H : Host) (img : image) (found found' : Amduat.images_by_hour)
    (out : list string) :
  Amduat.classify_image H img found = (Ok found', out) ->
  dict_keys found' = dict_keys found.
Proof.
  unfold Amduat.classify_image.
  assert (Hret : forall o : list string, (Ok found, @nil string) = (Ok found', o) ->
                 dict_keys found' = dict_keys found)
    by (intros o E; now injection E as <- _).
  destruct (effective_src img) as [img_src|]; [|apply Hret].
  destruct (negb (Str.truthy img_src)); [apply Hret|].
  destruct (denylisted img_src); [apply Hret|].
  destruct (image_url H img_src) as [img_url|e]; [|discriminate].
  rewrite bind_lift_ok.
  destruct (img_parent img) as [parent|e]; [|discriminate].
  rewrite bind_lift_ok.
  destruct (Amduat.find_hour _) as [hour|]; [|apply Hret].
  destruct (int_truthy (Some hour) && (1 <=? hour)%Z && (hour <=? 12)%Z); [|apply Hret].
  destruct (dict_get Z.eqb found hour) as [urls|] eqn:Hget; [|discriminate].
  destruct (existsb _ urls); [apply Hret|].
  intros E. cbn in E. injection E as <- _. eapply dict_set_keys; eauto.
Qed.

Lemma amduat_step_exn (H : Host) (img : image) (found : Amduat.images_by_hour)
    (e : exn) (out : list string) :
  (forall b u, exists r, urljoin H b u = Ok r) ->
  dict_keys found = dict_keys Amduat.empty_hours ->
  Amduat.classify_image H img found = (Raise e, out) ->
  e = no_parent.
Proof.
  intros Htotal Hkeys. unfold Amduat.classify_image.
  destruct (effective_src img) as [img_src|]; [|discriminate].
  destruct (negb (Str.truthy img_src)); [discriminate|].
  destruct (denylisted img_src); [discriminate|].
  unfold image_url. destruct (Htotal base_url (normalize_src img_src)) as [img_url ->].
  rewrite bind_lift_ok.
  destruct img as [el|d]; cbn [img_parent];
    [|intros E; injection E as <- _; reflexivity].
  rewrite bind_lift_ok.
  destruct (Amduat.find_hour _) as [hour|]; [|discriminate].
  destruct (int_truthy (Some hour) && (1 <=? hour)%Z && (hour <=? 12)%Z) eqn:Hguard;
    [|discriminate].
  apply andb_true_iff in Hguard. destruct Hguard as [Hguard Hhi].
  apply andb_true_iff in Hguard. destruct Hguard as [_ Hlo].
  apply Z.leb_le in Hlo, Hhi.
  assert (Hmem : In hour (dict_keys found)).
  { rewrite Hkeys. cbn.
    assert (Hcases : (hour = 1 \/ hour = 2 \/ hour = 3 \/ hour = 4 \/ hour = 5 \/
                      hour = 6 \/ hour = 7 \/ hour = 8 \/ hour = 9 \/ hour = 10 \/
                      hour = 11 \/ hour = 12)%Z) by lia.
    intuition auto. }
  apply dict_mem_keys in Hmem. unfold dict_mem in Hmem.
  destruct (dict_get Z.eqb found hour) as [urls|]; [|discriminate].
  destruct (existsb _ urls); discriminate.
Qed.

(** A page fetched with status 200 is the loop over its images. *)
Lemma theban_page (H : Host) (self : Theban.ThebanScraper) (tomb_url : string)
    (response : Response) :
  session_get H tomb_url = Ok response ->
  status_code response = 200%Z ->
  let run :=
    for_each (collect_images (soup_of response))
      (Theban.classify_image H (Theban.config self)
         (Theban.extract_tomb_name (soup_of response) tomb_url))
      (Theban.empty_sections (Theban.config self)) in
  Theban.extract_funerary_text_images H self tomb_url
  = (fst run, ("Analyzing tomb: " ++ tomb_url) :: snd run).
Proof.
  intros Hget Hstatus run. unfold Theban.extract_funerary_text_images.
  rewrite Hget. cbv beta iota zeta delta [bind print lift]. rewrite Hstatus.
  cbn [Z.eqb Pos.eqb negb]. fold run. now destruct run.
Qed.

Lemma amduat_page (H : Host) (tomb_url : string) (response : Response) :
  session_get H tomb_url = Ok response ->
  status_code response = 200%Z ->
  let run :=
    for_each (collect_images (soup_of response)) (Amduat.classify_image H)
      Amduat.empty_hours in
  Amduat.extract_amduat_images H tomb_url
  = (fst run, ("Analyzing tomb: " ++ tomb_url) :: snd run).
Proof.
  intros Hget Hstatus run. unfold Amduat.extract_amduat_images.
  rewrite Hget. cbv beta iota zeta delta [bind print lift]. rewrite Hstatus.
  cbn [Z.eqb Pos.eqb negb]. fold run. now destruct run.
Qed.

(** A fetch that raises ends the page, and with it the loop over the tombs. *)
Lemma fetch_error_ends_page (H : Host) (self : Theban.ThebanScraper) (tomb_url : string)
    (e : exn) :
  session_get H tomb_url = Raise e ->
  Theban.extract_funerary_text_images H self tomb_url
  = (Raise e, ["Analyzing tomb: " ++ tomb_url]).
Proof.
  intros Hget. unfold Theban.extract_funerary_text_images. now rewrite Hget.
Qed.

End AbortFacts.

(** C2 (the code departs from the claim).  A page fetched with status 200
    that holds an element with a non-empty, non-denylisted [data-src] makes
    both classifiers raise: the entry appended for the element is a plain
    dictionary, and the step that asks for its parent fails.  When the URL
    resolution itself never fails, the exception raised is that
    [AttributeError]. *)
Theorem lazy_source_raises (H : Host) (self : Theban.ThebanScraper) (tomb_url : string)
    (response : Response) (lazy : element) (src : string) :
  session_get H tomb_url = Ok response ->
  status_code response = 200%Z ->
  In lazy (find_all (soup_of response) (has_attr "data-src")) ->
  tag_get (el_node lazy) "data-src" = Some src ->
  Str.truthy src = true ->
  denylisted src = false ->
  (exists e, fst (Theban.extract_funerary_text_images H self tomb_url) = Raise e) /\
  (exists e, fst (Amduat.extract_amduat_images H tomb_url) = Raise e) /\
  ((forall b u, exists r, urljoin H b u = Ok r) ->
   fst (Theban.extract_funerary_text_images H self tomb_url) = Raise no_parent /\
   fst (Amduat.extract_amduat_images H tomb_url) = Raise no_parent).
Proof.
  intros Hget Hstatus Hin Hsrc Ht Hd.
  pose proof (AbortFacts.lazy_entry_listed _ _ _ Hin Hsrc Ht) as Hlisted.
  rewrite (AbortFacts.theban_page H self tomb_url response Hget Hstatus).
  rewrite (AbortFacts.amduat_page H tomb_url response Hget Hstatus).
  cbn [fst].
  destruct (AbortFacts.for_each_raises
              (Theban.classify_image H (Theban.config self)
                 (Theban.extract_tomb_name (soup_of response) tomb_url))
              _ _ Hlisted
              (AbortFacts.theban_dict_raises H _ _ src Ht Hd)
              (Theban.empty_sections (Theban.config self))) as [e He].
  destruct (AbortFacts.for_each_raises (Amduat.classify_image H)
              _ _ Hlisted (AbortFacts.amduat_dict_raises H src Ht Hd)
              Amduat.empty_hours) as [e' He'].
  split; [now exists e|]. split; [now exists e'|].
  intros Htotal. split.
  - rewrite He. f_equal.
    destruct (for_each _ (Theban.classify_image _ _ _) _) as [r out] eqn:Hrun.
    cbn [fst] in He. subst r.
    destruct (AbortFacts.for_each_raise_from
                (fun st => dict_keys st = dict_keys (sections (Theban.config self)))
                _ _ (fun x st st' o Hs Hp =>
                       eq_trans (ClassifierFacts.theban_step_keys _ _ _ _ _ _ _ Hs) Hp)
                _ _ _ Hrun (ClassifierFacts.empty_sections_keys _))
      as (x & st1 & o1 & _ & Hkeys & Hx).
    eapply AbortFacts.theban_step_exn; eauto.
  - rewrite He'. f_equal.
    destruct (for_each _ (Amduat.classify_image _) _) as [r out] eqn:Hrun.
    cbn [fst] in He'. subst r.
    destruct (AbortFacts.for_each_raise_from
                (fun st => dict_keys st = dict_keys Amduat.empty_hours)
                _ _ (fun x st st' o Hs Hp =>
                       eq_trans (AbortFacts.amduat_step_keys _ _ _ _ _ Hs) Hp)
                _ _ _ Hrun eq_refl)
      as (x & st1 & o1 & _ & Hkeys & Hx).
    eapply AbortFacts.amduat_step_exn; eauto.
Qed.

(** A [div] that carries the picture of the second hour in [data-src]. *)
Lemma lazy_source_raises_witness :
  Theban.extract_funerary_text_images
    (Samples.host [(Samples.kv9, Ok (mkResponse 200 Samples.page_lazy))])
    Samples.amduat_scraper Samples.kv9
  = (Raise no_parent, ["Analyzing tomb: " ++ Samples.kv9]) /\
  Amduat.extract_amduat_images
    (Samples.host [(Samples.kv9, Ok (mkResponse 200 Samples.page_lazy))]) Samples.kv9
  = (Raise no_parent, ["Analyzing tomb: " ++ Samples.kv9]) /\
  exists e,
    fst (Theban.extract_funerary_text_images
           (Samples.host [(Samples.kv9, Ok (mkResponse 200 Samples.page_lazy))])
           Samples.amduat_scraper Samples.kv9) = Raise e.
Proof.
  split; [reflexivity|]. split; [reflexivity|].
  refine (proj1 (lazy_source_raises
    (Samples.host [(Samples.kv9, Ok (mkResponse 200 Samples.page_lazy))])
    Samples.amduat_scraper Samples.kv9 (mkResponse 200 Samples.page_lazy)
    (mkElement (Tag "div" [("data-src", "/sites/default/files/kv9/fig2.jpg")]
                  [NavigableString "Amduat, second hour"])
               _)
    "/sites/default/files/kv9/fig2.jpg" eq_refl eq_refl _ eq_refl eq_refl eq_refl)).
  cbn. left. reflexivity.
Defined.

(** C4 (the code departs from the claim).  A status other than 200 makes
    [extract_funerary_text_images] report the tomb and return no image, but a
    fetch that raises, as [requests] does on a transport failure, is caught
    nowhere: the loop over the tombs stops at that tomb, the tombs after it are
    never analysed, and the whole run ends with an exception. *)
Theorem tomb_fetch_error_aborts (H : Host) (self : Theban.ThebanScraper)
    (tomb_urls : list string) (out : list string) (tomb_url : string) (e : exn) :
  (forall path, makedirs H path = Ok tt) ->
  Theban.get_tombs_list H = (Ok tomb_urls, out) ->
  In tomb_url tomb_urls ->
  session_get H tomb_url = Raise e ->
  (forall after all_images,
     Theban.collect_all H self (tomb_url :: after) all_images
     = (Raise e, ["Analyzing tomb: " ++ tomb_url])) /\
  (exists e' out', Theban.scrape_all_tombs H self = (Raise e', out')).
Proof.
  intros Hmk Hlist Hin Hget.
  pose proof (AbortFacts.fetch_error_ends_page H self tomb_url e Hget) as Hpage.
  split.
  - intros after all_images. unfold Theban.collect_all. cbn [for_each].
    now rewrite Hpage.
  - destruct (AbortFacts.for_each_raises
                (fun tomb_url all_images =>
                   found <- Theban.extract_funerary_text_images H self tomb_url ;;
                   Theban.merge_sections found all_images)
                tomb_urls tomb_url Hin) with (st := Theban.empty_bucket (Theban.config self))
      as [e' He'].
    { intros st. exists e. now rewrite Hpage. }
    fold (Theban.collect_all H self tomb_urls (Theban.empty_bucket (Theban.config self)))
      in He'.
    unfold Theban.scrape_all_tombs. cbv zeta.
    rewrite (RunFacts.folders_created H self Hmk), Hlist.
    cbv beta iota zeta delta [bind print ret].
    destruct (Theban.collect_all H self tomb_urls (Theban.empty_bucket (Theban.config self)))
      as [r out1]. cbn [fst] in He'. subst r.
    exists e'. eexists. reflexivity.
Qed.

(** Three tombs, the second unreachable: the third is never analysed. *)
Lemma tomb_fetch_error_aborts_witness :
  Theban.scrape_all_tombs Samples.host_unreachable Samples.amduat_scraper
  = (Raise (RequestException "Connection refused"),
     ["Starting Amduat scraper...";
      "Created folder structure in 'amduat' directory";
      NL ++ "Fetching tomb list...";
      "Found 3 tombs";
      "Analyzing tomb: " ++ Samples.kv9;
      "  Found image for section 4: fig1.jpg";
      "    Caption: Imydwat, fourth hour guardians...";
      "Analyzing tomb: " ++ Samples.kv17]) /\
  forall after all_images,
    Theban.collect_all Samples.host_unreachable Samples.amduat_scraper
      (Samples.kv17 :: after) all_images
    = (Raise (RequestException "Connection refused"), ["Analyzing tomb: " ++ Samples.kv17]).
Proof.
  split; [reflexivity|].
  refine (proj1 (tomb_fetch_error_aborts Samples.host_unreachable Samples.amduat_scraper
                   [Samples.kv9; Samples.kv17; Samples.kv34] [] Samples.kv17
                   (RequestException "Connection refused") _ eq_refl _ eq_refl)).
  - reflexivity.
  - right. left. reflexivity.
Defined.

(** The same run when the second tomb answers 404 instead: it is reported and
    the third tomb is analysed. *)
Example status_failure_skips_tomb :
  Theban.scrape_all_tombs Samples.host_missing Samples.amduat_scraper
  = (Ok 2%Z,
     ["Starting Amduat scraper...";
      "Created folder structure in 'amduat' directory";
      NL ++ "Fetching tomb list...";
      "Found 3 tombs";
      "Analyzing tomb: " ++ Samples.kv9;
      "  Found image for section 4: fig1.jpg";
      "    Caption: Imydwat, fourth hour guardians...";
      "Analyzing tomb: " ++ Samples.kv17;
      "Failed to access " ++ Samples.kv17;
      "Analyzing tomb: " ++ Samples.kv34;
      "  Found image for section 2: hour2.jpg";
      "    Caption: Amduat, second hour: the solar barque...";
      NL ++ "Downloading images...";
      NL ++ "Section 2 (seconda_ora): 1 images";
      "  Downloaded: KV_9_Amduat,_second_hour_the_solar_barque.jpg";
      NL ++ "Section 4 (quarta_ora): 1 images";
      "  Downloaded: KV_9_Imydwat,_fourth_hour_guardians.jpg";
      NL ++ "Scraping complete! Downloaded 2 images";
      "Images organized in 'amduat' directory"]).
Proof. reflexivity. Qed.

(** ** The scenarios of the specification, evaluated *)

(** Scenario A: one image with the alt text "Imydwat, fourth hour guardians". *)
Example scenario_a :
  Theban.extract_funerary_text_images
    (Samples.host [(Samples.kv9, Ok (mkResponse 200 Samples.page_a))])
    Samples.amduat_scraper Samples.kv9
  = (Ok [(1, []); (2, []); (3, []);
         (4, [("https://thebanmappingproject.com/sites/default/files/kv9/fig1.jpg",
               "Imydwat, fourth hour guardians", "KV 9")]);
         (5, []); (6, []); (7, []); (8, []); (9, []); (10, []); (11, []); (12, [])]%Z,
     ["Analyzing tomb: " ++ Samples.kv9;
      "  Found image for section 4: fig1.jpg";
      "    Caption: Imydwat, fourth hour guardians..."]).
Proof. reflexivity. Qed.

(** The listing: three tombs, in the order of their first link. *)
Example listing_of_three :
  Theban.get_tombs_list Samples.host_unreachable
  = (Ok [Samples.kv9; Samples.kv17; Samples.kv34], []).
Proof. reflexivity. Qed.

(** An unknown text type is refused by the constructor. *)
Example unknown_text_type :
  Theban.init "gates"
  = Raise (ValueError "Unknown funerary text type: gates. Available: ['amduat', 'caverns']").
Proof. reflexivity. Qed.


(** * Further properties of the scripts *)

(** ** Downloads *)

Module DownloadFacts.
Import MonadFacts.

Lemma download_image_cases (H : Host) (url filepath : string) :
  Theban.download_image H url filepath =
  match session_get_stream H url with
  | Ok status =>
      if (status =? 200)%Z then
        match write_file H filepath with
        | Ok _ => (Ok true, [])
        | Raise e => (Ok false, ["Error downloading " ++ url ++ ": " ++ exn_str e])
        end
      else (Ok false, [])
  | Raise e => (Ok false, ["Error downloading " ++ url ++ ": " ++ exn_str e])
  end.
Proof.
  unfold Theban.download_image.
  destruct (session_get_stream H url) as [status|e]; [|reflexivity].
  destruct (status =? 200)%Z; [|reflexivity].
  now destruct (write_file H filepath).
Qed.

Lemma download_image_ok (H : Host) (url filepath : string) :
  exists ok out, Theban.download_image H url filepath = (Ok ok, out).
Proof.
  rewrite download_image_cases.
  destruct (session_get_stream H url) as [status|e]; [|eauto].
  destruct (status =? 200)%Z; [|eauto].
  destruct (write_file H filepath); eauto.
Qed.

(** The loop over the images of one section ends, with at most one more
    download counted per image. *)
Lemma download_section_bounds (H : Host) (section_dir : string)
    (img_dict : list (string * (string * string))) :
  forall idx total,
  exists n out,
    Theban.download_section H section_dir idx img_dict total = (Ok n, out) /\
    (total <= n <= total + Z.of_nat (List.length img_dict))%Z.
Proof.
  induction img_dict as [|[img_url [caption tomb_name]] rest IH]; intros idx total.
  - exists total, []. split; [reflexivity | cbn; lia].
  - cbn [Theban.download_section].
    destruct (download_image_ok H img_url
                (path_join section_dir
                   (Theban.image_filename idx img_url caption tomb_name)))
      as (ok & out1 & Hdl).
    rewrite Hdl. destruct ok.
    + destruct (IH (S idx) (total + 1)%Z) as (n & out2 & Hrest & Hn).
      exists n. eexists. split.
      * cbn [bind]. unfold print. cbn [bind ret]. rewrite Hrest. reflexivity.
      * cbn [List.length]. lia.
    + destruct (IH (S idx) total) as (n & out2 & Hrest & Hn).
      exists n. eexists. split.
      * cbn [bind ret]. rewrite Hrest. reflexivity.
      * cbn [List.length]. lia.
Qed.

End DownloadFacts.

(** X1.  [download_image] never raises.  It returns [True] exactly when the
    fetch answers 200 and the file is written; an exception of the fetch or of
    the write is caught and printed, and a status other than 200 gives [False]
    without a line of output. *)
Theorem download_image_never_raises (H : Host) (url filepath : string) :
  exists ok out,
    Theban.download_image H url filepath = (Ok ok, out) /\
    (ok = true <->
     session_get_stream H url = Ok 200%Z /\ exists u, write_file H filepath = Ok u) /\
    (forall e, session_get_stream H url = Raise e ->
       ok = false /\ out = ["Error downloading " ++ url ++ ": " ++ exn_str e]) /\
    (forall e, session_get_stream H url = Ok 200%Z -> write_file H filepath = Raise e ->
       ok = false /\ out = ["Error downloading " ++ url ++ ": " ++ exn_str e]) /\
    (forall status, session_get_stream H url = Ok status -> status <> 200%Z ->
       ok = false /\ out = []).
Proof.
  rewrite DownloadFacts.download_image_cases.
  destruct (session_get_stream H url) as [status|e].
  - destruct (Z.eqb_spec status 200) as [->|Hne].
    + destruct (write_file H filepath) as [u|e].
      * exists true, []. split; [reflexivity|]. split; [|split; [|split]].
        -- split; [eauto | reflexivity].
        -- intros e E. discriminate.
        -- intros e _ E. discriminate.
        -- intros st E Hst. injection E as <-. congruence.
      * exists false, ["Error downloading " ++ url ++ ": " ++ exn_str e].
        split; [reflexivity|]. split; [|split; [|split]].
        -- split; [discriminate|]. intros (_ & u & Hu). discriminate.
        -- intros e' E. discriminate.
        -- intros e' _ E. injection E as <-. now split.
        -- intros st E Hst. injection E as <-. congruence.
    + exists false, []. split; [reflexivity|]. split; [|split; [|split]].
      * split; [discriminate|]. intros (E & _). injection E as E. congruence.
      * intros e E. discriminate.
      * intros e E. injection E as E. congruence.
      * intros st _ _. now split.
  - exists false, ["Error downloading " ++ url ++ ": " ++ exn_str e].
    split; [reflexivity|]. split; [|split; [|split]].
    + split; [discriminate|]. intros (E & _). discriminate.
    + intros e' E. injection E as <-. now split.
    + intros e' E. discriminate.
    + intros st E. discriminate.
Qed.

(** X2.  The download phase cannot fail on a bucket whose non-empty sections
    are configured ones: it ends with a count between 0 and the number of
    images in the bucket, whatever the individual downloads do. *)
Theorem download_phase_bounded (H : Host) (cfg : Config) (base_dir : string)
    (all_images : Theban.bucket) :
  (forall sec, In sec (dict_keys all_images) -> dict_mem Z.eqb (sections cfg) sec = true) ->
  exists total out,
    Theban.download_all H cfg base_dir all_images = (Ok total, out) /\
    (0 <= total <= Z.of_nat (bucket_size all_images))%Z.
Proof.
  unfold Theban.download_all, bucket_size. intros Hkeys.
  match goal with |- context [for_each _ ?b _] => set (body := b) end.
  enough (Hgen : forall start,
            exists total out,
              for_each all_images body start = (Ok total, out) /\
              (start <= total
               <= start + Z.of_nat (List.length (concat (map snd all_images))))%Z).
  { destruct (Hgen 0%Z) as (total & out & Hrun & Hn).
    exists total, out. split; [exact Hrun | lia]. }
  revert Hkeys.
  induction all_images as [|[sec img_dict] rest IH]; intros Hkeys start.
  - exists start, []. split; [reflexivity | cbn; lia].
  - cbn [for_each map snd concat]. rewrite length_app.
    assert (Hrest : forall s, In s (dict_keys rest) -> dict_mem Z.eqb (sections cfg) s = true)
      by (intros s Hs; apply Hkeys; now right).
    destruct img_dict as [|img imgs].
    + change (body (sec, []) start) with (@ret Z start). rewrite MonadFacts.bind_ret_l.
      destruct (IH Hrest start) as (n & out & Hrun & Hn).
      exists n, out. split; [exact Hrun | cbn [List.length]; lia].
    + pose proof (Hkeys sec (or_introl eq_refl)) as Hmem. unfold dict_mem in Hmem.
      unfold body at 1.
      destruct (dict_get Z.eqb (sections cfg) sec) as [section_name|]; [|discriminate].
      destruct (DownloadFacts.download_section_bounds H (path_join base_dir section_name)
                  (img :: imgs) 1 start) as (n1 & out1 & Hsec & Hn1).
      destruct (IH Hrest n1) as (n & out & Hrun & Hn).
      exists n. eexists. split.
      * cbv zeta. rewrite Hsec. unfold print. cbn [bind]. rewrite Hrun. reflexivity.
      * lia.
Qed.

Lemma download_phase_bounded_witness :
  exists total out,
    Theban.download_all (Samples.host []) amduat_config "amduat" Samples.bucket_c
      = (Ok total, out) /\
    (0 <= total <= 1)%Z.
Proof.
  apply (download_phase_bounded (Samples.host []) amduat_config "amduat" Samples.bucket_c).
  intros sec Hsec. cbn in Hsec.
  repeat (destruct Hsec as [<-|Hsec]; [reflexivity|]). contradiction.
Defined.

(** ** Failures before the first tomb *)

Module StartFacts.
Import MonadFacts ClassifierFacts.

Lemma makedirs_loop_silent (H : Host) (base_dir : string) (l : list (Z * string)) :
  snd (for_each l (fun kv (_ : unit) => lift (makedirs H (path_join base_dir (snd kv)))) tt)
  = [].
Proof.
  induction l as [|kv l IH]; [reflexivity|].
  cbn [for_each]. destruct (makedirs H (path_join base_dir (snd kv))) as [[]|e]; [|reflexivity].
  now rewrite bind_lift_ok.
Qed.

Lemma folders_failed (H : Host) (self : Theban.ThebanScraper) (e : exn) (out : list string) :
  Theban.create_folder_structure H self = (Raise e, out) -> out = [].
Proof.
  unfold Theban.create_folder_structure.
  destruct (makedirs H (Theban.text_type self)) as [[]|e0].
  - rewrite bind_lift_ok.
    pose proof (makedirs_loop_silent H (Theban.text_type self)
                  (sections (Theban.config self))) as Hsilent.
    destruct (for_each _ _ tt) as [[[]|e1] o1]; cbn [snd] in Hsilent; subst o1.
    + discriminate.
    + intros E. now injection E as _ <-.
  - intros E. now injection E as _ <-.
Qed.

End StartFacts.

(** X3.  When a folder cannot be created, [create_folder_structure] has
    printed nothing, and the run ends with that exception right after its
    first line: no page has been fetched. *)
Theorem folder_failure_aborts (H : Host) (self : Theban.ThebanScraper) (e : exn)
    (out : list string) :
  Theban.create_folder_structure H self = (Raise e, out) ->
  out = [] /\
  Theban.scrape_all_tombs H self
  = (Raise e, ["Starting " ++ name (Theban.config self) ++ " scraper..."]).
Proof.
  intros Hcreate. pose proof (StartFacts.folders_failed H self e out Hcreate) as ->.
  split; [reflexivity|].
  unfold Theban.scrape_all_tombs. cbv zeta. now rewrite Hcreate.
Qed.

Lemma folder_failure_aborts_witness :
  Theban.scrape_all_tombs MoreSamples.host_readonly Samples.amduat_scraper
  = (Raise (OSError "[Errno 13] Permission denied: 'amduat/terza_ora'"),
     ["Starting Amduat scraper..."]).
Proof.
  refine (proj2 (folder_failure_aborts MoreSamples.host_readonly Samples.amduat_scraper
                   (OSError "[Errno 13] Permission denied: 'amduat/terza_ora'") [] _)).
  reflexivity.
Defined.

(** X4.  A fetch of the tomb listing that raises is caught nowhere:
    [get_tombs_list] raises the same exception, and the run, its folders
    created, ends with it before any tomb is analysed. *)
Theorem listing_error_aborts (H : Host) (self : Theban.ThebanScraper) (e : exn) :
  (forall path, makedirs H path = Ok tt) ->
  session_get H (base_url ++ "/valley-kings") = Raise e ->
  Theban.get_tombs_list H = (Raise e, []) /\
  Theban.scrape_all_tombs H self
  = (Raise e,
     ["Starting " ++ name (Theban.config self) ++ " scraper...";
      "Created folder structure in '" ++ Theban.text_type self ++ "' directory";
      NL ++ "Fetching tomb list..."]).
Proof.
  intros Hmk Hget.
  assert (Hlist : Theban.get_tombs_list H = (Raise e, []))
    by (unfold Theban.get_tombs_list; now rewrite Hget).
  split; [exact Hlist|].
  unfold Theban.scrape_all_tombs. cbv zeta.
  now rewrite (RunFacts.folders_created H self Hmk), Hlist.
Qed.

Lemma listing_error_aborts_witness :
  Theban.scrape_all_tombs MoreSamples.host_offline Samples.amduat_scraper
  = (Raise (RequestException "Name or service not known"),
     ["Starting Amduat scraper...";
      "Created folder structure in 'amduat' directory";
      NL ++ "Fetching tomb list..."]).
Proof.
  refine (proj2 (listing_error_aborts MoreSamples.host_offline Samples.amduat_scraper
                   (RequestException "Name or service not known") _ eq_refl)).
  reflexivity.
Defined.

(** X5.  A tomb page that answers with a status other than 200 is reported
    and skipped: the loop over the tombs goes on with the bucket as it was,
    and what follows is what the remaining tombs give. *)
Theorem tomb_status_failure_skipped (H : Host) (self : Theban.ThebanScraper)
    (tomb_url : string) (after : list string) (response : Response)
    (all_images : Theban.bucket) :
  session_get H tomb_url = Ok response ->
  status_code response <> 200%Z ->
  dict_keys all_images = dict_keys (sections (Theban.config self)) ->
  Theban.extract_funerary_text_images H self tomb_url
  = (Ok (Theban.empty_sections (Theban.config self)),
     ["Analyzing tomb: " ++ tomb_url; "Failed to access " ++ tomb_url]) /\
  Theban.collect_all H self (tomb_url :: after) all_images
  = (fst (Theban.collect_all H self after all_images),
     List.app ["Analyzing tomb: " ++ tomb_url; "Failed to access " ++ tomb_url]
       (snd (Theban.collect_all H self after all_images))).
Proof.
  intros Hget Hstatus Hkeys. split.
  - unfold Theban.extract_funerary_text_images. rewrite Hget.
    apply Z.eqb_neq in Hstatus.
    cbv beta iota zeta delta [bind print lift ret]. now rewrite Hstatus.
  - now apply (MergeFacts.status_failure_skipped H self tomb_url after response).
Qed.

Lemma tomb_status_failure_skipped_witness :
  Theban.collect_all Samples.host_missing Samples.amduat_scraper
    [Samples.kv17; Samples.kv34] (Theban.empty_bucket amduat_config)
  = (fst (Theban.collect_all Samples.host_missing Samples.amduat_scraper
            [Samples.kv34] (Theban.empty_bucket amduat_config)),
     List.app ["Analyzing tomb: " ++ Samples.kv17; "Failed to access " ++ Samples.kv17]
       (snd (Theban.collect_all Samples.host_missing Samples.amduat_scraper
               [Samples.kv34] (Theban.empty_bucket amduat_config)))).
Proof.
  refine (proj2 (tomb_status_failure_skipped Samples.host_missing Samples.amduat_scraper
                   Samples.kv17 [Samples.kv34] (mkResponse 404 (Samples.page []))
                   (Theban.empty_bucket amduat_config) eq_refl _ eq_refl)).
  discriminate.
Defined.

(** ** The result of one page *)

Module PageFacts.
Import MonadFacts ClassifierFacts.

(** The step of the image loop, with the entry it appends. *)
Lemma theban_step_entry (H : Host) (cfg : Config) (tomb_name : string) (img : image)
    (found found' : Theban.images_by_section) (out : list string) :
  Theban.classify_image H cfg tomb_name img found = (Ok found', out) ->
  found' = found \/
  exists sec entries img_url caption,
    dict_get Z.eqb found sec = Some entries /\
    existsb (fun e => String.eqb (Theban.entry_url e) img_url) entries = false /\
    found' = dict_set Z.eqb found sec (entries ++ [(img_url, caption, tomb_name)])%list.
Proof.
  unfold Theban.classify_image.
  assert (Hret : forall o : list string, (Ok found, @nil string) = (Ok found', o) ->
                 found' = found \/
                 exists sec entries img_url caption,
                   dict_get Z.eqb found sec = Some entries /\
                   existsb (fun e => String.eqb (Theban.entry_url e) img_url) entries = false /\
                   found' = dict_set Z.eqb found sec
                              (entries ++ [(img_url, caption, tomb_name)])%list)
    by (intros o E; injection E as <- _; now left).
  destruct (effective_src img) as [img_src|]; [|apply Hret].
  destruct (negb (Str.truthy img_src)); [apply Hret|].
  destruct (denylisted img_src); [apply Hret|].
  destruct (image_url H img_src) as [img_url|e]; [|discriminate].
  rewrite bind_lift_ok.
  destruct (img_parent img) as [parent|e]; [|discriminate].
  rewrite bind_lift_ok.
  destruct (Theban.walk_up 3 parent (alt_context img) "") as [img_context context_text].
  destruct (Theban.find_section cfg img_context context_text) as [[sec|] matching_text];
    [|apply Hret].
  destruct (int_truthy (Some sec) && dict_mem Z.eqb (sections cfg) sec); [|apply Hret].
  destruct (dict_get Z.eqb found sec) as [entries|] eqn:Hget; [|discriminate].
  destruct (existsb _ entries) eqn:Hnew; [apply Hret|].
  intros E. right. exists sec, entries, img_url, (Theban.choose_caption matching_text img).
  split; [exact Hget|]. split; [exact Hnew|].
  unfold print in E. destruct (Str.truthy _) in E; cbn in E; injection E as <- _; reflexivity.
Qed.

Lemma dict_get_pair {V} (d : list (Z * V)) (k : Z) (v : V) :
  dict_get Z.eqb d k = Some v -> In (k, v) d.
Proof.
  induction d as [|[k' v'] d IH]; cbn [dict_get]; [discriminate|].
  destruct (Z.eqb_spec k k') as [->|Hne].
  - intros E. injection E as ->. now left.
  - intros E. right. now apply IH.
Qed.

Lemma dict_set_forall {V} (Q : Z * V -> Prop) (d : list (Z * V)) (k : Z) (v : V) :
  Forall Q d -> Q (k, v) -> Forall Q (dict_set Z.eqb d k v).
Proof.
  intros Hd Hq. induction d as [|[k' v'] d IH]; cbn [dict_set].
  - now constructor.
  - inversion Hd as [|? ? Hhd Htl]; subst.
    destruct (Z.eqb_spec k k') as [->|Hne]; constructor; auto.
Qed.

Lemma step_well_formed (H : Host) (cfg : Config) (tomb_name : string) (img : image)
    (found found' : Theban.images_by_section) (out : list string) :
  Theban.classify_image H cfg tomb_name img found = (Ok found', out) ->
  Forall (well_formed tomb_name) found -> Forall (well_formed tomb_name) found'.
Proof.
  intros Hstep Hwf.
  destruct (theban_step_entry _ _ _ _ _ _ _ Hstep)
    as [->|(sec & entries & img_url & caption & Hget & Hnew & ->)]; [exact Hwf|].
  apply dict_set_forall; [exact Hwf|].
  pose proof (dict_get_pair _ _ _ Hget) as Hin.
  rewrite Forall_forall in Hwf. destruct (Hwf _ Hin) as [Hnd Hname].
  unfold well_formed. cbn [snd] in *.
  split.
  - rewrite map_app. cbn [map]. apply NoDup_app; [exact Hnd | repeat constructor; tauto|].
    intros u Hu [E|[]]. cbn [Theban.entry_url fst] in E. subst u.
    apply in_map_iff in Hu. destruct Hu as (e & He & Hine).
    assert (Hex : existsb (fun e => String.eqb (Theban.entry_url e) img_url) entries = true).
    { apply existsb_exists. exists e. split; [exact Hine|]. now apply String.eqb_eq. }
    congruence.
  - intros e He. apply in_app_or in He. destruct He as [He|[<-|[]]]; auto.
Qed.

End PageFacts.

(** X6.  In the result of a page, the URLs listed under one section are
    pairwise distinct, and every entry carries the tomb name extracted from
    that page. *)
Theorem page_entries_distinct (H : Host) (self : Theban.ThebanScraper) (tomb_url : string)
    (response : Response) (found : Theban.images_by_section) (out : list string) :
  session_get H tomb_url = Ok response ->
  Theban.extract_funerary_text_images H self tomb_url = (Ok found, out) ->
  forall sec entries,
    In (sec, entries) found ->
    NoDup (map Theban.entry_url entries) /\
    forall e, In e entries -> snd e = Theban.extract_tomb_name (soup_of response) tomb_url.
Proof.
  intros Hget Hrun sec entries Hin.
  set (tomb_name := Theban.extract_tomb_name (soup_of response) tomb_url).
  assert (Hwf : Forall (well_formed tomb_name) found).
  { unfold Theban.extract_funerary_text_images in Hrun. rewrite Hget in Hrun.
    cbv beta iota zeta delta [bind print lift] in Hrun.
    assert (Hempty : Forall (well_formed tomb_name)
                       (Theban.empty_sections (Theban.config self))).
    { unfold Theban.empty_sections. apply Forall_forall. intros kv Hkv.
      apply in_map_iff in Hkv. destruct Hkv as (x & <- & _).
      split; [constructor | intros e []]. }
    destruct (negb (status_code response =? 200)%Z).
    - cbn in Hrun. injection Hrun as <- _. exact Hempty.
    - destruct (for_each _ _ _) as [[found0|e0] out0] eqn:Hloop; [|discriminate].
      injection Hrun as <- _.
      eapply (ClassifierFacts.for_each_inv (Forall (well_formed tomb_name)));
        [|exact Hloop|exact Hempty].
      intros img st st' o Hstep Hst. eapply PageFacts.step_well_formed; eauto. }
  rewrite Forall_forall in Hwf. exact (Hwf _ Hin).
Qed.

Lemma page_entries_distinct_witness :
  Theban.extract_funerary_text_images MoreSamples.host_twice Samples.amduat_scraper
    Samples.kv9
  = (Ok [(1, []); (2, []); (3, []);
         (4, [("https://thebanmappingproject.com/sites/default/files/kv9/fig1.jpg",
               "Imydwat, fourth hour guardians", "KV 9")]);
         (5, []); (6, []); (7, []); (8, []); (9, []); (10, []); (11, []); (12, [])]%Z,
     ["Analyzing tomb: " ++ Samples.kv9;
      "  Found image for section 4: fig1.jpg";
      "    Caption: Imydwat, fourth hour guardians..."]) /\
  NoDup (map Theban.entry_url
           [("https://thebanmappingproject.com/sites/default/files/kv9/fig1.jpg",
             "Imydwat, fourth hour guardians", "KV 9")]).
Proof.
  split; [reflexivity|].
  refine (proj1 (page_entries_distinct MoreSamples.host_twice Samples.amduat_scraper
                   Samples.kv9 (mkResponse 200 MoreSamples.page_thrice) _ _
                   eq_refl eq_refl 4%Z _ _)).
  cbn. do 3 right. left. reflexivity.
Defined.

(** ** The listing *)

Module ListingFacts.
Import MonadFacts ClassifierFacts.

(** The loop of [get_tombs_list] over the links, from any list [acc] without
    repetition. *)
Lemma links_loop (H : Host) (links : list element) :
  forall (acc tomb_urls : list string) (out : list string),
  for_each links
    (fun link tomb_urls =>
       match tag_get (el_node link) "href" with
       | Some href =>
           tomb_url <- lift (urljoin H base_url href) ;;
           if existsb (String.eqb tomb_url) tomb_urls then ret tomb_urls
           else ret (tomb_urls ++ [tomb_url])%list
       | None => raise (KeyError "href")
       end)
    acc = (Ok tomb_urls, out) ->
  NoDup acc ->
  NoDup tomb_urls /\ out = [] /\
  forall u, In u tomb_urls <->
            In u acc \/
            exists link href,
              In link links /\ tag_get (el_node link) "href" = Some href /\
              urljoin H base_url href = Ok u.
Proof.
  induction links as [|link links IH]; intros acc tomb_urls out Hrun Hnd.
  - cbn in Hrun. injection Hrun as <- <-. split; [exact Hnd|]. split; [reflexivity|].
    intros u. split; [now left|]. intros [Hu|(l & h & [] & _)]. exact Hu.
  - cbn [for_each] in Hrun. apply bind_ok in Hrun.
    destruct Hrun as (acc1 & o1 & o2 & Hstep & Hrest & ->).
    destruct (tag_get (el_node link) "href") as [href|] eqn:Hhref; [|discriminate].
    destruct (urljoin H base_url href) as [tomb_url|e] eqn:Hjoin; [|discriminate].
    rewrite bind_lift_ok in Hstep.
    assert (Hacc1 : o1 = [] /\ NoDup acc1 /\
                    forall u, In u acc1 <-> In u acc \/ u = tomb_url).
    { destruct (existsb (String.eqb tomb_url) acc) eqn:Hseen;
        injection Hstep as <- <-; (split; [reflexivity|]).
      - split; [exact Hnd|]. intros u. split; [now left|]. intros [Hu| ->]; [exact Hu|].
        apply existsb_exists in Hseen. destruct Hseen as (x & Hx & Ex).
        apply String.eqb_eq in Ex. now subst x.
      - split.
        + apply NoDup_app; [exact Hnd | repeat constructor; tauto|].
          intros u Hu [<-|[]].
          assert (Hex : existsb (String.eqb tomb_url) acc = true).
          { apply existsb_exists. exists tomb_url. split; [exact Hu | apply String.eqb_refl]. }
          congruence.
        + intros u. rewrite in_app_iff. cbn [In]. intuition auto. }
    destruct Hacc1 as (-> & Hnd1 & Hin1).
    destruct (IH acc1 tomb_urls o2 Hrest Hnd1) as (Hnd' & -> & Hin').
    split; [exact Hnd'|]. split; [reflexivity|].
    intros u. rewrite Hin', Hin1. split.
    + intros [[Hu| ->]|(l & h & Hl & Hh & Hj)].
      * now left.
      * right. exists link, href. split; [now left | auto].
      * right. exists l, h. split; [now right | auto].
    + intros [Hu|(l & h & [<-|Hl] & Hh & Hj)].
      * left. now left.
      * left. right. rewrite Hhref in Hh. injection Hh as <-. congruence.
      * right. exists l, h. auto.
Qed.

End ListingFacts.

(** X7.  When [get_tombs_list] returns, it has printed nothing and its list
    holds no URL twice; on a listing fetched with status 200 the list holds
    exactly the resolutions of the [href] of the links that match the pattern
    of the tomb pages, and on any other status it is empty. *)
Theorem tombs_list_distinct (H : Host) (response : Response) (tomb_urls : list string)
    (out : list string) :
  session_get H (base_url ++ "/valley-kings") = Ok response ->
  Theban.get_tombs_list H = (Ok tomb_urls, out) ->
  NoDup tomb_urls /\ out = [] /\
  (status_code response <> 200%Z -> tomb_urls = []) /\
  (status_code response = 200%Z ->
   forall u, In u tomb_urls <->
             exists link href,
               In link (find_all (soup_of response) tomb_link) /\
               tag_get (el_node link) "href" = Some href /\
               urljoin H base_url href = Ok u).
Proof.
  intros Hget Hrun. unfold Theban.get_tombs_list in Hrun.
  rewrite Hget, ClassifierFacts.bind_lift_ok in Hrun.
  destruct (Z.eqb_spec (status_code response) 200) as [Hs|Hs].
  - destruct (ListingFacts.links_loop H _ _ _ _ Hrun (NoDup_nil _)) as (Hnd & -> & Hin).
    split; [exact Hnd|]. split; [reflexivity|]. split; [congruence|].
    intros _ u. rewrite Hin. split; [intros [[]|Hu]; exact Hu | now right].
  - injection Hrun as <- <-. split; [constructor|]. split; [reflexivity|].
    split; [reflexivity | congruence].
Qed.

Lemma tombs_list_distinct_witness :
  Theban.get_tombs_list MoreSamples.host_twice = (Ok [Samples.kv17; Samples.kv9], []) /\
  NoDup [Samples.kv17; Samples.kv9].
Proof.
  split; [reflexivity|].
  exact (proj1 (tombs_list_distinct MoreSamples.host_twice
                  (mkResponse 200 MoreSamples.listing_twice)
                  [Samples.kv17; Samples.kv9] [] eq_refl eq_refl)).
Defined.

(** ** The matcher finds only matches *)

Module EngineFacts.
Import Str StrFacts Re ReFacts.

Lemma append_assoc (a b c : string) : (a ++ b) ++ c = a ++ (b ++ c).
Proof. induction a as [|x a IH]; simpl; congruence. Qed.

Lemma length_append (a b : string) :
  String.length (a ++ b) = (String.length a + String.length b)%nat.
Proof. induction a as [|x a IH]; simpl; congruence. Qed.

Lemma take_append (m s : string) :
  take (String.length (m ++ s) - String.length s) (m ++ s) = m.
Proof.
  rewrite length_append. replace (String.length m + String.length s - String.length s)%nat
    with (String.length m) by lia.
  induction m as [|x m IH]; simpl.
  - now destruct s.
  - now rewrite IH.
Qed.

Lemma star_sound {X : Type} (r : regex) :
  @sound X r ->
  forall n s cap (k : string -> option string -> option X) x,
    star_loop (fun s0 c0 k0 => rmatch false r s0 c0 k0) k n s cap = Some x ->
    exists m s' cap', s = m ++ s' /\ mrun (Star r) m cap cap' /\ k s' cap' = Some x.
Proof.
  intros Hr. induction n as [|n IH]; intros s cap k x Hrun.
  - exists EmptyString, s, cap. split; [reflexivity|]. split; [constructor | exact Hrun].
  - cbn [star_loop] in Hrun.
    destruct (rmatch false r s cap _) as [y|] eqn:Hbody.
    + injection Hrun as ->.
      apply Hr in Hbody. destruct Hbody as (m1 & s1 & c1 & -> & Hm1 & Hk).
      destruct (String.length s1 <? String.length (m1 ++ s1))%nat; [|discriminate].
      apply IH in Hk. destruct Hk as (m2 & s2 & c2 & -> & Hm2 & Hk).
      exists (m1 ++ m2), s2, c2. split; [now rewrite append_assoc|].
      split; [econstructor; eauto | exact Hk].
    + exists EmptyString, s, cap. split; [reflexivity|]. split; [constructor | exact Hrun].
Qed.

Theorem rmatch_sound {X : Type} (r : regex) : @sound X r.
Proof.
  induction r as [|a|f|r1 IH1 r2 IH2|r1 IH1 r2 IH2|r1 IH1|r1 IH1];
    intros s cap k x Hrun; cbn [rmatch] in Hrun.
  - exists EmptyString, s, cap. split; [reflexivity|]. split; [constructor | exact Hrun].
  - destruct s as [|d s]; [discriminate|]. cbn [lit_eq] in Hrun.
    destruct (Ascii.eqb_spec a d) as [<-|Hne]; [|discriminate].
    exists (String a EmptyString), s, cap. split; [reflexivity|].
    split; [constructor | exact Hrun].
  - destruct s as [|d s]; [discriminate|]. cbn [cls_in] in Hrun.
    destruct (f d) eqn:Hf; [|discriminate].
    exists (String d EmptyString), s, cap. split; [reflexivity|].
    split; [now constructor | exact Hrun].
  - apply IH1 in Hrun. destruct Hrun as (m1 & s1 & c1 & -> & Hm1 & Hk).
    apply IH2 in Hk. destruct Hk as (m2 & s2 & c2 & -> & Hm2 & Hk).
    exists (m1 ++ m2), s2, c2. split; [now rewrite append_assoc|].
    split; [econstructor; eauto | exact Hk].
  - destruct (rmatch false r1 s cap k) as [y|] eqn:Hleft.
    + injection Hrun as ->. apply IH1 in Hleft.
      destruct Hleft as (m & s' & c' & -> & Hm & Hk).
      exists m, s', c'. split; [reflexivity|]. split; [now apply mrun_alt_l | exact Hk].
    + apply IH2 in Hrun. destruct Hrun as (m & s' & c' & -> & Hm & Hk).
      exists m, s', c'. split; [reflexivity|]. split; [now apply mrun_alt_r | exact Hk].
  - eapply star_sound; eauto.
  - apply IH1 in Hrun. destruct Hrun as (m & s' & c' & -> & Hm & Hk).
    rewrite take_append in Hk.
    exists m, s', (Some m). split; [reflexivity|]. split; [econstructor; eauto | exact Hk].
Qed.

Lemma match_at_sound (r : regex) (s rest : string) (cap : option string) :
  match_at false r s = Some (rest, cap) ->
  exists m, s = m ++ rest /\ mrun r m None cap.
Proof.
  unfold match_at. intros Hrun. apply rmatch_sound in Hrun.
  destruct Hrun as (m & s' & c' & -> & Hm & Hk). injection Hk as <- <-. eauto.
Qed.

Lemma search_sound (r : regex) (s : string) (cap : option string) :
  search r s = Some cap ->
  exists before m rest, s = before ++ m ++ rest /\ mrun r m None cap.
Proof.
  unfold search. destruct (search_from false r s) as [[rest cap']|] eqn:Hs; [|discriminate].
  cbn. intros E. injection E as <-. revert Hs.
  induction s as [|c s IH]; cbn [search_from].
  - destruct (match_at false r "") as [[rest0 cap0]|] eqn:Hm; [|discriminate].
    intros E. injection E as -> ->. apply match_at_sound in Hm.
    destruct Hm as (m & Hs & Hrun). exists EmptyString, m, rest. auto.
  - destruct (match_at false r (String c s)) as [[rest0 cap0]|] eqn:Hm.
    + intros E. injection E as -> ->. apply match_at_sound in Hm.
      destruct Hm as (m & Hs & Hrun). exists EmptyString, m, rest. auto.
    + intros Hs. destruct (IH Hs) as (before & m & rest' & -> & Hrun).
      exists (String c before), m, rest'. auto.
Qed.

(** Every group [re.findall] returns comes from a match inside the text. *)
Lemma findall_go_sound (r : regex) (s : string) :
  forall skip g,
    In g (findall_go false r s skip) ->
    exists before m rest cap, s = before ++ m ++ rest /\ mrun r m None cap /\ g = group1 cap.
Proof.
  induction s as [|c s IH]; intros skip g Hin.
  - destruct skip as [|n]; cbn [findall_go] in Hin; [|contradiction].
    destruct (match_at false r "") as [[rest cap]|] eqn:Hm; [|contradiction].
    destruct Hin as [<-|[]]. apply match_at_sound in Hm. destruct Hm as (m & Hs & Hrun).
    exists EmptyString, m, rest, cap. auto.
  - destruct skip as [|n]; cbn [findall_go] in Hin.
    + destruct (match_at false r (String c s)) as [[rest cap]|] eqn:Hm.
      * destruct Hin as [<-|Hin].
        -- apply match_at_sound in Hm. destruct Hm as (m & Hs & Hrun).
           exists EmptyString, m, rest, cap. auto.
        -- destruct (IH _ _ Hin) as (before & m & rest' & cap' & -> & Hrun & ->).
           exists (String c before), m, rest', cap'. auto.
      * destruct (IH _ _ Hin) as (before & m & rest' & cap' & -> & Hrun & ->).
        exists (String c before), m, rest', cap'. auto.
    + destruct (IH _ _ Hin) as (before & m & rest' & cap' & -> & Hrun & ->).
      exists (String c before), m, rest', cap'. auto.
Qed.

Lemma findall_sound (r : regex) (s g : string) :
  In g (findall r s) ->
  exists before m rest cap, s = before ++ m ++ rest /\ mrun r m None cap /\ g = group1 cap.
Proof. apply findall_go_sound. Qed.

(** *** Reading a match back *)

Lemma run_word (w m : string) (c c' : option string) :
  mrun (Word w) m c c' -> m = w /\ c' = c.
Proof.
  revert m c c'. induction w as [|a w IH]; intros m c c' Hrun.
  - cbn in Hrun. inversion Hrun; subst. now split.
  - destruct w as [|b w].
    + cbn in Hrun. inversion Hrun; subst. now split.
    + change (Word (String a (String b w))) with (Cat (Lit a) (Word (String b w))) in Hrun.
      inversion Hrun as [| | |r1 r2 m1 m2 c0 c1 c2 H1 H2| | | | |]; subst.
      inversion H1; subst. apply IH in H2. destruct H2 as [-> ->]. now split.
Qed.

Lemma run_seq_in (l : list regex) (r : regex) :
  In r l ->
  forall m c c', mrun (Seq l) m c c' ->
  exists before mid rest c1 c2, m = before ++ mid ++ rest /\ mrun r mid c1 c2.
Proof.
  induction l as [|r0 l IH]; intros Hin m c c' Hrun; [contradiction|].
  destruct l as [|r1 l].
  - destruct Hin as [->|[]]. cbn in Hrun.
    exists EmptyString, m, EmptyString, c, c'. split; [|exact Hrun].
    cbn. now rewrite append_empty.
  - change (Seq (r0 :: r1 :: l)) with (Cat r0 (Seq (r1 :: l))) in Hrun.
    inversion Hrun as [| | |? ? m1 m2 c0 c1 c2 H1 H2| | | | |]; subst.
    destruct Hin as [->|Hin].
    + exists EmptyString, m1, m2, c, c1. auto.
    + destruct (IH Hin _ _ _ H2) as (before & mid & rest & d1 & d2 & -> & Hmid).
      exists (m1 ++ before), mid, rest, d1, d2. split; [|exact Hmid].
      now rewrite append_assoc.
Qed.

(** A pattern that is a sequence with a literal word in it finds nothing in a
    text that does not hold the word. *)
Lemma findall_needs_word (l : list regex) (w s : string) :
  In (Word w) l -> contains w s = false -> findall (Seq l) s = [].
Proof.
  intros Hin Hno. destruct (findall (Seq l) s) as [|g gs] eqn:Hall; [reflexivity|].
  exfalso.
  destruct (findall_sound (Seq l) s g) as (before & m & rest & cap & -> & Hrun & _);
    [rewrite Hall; now left|].
  destruct (run_seq_in l (Word w) Hin _ _ _ Hrun) as (b & mid & r' & c1 & c2 & -> & Hmid).
  apply run_word in Hmid. destruct Hmid as [-> _].
  assert (Hyes : contains w (before ++ (b ++ w ++ r') ++ rest) = true).
  { apply SourceFacts.contains_app_l, SourceFacts.contains_app_r,
          SourceFacts.contains_app_l, SourceFacts.contains_app_r.
    rewrite <- (append_empty w) at 2. apply contains_prefix. }
  congruence.
Qed.

(** The text of a group [(c+)] over a class: not empty, all in the class. *)
Lemma run_star_cls (f : ascii -> bool) (m : string) (c c' : option string) :
  mrun (Star (Cls f)) m c c' -> forallb f m = true /\ c' = c.
Proof.
  intros Hrun. remember (Star (Cls f)) as r eqn:Hr. revert Hr.
  induction Hrun as [| | | | | |r0 c0|r0 m1 m2 c0 c1 c2 H1 _ H2 IH2|]; intros Hr;
    try discriminate.
  - now split.
  - injection Hr as ->. inversion H1 as [| |? a ? Ha| | | | | |]; subst.
    destruct (IH2 eq_refl) as [Hm2 ->]. split; [|reflexivity].
    cbn. now rewrite Ha, Hm2.
Qed.

Lemma run_plus_cls (f : ascii -> bool) (m : string) (c c' : option string) :
  mrun (Plus (Cls f)) m c c' -> m <> EmptyString /\ forallb f m = true /\ c' = c.
Proof.
  unfold Plus. intros Hrun.
  inversion Hrun as [| | |? ? m1 m2 c0 c1 c2 H1 H2| | | | |]; subst.
  inversion H1 as [| |? a ? Ha| | | | | |]; subst.
  apply run_star_cls in H2. destruct H2 as [Hm2 ->].
  split; [discriminate|]. split; [|reflexivity]. cbn. now rewrite Ha, Hm2.
Qed.

(** A pattern [word(c+)]: what the group holds when the search succeeds. *)
Lemma search_word_group (w : string) (f : ascii -> bool) (s : string)
    (cap : option string) :
  search (Seq [Word w; Grp (Plus (Cls f))]) s = Some cap ->
  exists g, cap = Some g /\ g <> EmptyString /\ forallb f g = true.
Proof.
  intros Hs. apply search_sound in Hs. destruct Hs as (before & m & rest & _ & Hrun).
  cbn [Seq] in Hrun.
  inversion Hrun as [| | |? ? m1 m2 c0 c1 c2 H1 H2| | | | |]; subst.
  inversion H2 as [| | | | | | | |? ? ? c3 H3]; subst.
  apply run_plus_cls in H3. destruct H3 as (Hne & Hall & _).
  exists m2. auto.
Qed.

End EngineFacts.

(** ** What the patterns need *)

Module AnchorFacts.
Import Re EngineFacts.

Lemma theban_scan_nothing (cfg : Config) (pats : list regex) (img_context context_text : string) :
  (forall q, In q pats -> findall q img_context = []) ->
  Theban.scan_patterns cfg pats img_context context_text (None, "") = (None, "").
Proof.
  induction pats as [|q pats IH]; intros Hall; [reflexivity|].
  cbn [Theban.scan_patterns]. rewrite (Hall q (or_introl eq_refl)).
  cbn [Theban.scan_matches fst int_truthy]. apply IH. intros q' Hq'. apply Hall. now right.
Qed.

Lemma amduat_scan_nothing (mapping : list (string * Z)) (pats : list regex)
    (img_context : string) :
  (forall q, In q pats -> findall q img_context = []) ->
  Amduat.scan_patterns mapping pats img_context None = None.
Proof.
  induction pats as [|q pats IH]; intros Hall; [reflexivity|].
  cbn [Amduat.scan_patterns]. rewrite (Hall q (or_introl eq_refl)).
  cbn [Amduat.scan_matches int_truthy]. apply IH. intros q' Hq'. apply Hall. now right.
Qed.

Lemma amduat_patterns_need_hour (img_context : string) :
  Str.contains "hour" img_context = false ->
  forall q, In q (patterns amduat_config) -> findall q img_context = [].
Proof.
  intros Hno q Hq.
  change (patterns amduat_config)
    with [Patterns.amduat_1; Patterns.amduat_2; Patterns.amduat_3; Patterns.amduat_4] in Hq.
  cbn [In] in Hq.
  destruct Hq as [<-|[<-|[<-|[<-|[]]]]];
    [unfold Patterns.amduat_1 | unfold Patterns.amduat_2
     | unfold Patterns.amduat_3 | unfold Patterns.amduat_4];
    apply (findall_needs_word _ "hour"); auto; cbn; tauto.
Qed.

Lemma caverns_patterns_need_caverns (img_context : string) :
  Str.contains "caverns" img_context = false ->
  forall q, In q (patterns caverns_config) -> findall q img_context = [].
Proof.
  intros Hno q Hq.
  change (patterns caverns_config)
    with [Patterns.caverns_1; Patterns.caverns_2; Patterns.caverns_3] in Hq.
  cbn [In] in Hq.
  destruct Hq as [<-|[<-|[<-|[]]]];
    [unfold Patterns.caverns_1 | unfold Patterns.caverns_2 | unfold Patterns.caverns_3];
    apply (findall_needs_word _ "caverns"); auto; cbn; tauto.
Qed.

End AnchorFacts.

(** X8.  No section without the anchor word.  Every pattern of the Amduat
    holds the literal word "hour" and every pattern of the Book of Caverns the
    literal word "caverns": on a context string without that word the pattern
    loop finds no section and no caption, for [ThebanScraper] and for
    [AmduatScraper] alike. *)
Theorem no_anchor_no_section (img_context context_text : string) :
  (Str.contains "hour" img_context = false ->
   Theban.find_section amduat_config img_context context_text = (None, "") /\
   Amduat.find_hour img_context = None) /\
  (Str.contains "caverns" img_context = false ->
   Theban.find_section caverns_config img_context context_text = (None, "")).
Proof.
  split.
  - intros Hno. split.
    + apply AnchorFacts.theban_scan_nothing.
      now apply AnchorFacts.amduat_patterns_need_hour.
    + apply AnchorFacts.amduat_scan_nothing.
      now apply AnchorFacts.amduat_patterns_need_hour.
  - intros Hno. apply AnchorFacts.theban_scan_nothing.
    now apply AnchorFacts.caverns_patterns_need_caverns.
Qed.

Lemma no_anchor_no_section_witness :
  Theban.find_section amduat_config "amduat, the fourth gate of the night" "" = (None, "") /\
  Theban.find_section caverns_config "the sixth division of the book of gates" ""
  = (None, "").
Proof.
  split.
  - apply (proj1 (no_anchor_no_section "amduat, the fourth gate of the night" "")).
    reflexivity.
  - apply (proj2 (no_anchor_no_section "the sixth division of the book of gates" "")).
    reflexivity.
Defined.

(** ** The tomb name *)

Module NameFacts.
Import Str.

Lemma map_truthy (f : ascii -> ascii) (s : string) : truthy (Str.map f s) = truthy s.
Proof. now destruct s. Qed.

Lemma title_truthy (s : string) : truthy (title s) = truthy s.
Proof. now destruct s. Qed.

Lemma slug_name_truthy (tomb_url : string) :
  truthy (match Re.search Patterns.tomb_slug tomb_url with
          | Some g => title (replace_char "-" " " (Re.group1 g))
          | None => "Unknown_Tomb"
          end) = true.
Proof.
  destruct (Re.search Patterns.tomb_slug tomb_url) as [cap|] eqn:Hs; [|reflexivity].
  unfold Patterns.tomb_slug, Re.none_of in Hs.
  apply EngineFacts.search_word_group in Hs. destruct Hs as (g & -> & Hne & _).
  unfold replace_char. rewrite title_truthy, map_truthy. cbn. now destruct g.
Qed.

End NameFacts.

(** X9.  [extract_tomb_name] never returns the empty string: a title or a
    heading is used only when some text is left of it, the name taken from the
    URL has at least one character, and the last resort is "Unknown_Tomb". *)
Theorem tomb_name_never_empty (soup : node) (tomb_url : string) :
  Str.truthy (Theban.extract_tomb_name soup tomb_url) = true.
Proof.
  unfold Theban.extract_tomb_name.
  pose proof (NameFacts.slug_name_truthy tomb_url) as Hurl.
  set (from_url := match Re.search Patterns.tomb_slug tomb_url with
                   | Some g => _ | None => _ end) in *.
  assert (Hh1 : Str.truthy
            (match find soup "h1" with
             | Some h1_elem =>
                 if Str.truthy (get_text_strip (el_node h1_elem))
                 then get_text_strip (el_node h1_elem) else from_url
             | None => from_url
             end) = true).
  { destruct (find soup "h1") as [h1|]; [|exact Hurl].
    destruct (Str.truthy (get_text_strip (el_node h1))) eqn:Ht; [exact Ht | exact Hurl]. }
  destruct (find soup "title") as [title_elem|]; [|exact Hh1].
  destruct (Str.truthy _ && _) eqn:Hguard; [|exact Hh1].
  apply andb_true_iff in Hguard. tauto.
Qed.

(** ** File names *)

Module FileNameFacts.
Import Str StrFacts ReFacts.

Lemma forallb_app (p : ascii -> bool) (a b : string) :
  forallb p (a ++ b) = forallb p a && forallb p b.
Proof. induction a as [|c a IH]; simpl; [reflexivity|]. now rewrite IH, andb_assoc. Qed.

Lemma split_by_not_nil (f : ascii -> bool) (s : string) : split_by f s <> [].
Proof.
  induction s as [|c s IH]; cbn [split_by]; [discriminate|].
  destruct (f c); [discriminate|]. now destruct (split_by f s).
Qed.

(** The pieces of a split keep what holds of every character of the text. *)
Lemma split_keeps (p f : ascii -> bool) (s : string) :
  forallb p s = true -> Forall (fun w => forallb p w = true) (split_by f s).
Proof.
  induction s as [|c s IH]; cbn [split_by forallb].
  - intros _. now repeat constructor.
  - rewrite andb_true_iff. intros [Hc Hs]. specialize (IH Hs).
    destruct (f c); [now constructor|].
    destruct (split_by f s) as [|w ws]; [now repeat (constructor; cbn; rewrite ?Hc)|].
    inversion IH; subst. constructor; [cbn; now rewrite Hc | assumption].
Qed.

(** No piece of a split holds a separator. *)
Lemma split_clean (f : ascii -> bool) (s : string) :
  Forall (fun w => forallb (fun c => negb (f c)) w = true) (split_by f s).
Proof.
  induction s as [|c s IH]; cbn [split_by]; [now repeat constructor|].
  destruct (f c) eqn:Hc; [now constructor|].
  destruct (split_by f s) as [|w ws]; [now repeat (constructor; cbn; rewrite ?Hc)|].
  inversion IH; subst. constructor; [cbn; now rewrite Hc | assumption].
Qed.

Lemma split_whole (f : ascii -> bool) (s : string) :
  forallb (fun c => negb (f c)) s = true -> split_by f s = [s].
Proof.
  induction s as [|c s IH]; cbn [split_by forallb]; [reflexivity|].
  rewrite andb_true_iff, negb_true_iff. intros [Hc Hs]. now rewrite Hc, IH.
Qed.

(** Splitting around a separator. *)
Lemma split_app (f : ascii -> bool) (a b : string) (sep : ascii) :
  f sep = true ->
  split_by f (a ++ String sep b) = (split_by f a ++ split_by f b)%list.
Proof.
  intros Hsep. induction a as [|c a IH]; cbn [append split_by].
  - now rewrite Hsep.
  - rewrite IH. destruct (f c); [reflexivity|].
    pose proof (split_by_not_nil f a) as Hne.
    destruct (split_by f a) as [|w ws]; [congruence | reflexivity].
Qed.

Lemma last_forall {A} (P : A -> Prop) (l : list A) (d : A) :
  Forall P l -> P d -> P (last l d).
Proof.
  intros Hl Hd. induction Hl as [|x l Hx Hl IH]; [exact Hd|].
  destruct l; [exact Hx | exact IH].
Qed.

Lemma basename_no_slash (path : string) : forallb no_slash (basename path) = true.
Proof.
  unfold basename. apply (last_forall (fun w => forallb no_slash w = true));
    [apply (split_clean (Ascii.eqb "/")) | reflexivity].
Qed.

(** [os.path.basename] gives back a name without slash appended to a
    directory. *)
Lemma basename_of_dir_name (dir nm : string) :
  forallb no_slash nm = true -> basename (dir ++ String "/" nm) = nm.
Proof.
  intros Hnm. unfold basename.
  rewrite (split_app (Ascii.eqb "/") dir nm "/" eq_refl).
  rewrite (split_whole (Ascii.eqb "/") nm Hnm).
  now rewrite last_last.
Qed.

(** *** Reversal *)

Lemma rev_onto_app (s acc : string) : rev_onto s acc = rev s ++ acc.
Proof.
  unfold rev. revert acc. induction s as [|c s IH]; intros acc; [reflexivity|].
  cbn [rev_onto]. rewrite IH, (IH (String c EmptyString)).
  now rewrite EngineFacts.append_assoc.
Qed.

Lemma rev_cons (c : ascii) (s : string) : rev (String c s) = rev s ++ String c EmptyString.
Proof. unfold rev at 1. cbn [rev_onto]. apply rev_onto_app. Qed.

Lemma rev_app (a b : string) : rev (a ++ b) = rev b ++ rev a.
Proof.
  induction a as [|c a IH]; cbn [append].
  - now rewrite append_empty.
  - now rewrite !rev_cons, IH, EngineFacts.append_assoc.
Qed.

Lemma rev_rev (s : string) : rev (rev s) = s.
Proof.
  induction s as [|c s IH]; [reflexivity|].
  rewrite rev_cons, rev_app, IH. reflexivity.
Qed.

Lemma ends_with_slash (dir : string) :
  String.prefix "/" (rev dir) = true -> exists d, dir = d ++ "/".
Proof.
  destruct (rev dir) as [|c t] eqn:Hrev; [discriminate|].
  rewrite prefix_char. intros Hc. apply Ascii.eqb_eq in Hc. subst c.
  exists (rev t). rewrite <- (rev_rev dir), Hrev, rev_cons. reflexivity.
Qed.

(** *** The parts of a file name *)

Lemma digit_no_slash (s : string) : forallb is_digit s = true -> forallb no_slash s = true.
Proof.
  apply forallb_impl. intros c Hc. unfold no_slash.
  destruct (Ascii.eqb_spec "/" c) as [<-|]; [discriminate | reflexivity].
Qed.

Lemma safe_no_slash (s : string) : forallb safe s = true -> forallb no_slash s = true.
Proof.
  apply forallb_impl. intros c Hc. unfold no_slash.
  destruct (Ascii.eqb_spec "/" c) as [<-|]; [discriminate | reflexivity].
Qed.

Lemma uint_digits (d : Decimal.uint) :
  forallb is_digit (NilEmpty.string_of_uint d) = true.
Proof. induction d; cbn [NilEmpty.string_of_uint forallb]; auto. Qed.

Lemma of_nat_digits (n : nat) : forallb is_digit (of_nat n) = true.
Proof.
  unfold of_nat, of_Z. destruct (Z.of_nat n) as [|p|p] eqn:Hn; [reflexivity| |lia].
  cbn [Z.to_int NilZero.string_of_int]. unfold NilZero.string_of_uint.
  destruct (Pos.to_uint p); try reflexivity; apply uint_digits.
Qed.

Lemma sanitized_safe (text : string) :
  forallb safe (Theban.sanitize_filename text Theban.default_max_length) = true /\
  truthy (Theban.sanitize_filename text Theban.default_max_length) = true.
Proof.
  rewrite SanitizeFacts.sanitize_unfold.
  destruct (SanitizeFacts.body_safe text) as (Hsafe & _ & _).
  destruct (truthy (sanitized_body text Theban.default_max_length)) eqn:Ht.
  - now split.
  - now split.
Qed.

Lemma prefix_no_slash (img_url : string) :
  forallb no_slash
    (match Re.search Patterns.kv_number img_url with
     | Some g => "kv" ++ Re.group1 g ++ "_"
     | None => ""
     end) = true.
Proof.
  destruct (Re.search Patterns.kv_number img_url) as [cap|] eqn:Hs; [|reflexivity].
  unfold Patterns.kv_number, Re.digit in Hs.
  apply EngineFacts.search_word_group in Hs. destruct Hs as (g & -> & _ & Hg).
  cbn [Re.group1]. rewrite !forallb_app, (digit_no_slash g Hg). reflexivity.
Qed.

Lemma base_filename_no_slash (img_url : string) :
  forallb no_slash (hd "" (Str.split_by (Ascii.eqb "?") (basename img_url))) = true.
Proof.
  pose proof (split_keeps no_slash (Ascii.eqb "?") _ (basename_no_slash img_url)) as Hall.
  destruct (split_by (Ascii.eqb "?") (basename img_url)); [reflexivity|].
  now inversion Hall.
Qed.

Lemma extension_no_slash (nm : string) :
  forallb no_slash nm = true -> forallb no_slash (splitext_ext nm) = true.
Proof.
  intros Hnm. unfold splitext_ext.
  pose proof (split_keeps no_slash (Ascii.eqb ".") _
                (forallb_lstrip no_slash (Ascii.eqb ".") nm Hnm)) as Hall.
  apply Forall_rev in Hall.
  destruct (List.rev _) as [|ext [|w ws]]; try reflexivity.
  inversion Hall; subst. cbn [append forallb]. assumption.
Qed.

Lemma truthy_app_r (a b : string) : truthy b = true -> truthy (a ++ b) = true.
Proof. destruct a; [trivial | reflexivity]. Qed.

Lemma truthy_app_l (a b : string) : truthy a = true -> truthy (a ++ b) = true.
Proof. now destruct a. Qed.

End FileNameFacts.

(** X10.  The file name derived for an image is never empty and holds no
    slash, so the path built from it lies directly in the section folder and
    [os.path.basename] of that path, the name printed after a download, is the
    file name itself. *)
Theorem image_filename_flat (idx : nat) (img_url caption tomb_name section_dir : string) :
  Str.contains "/" (Theban.image_filename idx img_url caption tomb_name) = false /\
  Str.truthy (Theban.image_filename idx img_url caption tomb_name) = true /\
  basename (path_join section_dir (Theban.image_filename idx img_url caption tomb_name))
  = Theban.image_filename idx img_url caption tomb_name.
Proof.
  set (filename := Theban.image_filename idx img_url caption tomb_name).
  assert (Hflat : Str.forallb no_slash filename = true
                  /\ Str.truthy filename = true).
  { subst filename. unfold Theban.image_filename.
    pose proof (FileNameFacts.prefix_no_slash img_url) as Hprefix.
    pose proof (FileNameFacts.base_filename_no_slash img_url) as Hbase.
    pose proof (FileNameFacts.extension_no_slash _ Hbase) as Hext.
    destruct (FileNameFacts.sanitized_safe tomb_name) as [Htomb Htomb'].
    destruct (FileNameFacts.sanitized_safe caption) as [Hcap _].
    apply FileNameFacts.safe_no_slash in Htomb, Hcap.
    set (prefix := match Re.search Patterns.kv_number img_url with
                   | Some g => _ | None => _ end) in *.
    set (base_filename := hd "" _) in *.
    assert (Hextension : Str.forallb no_slash
              (if Str.truthy (splitext_ext base_filename)
               then splitext_ext base_filename else ".jpg") = true)
      by (destruct (Str.truthy (splitext_ext base_filename)); [exact Hext | reflexivity]).
    destruct (Str.truthy caption); [|destruct (Str.truthy base_filename)];
      (split;
       [ rewrite !FileNameFacts.forallb_app, ?Hprefix, ?Htomb, ?Hcap, ?Hbase, ?Hextension,
           ?(FileNameFacts.digit_no_slash _ (FileNameFacts.of_nat_digits idx));
         reflexivity
       | apply FileNameFacts.truthy_app_r, FileNameFacts.truthy_app_l; exact Htomb' ]). }
  destruct Hflat as [Hns Hne].
  split; [|split; [exact Hne|]].
  - rewrite ReFacts.contains_char. apply StrFacts.existsb_false_forallb. exact Hns.
  - unfold path_join.
    assert (Hnot : String.prefix "/" filename = false).
    { destruct filename as [|c t]; [discriminate|]. rewrite ReFacts.prefix_char.
      cbn in Hns. apply andb_true_iff in Hns. destruct Hns as [Hc _].
      unfold no_slash in Hc. now apply negb_true_iff in Hc. }
    rewrite Hnot.
    destruct (Str.truthy section_dir) eqn:Hdir; cbn [negb orb].
    + destruct (String.prefix "/" (Str.rev section_dir)) eqn:Hend.
      * destruct (FileNameFacts.ends_with_slash _ Hend) as [d ->].
        rewrite EngineFacts.append_assoc. cbn [append].
        now apply FileNameFacts.basename_of_dir_name.
      * now apply FileNameFacts.basename_of_dir_name.
    + destruct section_dir; [|discriminate]. cbn [append]. unfold basename.
      now rewrite (FileNameFacts.split_whole (Ascii.eqb "/") filename Hns).
Qed.

(** ** Sanitizing twice *)

Module ResanitizeFacts.
Import Str StrFacts ReFacts SanitizeFacts.













End ResanitizeFacts.



(** ** What the first pattern of the Amduat recognizes *)

Module RecognitionFacts.
Import Str StrFacts Re ReFacts.





End RecognitionFacts.



(** ** The two scripts on the Amduat *)

Module AgreementFacts.
Import MonadFacts ClassifierFacts.

Lemma hours_are_sections (h : Z) :
  dict_mem Z.eqb (sections amduat_config) h = ((1 <=? h) && (h <=? 12))%Z.
Proof.
  unfold dict_mem. cbn [sections amduat_config dict_get].
  repeat match goal with
         | |- context [Z.eqb h ?k] =>
             destruct (Z.eqb_spec h k) as [->|?]; [reflexivity|]
         end.
  symmetry. apply andb_false_iff.
  destruct (Z.leb_spec 1 h); [|now left]. right. apply Z.leb_gt. lia.
Qed.

Lemma walk_up_same (n : nat) (parent : option element) (img_context context_text : string) :
  Amduat.walk_up n parent img_context
  = fst (Theban.walk_up n parent img_context context_text).
Proof.
  revert parent img_context context_text.
  induction n as [|n IH]; intros parent img_context context_text; [reflexivity|].
  cbn [Amduat.walk_up Theban.walk_up]. destruct parent as [p|]; apply IH.
Qed.

Lemma scan_patterns_same (cfg : Config) (pats : list Re.regex)
    (img_context context_text : string) (st : option Z * string) :
  Amduat.scan_patterns (section_mapping cfg) pats img_context (fst st)
  = fst (Theban.scan_patterns cfg pats img_context context_text st).
Proof.
  revert st. induction pats as [|q pats IH]; intros st; [reflexivity|].
  cbn [Amduat.scan_patterns Theban.scan_patterns].
  rewrite PatternFacts.amduat_scan_matches.
  rewrite <- (PatternFacts.theban_scan_matches cfg context_text).
  destruct (int_truthy _); [reflexivity | apply IH].
Qed.

Lemma find_hour_same (img_context context_text : string) :
  Amduat.find_hour img_context
  = fst (Theban.find_section amduat_config img_context context_text).
Proof.
  unfold Amduat.find_hour, Theban.find_section.
  exact (scan_patterns_same amduat_config _ img_context context_text (None, "")).
Qed.

Lemma urls_only_get (found : Theban.images_by_section) (sec : Z) :
  dict_get Z.eqb (urls_only found) sec
  = option_map (map Theban.entry_url) (dict_get Z.eqb found sec).
Proof.
  induction found as [|[k v] found IH]; [reflexivity|].
  cbn [urls_only map dict_get fst snd]. destruct (Z.eqb sec k); [reflexivity | exact IH].
Qed.

Lemma urls_only_set (found : Theban.images_by_section) (sec : Z) (entries : list Theban.entry) :
  dict_get Z.eqb found sec <> None ->
  dict_set Z.eqb (urls_only found) sec (map Theban.entry_url entries)
  = urls_only (dict_set Z.eqb found sec entries).
Proof.
  induction found as [|[k v] found IH]; intros Hget; [now cbn in Hget|].
  cbn [urls_only map dict_set dict_get fst snd] in *.
  destruct (Z.eqb sec k); [reflexivity|]. cbn [map fst snd]. f_equal. now apply IH.
Qed.

Lemma seen_same (img_url : string) (entries : list Theban.entry) :
  existsb (String.eqb img_url) (map Theban.entry_url entries)
  = existsb (fun e => String.eqb (Theban.entry_url e) img_url) entries.
Proof.
  induction entries as [|e entries IH]; [reflexivity|].
  cbn [map existsb]. now rewrite IH, String.eqb_sym.
Qed.

(** One image: the step of [extract_amduat_images] is the step of
    [extract_funerary_text_images] on the Amduat, captions and tomb names
    apart. *)
Lemma step_same (H : Host) (tomb_name : string) (img : image)
    (found : Theban.images_by_section) :
  fst (Amduat.classify_image H img (urls_only found))
  = outcome_map urls_only (fst (Theban.classify_image H amduat_config tomb_name img found)).
Proof.
  unfold Amduat.classify_image, Theban.classify_image.
  destruct (effective_src img) as [img_src|]; [|reflexivity].
  destruct (negb (Str.truthy img_src)); [reflexivity|].
  destruct (denylisted img_src); [reflexivity|].
  destruct (image_url H img_src) as [img_url|e]; [|reflexivity].
  rewrite !bind_lift_ok.
  destruct (img_parent img) as [parent|e]; [|reflexivity].
  rewrite !bind_lift_ok.
  rewrite (walk_up_same 3 parent (alt_context img) "").
  destruct (Theban.walk_up 3 parent (alt_context img) "") as [img_context context_text].
  cbn [fst]. rewrite (find_hour_same img_context context_text).
  destruct (Theban.find_section amduat_config img_context context_text)
    as [[sec|] matching_text]; [|reflexivity].
  cbn [fst]. rewrite hours_are_sections, andb_assoc.
  destruct (int_truthy (Some sec) && (1 <=? sec)%Z && (sec <=? 12)%Z); [|reflexivity].
  rewrite urls_only_get.
  destruct (dict_get Z.eqb found sec) as [entries|] eqn:Hget; [|reflexivity].
  cbn [option_map]. rewrite seen_same.
  destruct (existsb _ entries); [reflexivity|].
  unfold print. destruct (Str.truthy (Theban.choose_caption matching_text img));
    cbn [bind ret fst outcome_map];
    rewrite <- urls_only_set by congruence;
    now rewrite map_app.
Qed.

Lemma loop_same (H : Host) (tomb_name : string) (images : list image) :
  forall found,
    fst (for_each images (Amduat.classify_image H) (urls_only found))
    = outcome_map urls_only
        (fst (for_each images (Theban.classify_image H amduat_config tomb_name) found)).
Proof.
  induction images as [|img images IH]; intros found; [reflexivity|].
  cbn [for_each]. pose proof (step_same H tomb_name img found) as Hstep.
  destruct (Theban.classify_image H amduat_config tomb_name img found) as [[found1|e] o1].
  - destruct (Amduat.classify_image H img (urls_only found)) as [r o2].
    cbn [fst outcome_map] in Hstep. subst r. cbn [bind].
    specialize (IH found1).
    destruct (for_each images (Amduat.classify_image H) (urls_only found1)) as [r2 o3].
    destruct (for_each images (Theban.classify_image H amduat_config tomb_name) found1)
      as [r3 o4]. exact IH.
  - destruct (Amduat.classify_image H img (urls_only found)) as [r o2].
    cbn [fst outcome_map] in Hstep. subst r. reflexivity.
Qed.

End AgreementFacts.

(** X13.  On the Amduat the two scripts classify alike: whatever the host and
    the page, [extract_amduat_images] returns the sections that
    [extract_funerary_text_images] returns, with the same URLs in the same
    order and without captions and tomb names, and it raises when, and what,
    the other raises. *)
Theorem scripts_agree_on_amduat (H : Host) (tomb_url : string) :
  fst (Amduat.extract_amduat_images H tomb_url)
  = outcome_map urls_only
      (fst (Theban.extract_funerary_text_images H
              (Theban.mkScraper "amduat" amduat_config) tomb_url)).
Proof.
  unfold Amduat.extract_amduat_images, Theban.extract_funerary_text_images.
  cbv beta iota zeta delta [bind print lift Theban.config].
  destruct (session_get H tomb_url) as [response|e]; [|reflexivity].
  destruct (negb (status_code response =? 200)%Z); [reflexivity|].
  pose proof (AgreementFacts.loop_same H
                (Theban.extract_tomb_name (soup_of response) tomb_url)
                (collect_images (soup_of response))
                (Theban.empty_sections amduat_config)) as Hloop.
  change (urls_only (Theban.empty_sections amduat_config)) with Amduat.empty_hours in Hloop.
  destruct (for_each _ (Amduat.classify_image H) _) as [r1 o1].
  destruct (for_each _ (Theban.classify_image H amduat_config _) _) as [r2 o2].
  exact Hloop.
Qed.

(** ** Variant paths below a prefix *)

Module PrefixFacts.
Import Str StrFacts Re ReFacts EngineFacts.

(** A text that starts with [/styles/] and is cut after a non-empty [pre]
    followed by [/styles/] again: [pre] itself starts with [/styles]. *)
Lemma styles_overlap (pre x y : string) :
  pre <> EmptyString ->
  "/styles/" ++ x = pre ++ "/styles/" ++ y ->
  String.prefix "/styles" pre = true.
Proof.
  intros Hne E.
  destruct pre as [|c0 pre]; [congruence|].
  cbn [append] in E. injection E as <- E.
  do 6 (destruct pre as [|c pre];
        [discriminate E | cbn [append] in E; injection E as <- E]).
  exact (prefix_app "/styles" pre).
Qed.

(** The pattern of the variant paths matches nowhere inside a prefix that
    does not contain [/styles]. *)
Lemma styles_variant_skips (pre tail : string) :
  contains "/styles" pre = false ->
  pre <> EmptyString ->
  match_at false Patterns.styles_variant (pre ++ "/styles/" ++ tail) = None.
Proof.
  intros Hno Hne.
  destruct (match_at false Patterns.styles_variant (pre ++ "/styles/" ++ tail))
    as [[rest cap]|] eqn:Hm; [|reflexivity].
  exfalso. apply match_at_sound in Hm. destruct Hm as (m & E & Hrun).
  unfold Patterns.styles_variant in Hrun. cbn [Seq] in Hrun.
  inversion Hrun as [| | |? ? m1 m2 c0 c1 c2 H1 H2| | | | |]; subst.
  apply (run_word "/styles/") in H1. destruct H1 as [-> _].
  rewrite append_assoc in E. symmetry in E.
  apply (styles_overlap pre _ tail Hne) in E.
  destruct pre as [|c pre]; [congruence|].
  cbn [contains] in Hno. apply orb_false_iff in Hno. destruct Hno as [Hp _].
  congruence.
Qed.

Lemma search_below_prefix (pre tail : string) (m : string * option string) :
  contains "/styles" pre = false ->
  match_at false Patterns.styles_variant ("/styles/" ++ tail) = Some m ->
  search_from false Patterns.styles_variant (pre ++ "/styles/" ++ tail) = Some m.
Proof.
  intros Hno Hm. induction pre as [|c pre IH].
  - now apply SourceFacts.search_from_hit.
  - change (String c pre ++ "/styles/" ++ tail)
      with (String c (pre ++ "/styles/" ++ tail)).
    cbn [search_from].
    change (String c (pre ++ "/styles/" ++ tail))
      with (String c pre ++ "/styles/" ++ tail).
    rewrite (styles_variant_skips (String c pre) tail Hno) by discriminate.
    apply IH. cbn [contains] in Hno. apply orb_false_iff in Hno. tauto.
Qed.

End PrefixFacts.

(** X14.  A variant segment is found wherever it stands in the source: when
    the text before [/styles/<variant>/public/<rest>] does not contain
    [/styles], that text is dropped with the variant segment, the source
    becomes [/sites/default/files/<rest>], and so a source given with
    another host is fetched from the site all the same. *)
Theorem variant_prefix_dropped (H : Host) (pre variant rest : string) :
  Str.contains "/styles" pre = false ->
  variant <> "" -> Str.contains "/" variant = false ->
  rest <> "" -> Str.contains NL rest = false ->
  normalize_src (pre ++ "/styles/" ++ variant ++ "/public/" ++ rest)
    = "/sites/default/files/" ++ rest /\
  image_url H (pre ++ "/styles/" ++ variant ++ "/public/" ++ rest)
    = urljoin H base_url ("/sites/default/files/" ++ rest).
Proof.
  intros Hpre Hv Hslash Hr Hnl.
  assert (Hn : normalize_src (pre ++ "/styles/" ++ variant ++ "/public/" ++ rest)
               = "/sites/default/files/" ++ rest).
  { unfold normalize_src.
    rewrite (SourceFacts.contains_app_l "/styles/" pre _
               (ReFacts.contains_prefix "/styles/" (variant ++ "/public/" ++ rest))).
    unfold Re.search.
    now rewrite (PrefixFacts.search_below_prefix pre _ _ Hpre
                   (ReFacts.styles_variant_match variant rest Hv Hslash Hr Hnl)). }
  split; [exact Hn|]. unfold image_url. now rewrite Hn.
Qed.

Lemma variant_prefix_dropped_witness :
  normalize_src ("https://cdn.example.org/sites/default/files"
                 ++ "/styles/" ++ "large" ++ "/public/" ++ "kv9/hour2.jpg")
    = "/sites/default/files/" ++ "kv9/hour2.jpg" /\
  image_url (Samples.host []) ("https://cdn.example.org/sites/default/files"
                          ++ "/styles/" ++ "large" ++ "/public/" ++ "kv9/hour2.jpg")
    = urljoin (Samples.host []) base_url ("/sites/default/files/" ++ "kv9/hour2.jpg").
Proof.
  apply (variant_prefix_dropped (Samples.host [])
           "https://cdn.example.org/sites/default/files" "large" "kv9/hour2.jpg");
    [reflexivity | discriminate | reflexivity | discriminate | reflexivity].
Defined.

(** ** The caption taken from the context *)

Module CaptionFacts.
Import ReFacts SourceFacts.







(** *** The parts of a split text *)







(** *** A text that mentions no keyword *)



(** *** A text that mentions a keyword *)




(** *** Stripping a text that mentions a keyword *)









(** *** The caption *)




End CaptionFacts.


